(** * The dynamic decoding loop of NJUNMT-tf

    A shallow embedding of [njunmt/decoders/decoder.py]: the [Decoder]
    interface, the helpers [_compute_logits] and [_embed_words], and
    [dynamic_decode] with its loop body [body_traininfer].

    Batched tensors are lists indexed by lane (the leading dimension); what a
    lane holds is left abstract.  The TensorFlow primitives the driver calls
    ([tf.gather], [tf.logical_or], [tf.reduce_all], [tf.zeros_like],
    [tf.TensorArray], [tf.while_loop], [nest.map_structure]) are given their
    run-time meaning on that representation.  Run-time failures of these
    primitives are results of type [outcome]; the loop takes its number of
    allowed body executions as fuel. *)

From Stdlib Require Import QArith.
From stdpp Require Import base list strings option numbers.

Local Open Scope Z_scope.

(** ** Modes, dtypes and failures *)

(** Modelled from the spec: [njunmt.utils.global_names.ModeKeys] is not among
    the sources; the spec names the modes TRAIN, EVAL and INFER. *)
Inductive ModeKeys := TRAIN | EVAL | INFER.

Definition is_infer (m : ModeKeys) : bool :=
  match m with INFER => true | _ => false end.

Inductive DType := tf_float32 | tf_int32 | tf_bool.

(** What can go wrong while the graph runs. *)
Inductive error :=
| GatherOutOfRange      (* tf.gather: an index outside the lanes *)
| StructureMismatch     (* nest.map_structure on different structures *)
| ShapeMismatch         (* tf.logical_or on shapes that do not broadcast *)
| TensorArrayWrite      (* negative index, or a slot written twice *)
| TensorArrayRead       (* stack() over a slot never written, or over an
                           array of size zero of unknown element shape *)
| LoopVarsMismatch.     (* the loop variables do not fit the mode *)

(** ** Tensors and nested structures *)

(** A tensor whose leading dimension ranges over the lanes. *)
Abbreviation Tensor := list (only parsing).

(** A [collections.namedtuple] value: its fields in declaration order. *)
Abbreviation NamedTuple V := (list (string * V)) (only parsing).

(** [time] is a scalar int32 tensor: [time + 1] wraps around. *)
Definition int32_wrap (z : Z) : Z := (z + 2 ^ 31) mod 2 ^ 32 - 2 ^ 31.
Definition int32_add (a b : Z) : Z := int32_wrap (a + b).

(** The structures [nest.map_structure] walks over. *)
#[local] Unset Elimination Schemes.
Inductive nest (A : Type) : Type :=
| Leaf (a : A)
| Seq (l : list (nest A)).
#[local] Set Elimination Schemes.
Arguments Leaf {A} a.
Arguments Seq {A} l.

Section nest_induction.
Context {A : Type} (P : nest A → Prop).
Hypothesis Hleaf : ∀ a, P (Leaf a).
Hypothesis Hseq : ∀ l, Forall P l → P (Seq l).

Fixpoint nest_ind (n : nest A) : P n :=
  match n with
  | Leaf a => Hleaf a
  | Seq l =>
      Hseq l ((fix go (l : list (nest A)) : Forall P l :=
                 match l with
                 | [] => Forall_nil_2 P
                 | n :: l' => Forall_cons_2 P n l' (nest_ind n) (go l')
                 end) l)
  end.
End nest_induction.

Fixpoint map_structure {A B : Type} (f : A → B) (n : nest A) : nest B :=
  match n with
  | Leaf a => Leaf (f a)
  | Seq l => Seq (map (map_structure f) l)
  end.

(** [nest.map_structure] with a function that may fail. *)
Fixpoint map_structure_opt {A B : Type} (f : A → option B) (n : nest A)
  : option (nest B) :=
  match n with
  | Leaf a => Leaf <$> f a
  | Seq l => Seq <$> mapM (map_structure_opt f) l
  end.

(** ** TensorFlow primitives on lanes *)

(** [tf.gather(x, ids)]: lane [i] of the result is lane [ids[i]] of [x]; an
    index that is not a lane of [x] is an error. *)
Definition gather_lane {A : Type} (x : Tensor A) (i : Z) : option A :=
  if bool_decide (0 ≤ i) then x !! Z.to_nat i else None.

Definition tf_gather {A : Type} (x : Tensor A) (ids : Tensor Z)
  : option (Tensor A) :=
  mapM (gather_lane x) ids.

(** [tf.reduce_all] over a boolean vector; true on the empty one. *)
Definition reduce_all (b : Tensor bool) : bool := forallb id b.

(** [tf.logical_or] on two boolean vectors: element-wise on equal shapes, a
    vector of one element broadcasts, other shapes are an error. *)
Definition logical_or (a b : Tensor bool) : option (Tensor bool) :=
  if bool_decide (length a = length b) then Some (zip_with orb a b)
  else if bool_decide (length a = 1%nat) then
    Some (zip_with orb (replicate (length b) (default false (head a))) b)
  else if bool_decide (length b = 1%nat) then
    Some (zip_with orb a (replicate (length a) (default false (head b))))
  else None.

(** [tf.zeros_like(x, dtype)]: the shape of [x], every entry zero. *)
Definition zeros_like {A B : Type} (zero : B) (x : Tensor A) : Tensor B :=
  map (λ _, zero) x.

(** ** Tensor arrays *)

(** [tf.TensorArray(dtype, size=0, dynamic_size=True, clear_after_read=False)]:
    a growable sequence of slots, each written at most once.  The array is
    given no [element_shape]: its element shape is the one TensorFlow infers,
    when the graph is built, from the tensors the graph writes to it, and
    [ta_static_shape] holds whether that shape is fully defined.  It is not
    when a dimension of the written tensors, the batch size for one, is only
    known at run time. *)
Record TensorArray (A : Type) := mkTA {
  ta_dtype : DType;
  ta_static_shape : bool;
  ta_slots : list (option A)
}.
Arguments mkTA {A} _ _ _.
Arguments ta_dtype {A} _.
Arguments ta_static_shape {A} _.
Arguments ta_slots {A} _.

(** [_create_ta(d)], with what shape inference will find for the array. *)
Definition _create_ta {A : Type} (static_shape : bool) (d : DType)
  : TensorArray A :=
  mkTA d static_shape [].

(** [ta.write(index, value)]: grows the array up to [index]; a negative index
    and a slot already written are errors. *)
Definition ta_write {A : Type} (ta : TensorArray A) (index : Z) (value : A)
  : option (TensorArray A) :=
  if bool_decide (index < 0) then None
  else
    let i := Z.to_nat index in
    match ta_slots ta !! i with
    | Some (Some _) => None
    | Some None =>
        Some (mkTA (ta_dtype ta) (ta_static_shape ta)
                (<[i := Some value]> (ta_slots ta)))
    | None =>
        Some (mkTA (ta_dtype ta) (ta_static_shape ta)
                (ta_slots ta ++ replicate (i - length (ta_slots ta)) None
                   ++ [Some value]))
    end.

(** [ta.stack()]: the slots in index order; every slot must have been
    written.  An array of size zero is stacked to the empty sequence only
    when its element shape is fully defined; otherwise stacking it is an
    error. *)
Definition ta_stack {A : Type} (ta : TensorArray A) : option (list A) :=
  match ta_slots ta with
  | [] => if ta_static_shape ta then Some [] else None
  | slots => mapM id slots
  end.

(** ** Beam search helpers *)

(** Modelled from the spec: [njunmt.utils.beam_search] is not among the
    sources.  The status record has the four fields the spec lists; the float
    field and the three integer fields get a type each, so that the same
    record holds the dtypes, the per-step tensors, their tensor arrays and the
    stacked sequences. *)
Record BeamSearchStateSpec (LP ID : Type) := mkBeamSearchStateSpec {
  log_probs : LP;
  predicted_ids : ID;
  beam_ids : ID;
  lengths : ID
}.
Arguments mkBeamSearchStateSpec {LP ID} _ _ _ _.
Arguments log_probs {LP ID} _.
Arguments predicted_ids {LP ID} _.
Arguments beam_ids {LP ID} _.
Arguments lengths {LP ID} _.

Definition BeamSearchStateSpec_dtypes : BeamSearchStateSpec DType DType :=
  mkBeamSearchStateSpec tf_float32 tf_int32 tf_int32 tf_int32.

(** Modelled from the spec: [gather_states] applies [beam_ids] as a gather to
    every tensor of the carried structure, so that lane [i] afterwards is
    parent lane [beam_ids[i]] before; an index out of range is fatal. *)
Definition gather_states {A : Type} (states : nest (Tensor A))
    (beam_ids : Tensor Z) : option (nest (Tensor A)) :=
  map_structure_opt (λ x, tf_gather x beam_ids) states.

(** Modelled from the spec: [stack_beam_size] replicates every lane of every
    tensor across the beam-width lanes of its batch entry. *)
Definition stack_beam_size {A : Type} (x : nest (Tensor A)) (beam_size : nat)
  : nest (Tensor A) :=
  map_structure (λ t, t ≫= replicate beam_size) x.

(** ** The output schema filter *)

(** Modelled from the spec: [njunmt.utils.expert_utils.DecoderOutputRemover]
    is not among the sources.  From the full field list and the optional
    ignore-list it keeps the retained subset, computed when it is built; the
    ignore-list takes effect during inference (the docstring of
    [output_ignore_fields]).  [apply] keeps the retained fields of a record. *)
Definition retained_fields (mode : ModeKeys) (fields : list string)
    (ignore_fields : option (list string)) : list string :=
  match ignore_fields with
  | Some ign => if is_infer mode then filter (λ f, f ∉ ign) fields else fields
  | None => fields
  end.

Record DecoderOutputRemover := mkRemover { remover_fields : list string }.

Definition new_DecoderOutputRemover (mode : ModeKeys) (fields : list string)
    (ignore_fields : option (list string)) : DecoderOutputRemover :=
  mkRemover (retained_fields mode fields ignore_fields).

Definition remover_apply {V : Type} (r : DecoderOutputRemover)
    (ins : list (string * V)) : list (string * V) :=
  filter (λ p, p.1 ∈ remover_fields r) ins.

(** ** Collaborators, call log and outcomes *)

Section Driver.
Context {Row Top Logit F EncoderOutput Bridge : Type}.

(** The [Feedback] helper: start symbols, sampling, next symbols. *)
Record Feedback := mkFeedback {
  beam_size : nat;
  init_symbols : Tensor bool * Tensor Z;
  sample_symbols :
    Tensor Logit → Tensor F → Tensor bool → Tensor Z → Z →
    Tensor Z * Tensor Z * Tensor F * Tensor Z;
  next_symbols : Z → option (Tensor Z) → Tensor bool * Tensor Z
}.

(** The target [Modality]: bottom (embedding) and top (projection) layers. *)
Record Modality := mkModality {
  targets_bottom : Tensor Z → Z → Tensor Row;
  top : Tensor Top → Tensor Logit
}.

(** The abstract [Decoder]: its mode, its declared output record, and the
    methods a concrete decoder provides. *)
Record Decoder := mkDecoder {
  mode : ModeKeys;
  output_dtype : NamedTuple DType;
  output_ignore_fields : option (list string);
  prepare :
    EncoderOutput → Bridge → Feedback →
    nest (Tensor Row) * nest (Tensor Row);
  step :
    Tensor Row → nest (Tensor Row) → nest (Tensor Row) →
    NamedTuple (Tensor Row) * nest (Tensor Row);
  merge_top_features : NamedTuple (Tensor Row) → Tensor Top;
  inputs_prepost_processing_fn :
    (Z → Tensor Row → Tensor Row) *
    (option (Tensor Row) → Tensor Row → Tensor Row)
}.

(** The base class's [output_ignore_fields] and
    [inputs_prepost_processing_fn]. *)
Definition default_output_ignore_fields : option (list string) := None.

Definition default_inputs_prepost_processing_fn :
    (Z → Tensor Row → Tensor Row) *
    (option (Tensor Row) → Tensor Row → Tensor Row) :=
  (λ time inputs, inputs, λ prev_inputs predicted_inputs, predicted_inputs).

(** The buffers of a decode: one per retained output field, one per field of
    the beam search status. *)
Inductive buffer :=
| OutputField (field : string)
| StatusField (field : string).

(** The calls the driver makes, in the order it makes them: on the output
    remover, on the helper, on the decoder and on the buffers. *)
Inductive event :=
| EvRemover (retained : list string)
| EvInitSymbols
| EvPrepare
| EvPreprocess (time : Z) (inputs : Tensor Row)
| EvStep (inputs : Tensor Row) (decoder_states : nest (Tensor Row))
| EvSample (time : Z) (log_probs : Tensor F) (finished : Tensor bool)
    (lengths : Tensor Z)
| EvNext (time : Z) (sample_ids : option (Tensor Z))
| EvPostprocess (prev_inputs : option (Tensor Row))
    (predicted_inputs : Tensor Row)
| EvWrite (b : buffer) (time : Z)
| EvStack (b : buffer).

(** A computation returns a value and the calls it made, fails, or is cut
    off by the fuel of a loop. *)
Inductive outcome (A : Type) :=
| Done (a : A) (tr : list event)
| Fault (e : error)
| Timeout.
Arguments Done {A} a tr.
Arguments Fault {A} e.
Arguments Timeout {A}.

Definition ret {A : Type} (a : A) : outcome A := Done a [].

Definition bind {A B : Type} (m : outcome A) (k : A → outcome B)
  : outcome B :=
  match m with
  | Done a tr =>
      match k a with
      | Done b tr' => Done b (tr ++ tr')
      | Fault e => Fault e
      | Timeout => Timeout
      end
  | Fault e => Fault e
  | Timeout => Timeout
  end.

(** A call on a collaborator: its value, with the call recorded. *)
Definition call {A : Type} (ev : event) (a : A) : outcome A := Done a [ev].

Definition emit (evs : list event) : outcome unit := Done tt evs.

(** A primitive that may fail. *)
Definition require {A : Type} (e : error) (o : option A) : outcome A :=
  match o with
  | Some a => Done a []
  | None => Fault e
  end.

Notation "x <~ m ; k" := (bind m (λ x, k))
  (at level 20, m at level 100, k at level 200, only parsing).
Notation "' pat <~ m ; k" := (bind m (λ x, match x with pat => k end))
  (at level 20, pat pattern, m at level 100, k at level 200, only parsing).

(** [tf.while_loop(cond, body, loop_vars)]; [fuel] bounds the number of body
    executions. *)
Fixpoint while_loop {S : Type} (fuel : nat) (cond : S → bool)
    (body : S → outcome S) (loop_vars : S) : outcome S :=
  if cond loop_vars then
    match fuel with
    | O => Timeout
    | Datatypes.S fuel' =>
        loop_vars' <~ body loop_vars ; while_loop fuel' cond body loop_vars'
    end
  else ret loop_vars.

(** ** Buffers of records *)

(** [nest.map_structure(lambda ta, out: ta.write(time, out), tas, outs)] on
    two records: they must have the same fields in the same order; every
    array is then written at [time]. *)
Definition write_fields {V : Type} (time : Z)
    (tas : NamedTuple (TensorArray V)) (outs : NamedTuple V)
  : outcome (NamedTuple (TensorArray V)) :=
  if bool_decide (tas.*1 = outs.*1) then
    tas' <~ require TensorArrayWrite
              (mapM (λ p, (λ ta, (p.1.1, ta)) <$> ta_write p.1.2 time p.2.2)
                 (zip tas outs)) ;
    _ <~ emit ((λ f, EvWrite (OutputField f) time) <$> tas.*1) ;
    ret tas'
  else Fault StructureMismatch.

(** [nest.map_structure(lambda ta: ta.stack(), tas)] on a record. *)
Definition stack_fields {V : Type} (tas : NamedTuple (TensorArray V))
  : outcome (NamedTuple (list V)) :=
  outs <~ require TensorArrayRead
            (mapM (λ p, (λ vs, (p.1, vs)) <$> ta_stack p.2) tas) ;
  _ <~ emit ((λ f, EvStack (OutputField f)) <$> tas.*1) ;
  ret outs.

(** The same two operations on the four buffers of the beam search status. *)
Definition write_status (time : Z)
    (tas : BeamSearchStateSpec (TensorArray (Tensor F)) (TensorArray (Tensor Z)))
    (st : BeamSearchStateSpec (Tensor F) (Tensor Z))
  : outcome (BeamSearchStateSpec (TensorArray (Tensor F))
               (TensorArray (Tensor Z))) :=
  tas' <~ require TensorArrayWrite
            (lp ← ta_write (log_probs tas) time (log_probs st);
             pi ← ta_write (predicted_ids tas) time (predicted_ids st);
             bi ← ta_write (beam_ids tas) time (beam_ids st);
             le ← ta_write (lengths tas) time (lengths st);
             Some (mkBeamSearchStateSpec lp pi bi le)) ;
  _ <~ emit [EvWrite (StatusField "log_probs") time;
             EvWrite (StatusField "predicted_ids") time;
             EvWrite (StatusField "beam_ids") time;
             EvWrite (StatusField "lengths") time] ;
  ret tas'.

Definition stack_status
    (tas : BeamSearchStateSpec (TensorArray (Tensor F)) (TensorArray (Tensor Z)))
  : outcome (BeamSearchStateSpec (list (Tensor F)) (list (Tensor Z))) :=
  st <~ require TensorArrayRead
          (lp ← ta_stack (log_probs tas);
           pi ← ta_stack (predicted_ids tas);
           bi ← ta_stack (beam_ids tas);
           le ← ta_stack (lengths tas);
           Some (mkBeamSearchStateSpec lp pi bi le)) ;
  _ <~ emit [EvStack (StatusField "log_probs");
             EvStack (StatusField "predicted_ids");
             EvStack (StatusField "beam_ids");
             EvStack (StatusField "lengths")] ;
  ret st.

(** ** The decoding loop *)

Definition _compute_logits (decoder : Decoder) (target_modality : Modality)
    (decoder_output : NamedTuple (Tensor Row)) : Tensor Logit :=
  top target_modality (merge_top_features decoder decoder_output).

Definition _embed_words (target_modality : Modality) (symbols : Tensor Z)
    (time : Z) : Tensor Row :=
  targets_bottom target_modality symbols time.

(** The loop variables added for inference: [args[0]], [args[1]] and
    [args[2]] of the loop body. *)
Record InferArgs := mkInferArgs {
  arg_log_probs : Tensor F;
  arg_lengths : Tensor Z;
  arg_infer_status_ta :
    BeamSearchStateSpec (TensorArray (Tensor F)) (TensorArray (Tensor Z))
}.

(** The loop variables, by the names the loop body gives them. *)
Record LoopVars := mkLoopVars {
  time : Z;
  inputs : Tensor Row;
  decoder_states : nest (Tensor Row);
  outputs_ta : NamedTuple (TensorArray (Tensor Row));
  finished : Tensor bool;
  args : option InferArgs
}.

(** The loop condition: [not reduce_all(finished)]. *)
Definition loop_cond (vars : LoopVars) : bool :=
  negb (reduce_all (finished vars)).

Section Decode.
Variable zero : F.

(** Shape inference: for every buffer, whether the element shape TensorFlow
    infers from the tensor the loop body writes to it (lines 293-294 and
    313-314) is fully defined. *)
Variable static_shape : buffer → bool.
Variable decoder : Decoder.
Variable helper : Feedback.
Variable target_modality : Modality.

(** The loop body.  The remover, the two hooks and the decoding parameters
    are the values [dynamic_decode] computed before the loop. *)
Definition body_traininfer
    (decoder_output_remover : DecoderOutputRemover)
    (inputs_preprocessing_fn : Z → Tensor Row → Tensor Row)
    (inputs_postprocessing_fn : option (Tensor Row) → Tensor Row → Tensor Row)
    (decoding_params : nest (Tensor Row))
    (vars : LoopVars) : outcome LoopVars :=
  let t := time vars in
  inputs' <~ call (EvPreprocess t (inputs vars))
               (inputs_preprocessing_fn t (inputs vars)) ;
  '(outputs, next_decoder_states) <~
     call (EvStep inputs' (decoder_states vars))
       (step decoder inputs' (decoder_states vars) decoding_params) ;
  outputs_ta' <~ write_fields t (outputs_ta vars)
                   (remover_apply decoder_output_remover outputs) ;
  '(sample_ids, prev_inputs, next_decoder_states, args') <~
     (if is_infer (mode decoder) then
        match args vars with
        | Some a =>
            let logits := _compute_logits decoder target_modality outputs in
            '(sample_ids, beam_ids, next_log_probs, next_lengths) <~
               call (EvSample t (arg_log_probs a) (finished vars)
                       (arg_lengths a))
                 (sample_symbols helper logits (arg_log_probs a)
                    (finished vars) (arg_lengths a) t) ;
            next_decoder_states <~
              require GatherOutOfRange
                (gather_states next_decoder_states beam_ids) ;
            prev_inputs <~
              require GatherOutOfRange (tf_gather inputs' beam_ids) ;
            let infer_status :=
              mkBeamSearchStateSpec next_log_probs sample_ids beam_ids
                next_lengths in
            infer_status_ta <~
              write_status t (arg_infer_status_ta a) infer_status ;
            ret (Some sample_ids, prev_inputs, next_decoder_states,
                 Some (mkInferArgs next_log_probs next_lengths
                         infer_status_ta))
        | None => Fault LoopVarsMismatch
        end
      else ret (None, inputs', next_decoder_states, None)) ;
  '(next_finished, next_input_symbols) <~
     call (EvNext t sample_ids) (next_symbols helper t sample_ids) ;
  let next_inputs :=
    _embed_words target_modality next_input_symbols (int32_add t 1) in
  next_inputs <~
    call (EvPostprocess (Some prev_inputs) next_inputs)
      (inputs_postprocessing_fn (Some prev_inputs) next_inputs) ;
  next_finished <~
    require ShapeMismatch (logical_or next_finished (finished vars)) ;
  ret (mkLoopVars (int32_add t 1) next_inputs next_decoder_states
         outputs_ta' next_finished args').

(** What a decode returns: the stacked outputs and, in inference, the
    stacked beam search status. *)
Definition DecodeResult : Type :=
  NamedTuple (list (Tensor Row)) *
  option (BeamSearchStateSpec (list (Tensor F)) (list (Tensor Z))).

Definition dynamic_decode (fuel : nat) (encoder_output : EncoderOutput)
    (bridge : Bridge) : outcome DecodeResult :=
  decoder_output_remover <~
    (let r := new_DecoderOutputRemover (mode decoder)
                (output_dtype decoder).*1 (output_ignore_fields decoder) in
     call (EvRemover (remover_fields r)) r) ;
  '(initial_finished, initial_input_symbols) <~
     call EvInitSymbols (init_symbols helper) ;
  let initial_time := 0 in
  let initial_inputs :=
    _embed_words target_modality initial_input_symbols initial_time in
  let '(inputs_preprocessing_fn, inputs_postprocessing_fn) :=
    inputs_prepost_processing_fn decoder in
  initial_inputs <~
    call (EvPostprocess None initial_inputs)
      (inputs_postprocessing_fn None initial_inputs) ;
  '(initial_decoder_states, decoding_params) <~
     call EvPrepare (prepare decoder encoder_output bridge helper) ;
  let '(initial_decoder_states, decoding_params) :=
    if is_infer (mode decoder) then
      (stack_beam_size initial_decoder_states (beam_size helper),
       stack_beam_size decoding_params (beam_size helper))
    else (initial_decoder_states, decoding_params) in
  let initial_outputs_ta :=
    (λ p, (p.1, _create_ta (static_shape (OutputField p.1)) p.2)) <$>
      remover_apply decoder_output_remover (output_dtype decoder) in
  let loop_vars :=
    mkLoopVars initial_time initial_inputs initial_decoder_states
      initial_outputs_ta initial_finished
      (if is_infer (mode decoder) then
         let initial_log_probs := zeros_like zero initial_input_symbols in
         let initial_lengths := zeros_like 0 initial_input_symbols in
         let initial_infer_status_ta :=
           mkBeamSearchStateSpec
             (_create_ta (static_shape (StatusField "log_probs"))
                (log_probs BeamSearchStateSpec_dtypes))
             (_create_ta (static_shape (StatusField "predicted_ids"))
                (predicted_ids BeamSearchStateSpec_dtypes))
             (_create_ta (static_shape (StatusField "beam_ids"))
                (beam_ids BeamSearchStateSpec_dtypes))
             (_create_ta (static_shape (StatusField "lengths"))
                (lengths BeamSearchStateSpec_dtypes)) in
         Some (mkInferArgs initial_log_probs initial_lengths
                 initial_infer_status_ta)
       else None) in
  res <~ while_loop fuel loop_cond
           (body_traininfer decoder_output_remover inputs_preprocessing_fn
              inputs_postprocessing_fn decoding_params)
           loop_vars ;
  final_outputs <~ stack_fields (outputs_ta res) ;
  if is_infer (mode decoder) then
    match args res with
    | Some a =>
        final_infer_status <~ stack_status (arg_infer_status_ta a) ;
        ret (final_outputs, Some final_infer_status)
    | None => Fault LoopVarsMismatch
    end
  else ret (final_outputs, None).

End Decode.
End Driver.

Arguments Done {Row F A} a tr.
Arguments Fault {Row F A} e.
Arguments Timeout {Row F A}.

(** ** Runs of the loop and what a decode computes before it *)

(** [k] executions of a loop body, one after the other. *)
Fixpoint iterate {Row F S : Type} (k : nat)
    (body : S → @outcome Row F S) (s : S) : @outcome Row F S :=
  match k with
  | O => ret s
  | Datatypes.S k' => bind (body s) (iterate k' body)
  end.

(** The calls of each kind in a log. *)
Section Calls.
Context {Row F : Type}.

Definition step_calls (tr : list (@event Row F))
  : list (Tensor Row * nest (Tensor Row)) :=
  omap (λ ev, match ev with EvStep i s => Some (i, s) | _ => None end) tr.

Definition postprocess_calls (tr : list (@event Row F))
  : list (option (Tensor Row) * Tensor Row) :=
  omap (λ ev, match ev with EvPostprocess p n => Some (p, n) | _ => None end)
    tr.

Definition remover_calls (tr : list (@event Row F)) : list (list string) :=
  omap (λ ev, match ev with EvRemover r => Some r | _ => None end) tr.

Definition write_calls (tr : list (@event Row F)) : list (buffer * Z) :=
  omap (λ ev, match ev with EvWrite b t => Some (b, t) | _ => None end) tr.

Definition stack_calls (tr : list (@event Row F)) : list buffer :=
  omap (λ ev, match ev with EvStack b => Some b | _ => None end) tr.

(** The calls on the helper and on the two hooks: neither the construction
    of the remover, nor a transition, nor a write, nor a stack. *)
Definition other_call (ev : @event Row F) : bool :=
  match ev with
  | EvRemover _ | EvStep _ _ | EvWrite _ _ | EvStack _ => false
  | _ => true
  end.

(** The writes of one step: the output buffers, then in inference the four
    buffers of the beam search status. *)
Definition output_writes (fields : list string) (t : Z)
  : list (@event Row F) :=
  (λ f, EvWrite (OutputField f) t) <$> fields.

Definition status_writes (t : Z) : list (@event Row F) :=
  [EvWrite (StatusField "log_probs") t;
   EvWrite (StatusField "predicted_ids") t;
   EvWrite (StatusField "beam_ids") t;
   EvWrite (StatusField "lengths") t].
End Calls.

(** A tensor array that holds exactly [k] written slots. *)
Definition dense {A : Type} (k : nat) (ta : TensorArray A) : Prop :=
  ∃ vs, ta_slots ta = Some <$> vs ∧ length vs = k.

(** The fields of the beam search status, in order. *)
Definition status_fields : list string :=
  ["log_probs"; "predicted_ids"; "beam_ids"; "lengths"]%string.

(** The buffers a decode keeps, and the writes of a loop of [T] steps: at
    every time from 0 to [T - 1], every buffer once. *)
Definition decode_buffers (infer : bool) (fields : list string)
  : list buffer :=
  (OutputField <$> fields)
  ++ (if infer then StatusField <$> status_fields else []).

Definition loop_writes (infer : bool) (fields : list string) (T : nat)
  : list (buffer * Z) :=
  seq 0 T ≫= (λ t, (λ b, (b, Z.of_nat t)) <$> decode_buffers infer fields).


(** The [i]-th lane of every tensor of a structure. *)
Definition nest_lane {A : Type} (i : nat) (n : nest (Tensor A))
  : option (nest A) :=
  map_structure_opt (λ x : Tensor A, x !! i) n.

Section Run.
Context {Row Top Logit F EncoderOutput Bridge : Type}.
Variable zero : F.
Variable static_shape : buffer → bool.
Variable decoder : @Decoder Row Top Logit F EncoderOutput Bridge.
Variable helper : @Feedback Logit F.
Variable target_modality : @Modality Row Top Logit.

(** The values of one execution of the loop body, named as in the source:
    [inputs] after the pre-processing hook, the result of [decoder.step] and
    the result of [helper.sample_symbols]. *)
Definition step_inputs (pre : Z → Tensor Row → Tensor Row) (vars : @LoopVars Row F)
  : Tensor Row :=
  pre (time vars) (inputs vars).

Definition step_result (pre : Z → Tensor Row → Tensor Row)
    (decoding_params : nest (Tensor Row)) (vars : @LoopVars Row F)
  : NamedTuple (Tensor Row) * nest (Tensor Row) :=
  step decoder (step_inputs pre vars) (decoder_states vars) decoding_params.

Definition step_sample (pre : Z → Tensor Row → Tensor Row)
    (decoding_params : nest (Tensor Row)) (vars : @LoopVars Row F) (a : @InferArgs F)
  : Tensor Z * Tensor Z * Tensor F * Tensor Z :=
  sample_symbols helper
    (_compute_logits decoder target_modality
       (step_result pre decoding_params vars).1)
    (arg_log_probs a) (finished vars) (arg_lengths a) (time vars).

(** The post-processing hook is called once in the body just run, and its
    first argument is the input the loop carried into that body. *)
Definition hook_receives_carried_input (vars : @LoopVars Row F)
    (tr : list (@event Row F)) : Prop :=
  (postprocess_calls tr).*1 = [Some (inputs vars)].

(** What [dynamic_decode] computes before the loop. *)
Variable encoder_output : EncoderOutput.
Variable bridge : Bridge.

Definition decode_remover : DecoderOutputRemover :=
  new_DecoderOutputRemover (mode decoder) (output_dtype decoder).*1
    (output_ignore_fields decoder).

Definition decode_params : nest (Tensor Row) :=
  let p := (prepare decoder encoder_output bridge helper).2 in
  if is_infer (mode decoder) then stack_beam_size p (beam_size helper) else p.

(** The fields a decode keeps, and the filtered output of a transition call
    on the arguments [c]. *)
Definition decode_fields : list string :=
  (remover_apply decode_remover (output_dtype decoder)).*1.

Definition step_output (c : Tensor Row * nest (Tensor Row))
  : NamedTuple (Tensor Row) :=
  remover_apply decode_remover (step decoder c.1 c.2 decode_params).1.

Definition decode_body : @LoopVars Row F → @outcome Row F (@LoopVars Row F) :=
  body_traininfer decoder helper target_modality decode_remover
    (inputs_prepost_processing_fn decoder).1
    (inputs_prepost_processing_fn decoder).2 decode_params.

Definition initial_inputs : Tensor Row :=
  (inputs_prepost_processing_fn decoder).2 None
    (_embed_words target_modality (init_symbols helper).2 0).

Definition initial_loop_vars : @LoopVars Row F :=
  mkLoopVars 0 initial_inputs
    (let s := (prepare decoder encoder_output bridge helper).1 in
     if is_infer (mode decoder) then stack_beam_size s (beam_size helper)
     else s)
    ((λ p, (p.1, _create_ta (static_shape (OutputField p.1)) p.2)) <$>
       remover_apply decode_remover (output_dtype decoder))
    (init_symbols helper).1
    (if is_infer (mode decoder) then
       Some (mkInferArgs (zeros_like zero (init_symbols helper).2)
               (zeros_like 0 (init_symbols helper).2)
               (mkBeamSearchStateSpec
                  (_create_ta (static_shape (StatusField "log_probs"))
                     tf_float32)
                  (_create_ta (static_shape (StatusField "predicted_ids"))
                     tf_int32)
                  (_create_ta (static_shape (StatusField "beam_ids"))
                     tf_int32)
                  (_create_ta (static_shape (StatusField "lengths"))
                     tf_int32)))
     else None).

(** The calls made before the loop. *)
Definition setup_calls : list (@event Row F) :=
  [EvRemover (remover_fields decode_remover); EvInitSymbols;
   EvPostprocess None (_embed_words target_modality (init_symbols helper).2 0);
   EvPrepare].

(** The stacking after the loop. *)
Definition finalize (res : @LoopVars Row F)
  : @outcome Row F (@DecodeResult Row F) :=
  bind (stack_fields (outputs_ta res)) (λ final_outputs,
    if is_infer (mode decoder) then
      match args res with
      | Some a =>
          bind (stack_status (arg_infer_status_ta a)) (λ final_infer_status,
            ret (final_outputs, Some final_infer_status))
      | None => Fault LoopVarsMismatch
      end
    else ret (final_outputs, None)).

End Run.


(** ** More views of the call log *)

Section MoreCalls.
Context {Row F : Type}.

Definition prepare_calls (tr : list (@event Row F)) : list unit :=
  omap (λ ev, match ev with EvPrepare => Some tt | _ => None end) tr.

Definition init_symbols_calls (tr : list (@event Row F)) : list unit :=
  omap (λ ev, match ev with EvInitSymbols => Some tt | _ => None end) tr.

Definition preprocess_calls (tr : list (@event Row F))
  : list (Z * Tensor Row) :=
  omap (λ ev, match ev with EvPreprocess t i => Some (t, i) | _ => None end)
    tr.

Definition next_calls (tr : list (@event Row F))
  : list (Z * option (Tensor Z)) :=
  omap (λ ev, match ev with EvNext t s => Some (t, s) | _ => None end) tr.

Definition sample_calls (tr : list (@event Row F))
  : list (Z * Tensor F * Tensor bool * Tensor Z) :=
  omap (λ ev, match ev with
              | EvSample t lp fin len => Some (t, lp, fin, len)
              | _ => None
              end) tr.
End MoreCalls.

(** The values the int32 time counter takes in the first [T] steps. *)
Definition loop_times (T : nat) : list Z :=
  (λ t, int32_wrap (Z.of_nat t)) <$> seq 0 T.

(** Every tensor of a structure has [n] lanes. *)
Fixpoint nest_lanes {A : Type} (n : nat) (st : nest (Tensor A)) : Prop :=
  match st with
  | Leaf x => length x = n
  | Seq l => foldr (λ st' P, nest_lanes n st' ∧ P) True l
  end.

(** The parent indices that keep every lane in place. *)
Definition identity_beam_ids (n : nat) : Tensor Z := Z.of_nat <$> seq 0 n.

Section TeacherForced.
Context {Row Top Logit F EncoderOutput Bridge : Type}.
Variable decoder : @Decoder Row Top Logit F EncoderOutput Bridge.
Variable helper : @Feedback Logit F.
Variable target_modality : @Modality Row Top Logit.
Variable encoder_output : EncoderOutput.
Variable bridge : Bridge.

(** The time, the carried input and the carried state of the loop outside
    inference, step after step: what lines 291-292 and 317-320 of the body
    compute when the branch of line 298 is not taken. *)
Definition train_next (v : Z * Tensor Row * nest (Tensor Row))
  : Z * Tensor Row * nest (Tensor Row) :=
  let t := v.1.1 in
  let inputs := (inputs_prepost_processing_fn decoder).1 t v.1.2 in
  let next_inputs :=
    _embed_words target_modality (next_symbols helper t None).2
      (int32_add t 1) in
  (int32_add t 1,
   (inputs_prepost_processing_fn decoder).2 (Some inputs) next_inputs,
   (step decoder inputs v.2
      (decode_params decoder helper encoder_output bridge)).2).

Definition train_start : Z * Tensor Row * nest (Tensor Row) :=
  (0, initial_inputs decoder helper target_modality,
   (prepare decoder encoder_output bridge helper).1).

Definition train_at (k : nat) : Z * Tensor Row * nest (Tensor Row) :=
  Nat.iter k train_next train_start.

(** The arguments of the [k]-th transition call of a teacher-forced run. *)
Definition train_call (k : nat) : Tensor Row * nest (Tensor Row) :=
  ((inputs_prepost_processing_fn decoder).1 (train_at k).1.1 (train_at k).1.2,
   (train_at k).2).

(** The same decoder with another ignore-list. *)
Definition with_ignore_fields (ignore_fields : option (list string))
  : @Decoder Row Top Logit F EncoderOutput Bridge :=
  mkDecoder (mode decoder) (output_dtype decoder) ignore_fields
    (prepare decoder) (step decoder) (merge_top_features decoder)
    (inputs_prepost_processing_fn decoder).

End TeacherForced.


Section Sampling.
Context {Row Top Logit F EncoderOutput Bridge : Type}.
Variable decoder : @Decoder Row Top Logit F EncoderOutput Bridge.
Variable helper : @Feedback Logit F.
Variable target_modality : @Modality Row Top Logit.
Variable encoder_output : EncoderOutput.
Variable bridge : Bridge.

(** What [helper.sample_symbols] returns at a step, from the arguments [c] of
    the step's transition call and the arguments [p] of the sampling call:
    the logits are computed from the unfiltered outputs of the transition. *)
Definition sample_result (c : Tensor Row * nest (Tensor Row))
    (p : Z * Tensor F * Tensor bool * Tensor Z)
  : Tensor Z * Tensor Z * Tensor F * Tensor Z :=
  sample_symbols helper
    (_compute_logits decoder target_modality
       (step decoder c.1 c.2
          (decode_params decoder helper encoder_output bridge)).1)
    p.1.1.2 p.1.2 p.2 p.1.1.1.

End Sampling.

(** Two sets of loop variables that agree on everything but the output
    buffers. *)
Definition same_carried {Row F : Type} (s1 s2 : @LoopVars Row F) : Prop :=
  time s1 = time s2 ∧ inputs s1 = inputs s2 ∧
  decoder_states s1 = decoder_states s2 ∧ finished s1 = finished s2 ∧
  args s1 = args s2.
(** ** A small concrete decode *)

(** Lanes hold integers and log-probabilities are rationals; the encoder
    output is the batch size.  The embedding of a symbol is the symbol, the
    decoder adds its input to its state and returns it in both output fields;
    the helper reverses the lanes at every step, adds [-1/10] to every
    log-probability and reports every lane finished at the times [stop]
    accepts. *)
Module Demo.

Definition modality : @Modality Z Z Z :=
  mkModality (λ symbols _, symbols) (λ features, features).

Definition decoder (m : ModeKeys) : @Decoder Z Z Z Q nat unit :=
  mkDecoder m
    [("logits"%string, tf_float32); ("attention"%string, tf_float32)]
    (Some ["attention"%string])
    (λ batch _ _, (Leaf (replicate batch 0), Leaf (replicate batch 7)))
    (λ inputs states _,
       ([("logits"%string, inputs); ("attention"%string, inputs)],
        match states with
        | Leaf h => Leaf (zip_with Z.add h inputs)
        | Seq _ => states
        end))
    (λ outputs, match outputs with (_, x) :: _ => x | [] => [] end)
    default_inputs_prepost_processing_fn.

Definition helper (lanes : nat) (stop : Z → bool) : @Feedback Z Q :=
  mkFeedback 2
    (replicate lanes false, (λ i, 10 * (Z.of_nat i + 1)) <$> seq 0 lanes)
    (λ logits log_probs _ lengths _,
       (logits, reverse (Z.of_nat <$> seq 0 lanes),
        (λ p, (p + - (1 # 10))%Q) <$> log_probs,
        (λ n, n + 1) <$> lengths))
    (λ time sample_ids,
       (replicate lanes (stop time),
        default ((λ i, 10 * (Z.of_nat i + 1) + time + 1) <$> seq 0 lanes)
          sample_ids)).

(** The element shapes of the buffers: not fully defined, as when the batch
    size is fed at run time, or fully defined. *)
Definition dynamic_shapes (b : buffer) : bool := false.
Definition static_shapes (b : buffer) : bool := true.

(** An inference decode of one sentence with two beams, stopped by the helper
    at time 3, and a teacher-forced decode of two sentences of length 3. *)
Definition infer_decode (fuel : nat) (stop : Z → bool)
  : @outcome Z Q (@DecodeResult Z Q) :=
  dynamic_decode 0%Q dynamic_shapes (decoder INFER) (helper 2 stop) modality
      fuel 1%nat tt.

Definition train_decode (fuel : nat) (stop : Z → bool)
  : @outcome Z Q (@DecodeResult Z Q) :=
  dynamic_decode 0%Q dynamic_shapes (decoder TRAIN) (helper 2 stop) modality
      fuel 2%nat tt.

(** The helper stops at time 3; a second one also stops at times 1 and 2,
    as when every lane has produced its end symbol by then; a third one
    never stops; a fourth one stops when targets of length [len] are
    exhausted. *)
Definition stop3 (t : Z) : bool := bool_decide (3 ≤ t).
Definition never (t : Z) : bool := false.
Definition stop_len (len : Z) (t : Z) : bool := bool_decide (len ≤ t + 1).

(** The loop variables before the first step and the loop body of the two
    decodes. *)
Definition infer_vars (stop : Z → bool) : @LoopVars Z Q :=
  initial_loop_vars 0%Q dynamic_shapes (decoder INFER) (helper 2 stop)
      modality 1%nat tt.

Definition infer_body (stop : Z → bool)
  : @LoopVars Z Q → @outcome Z Q (@LoopVars Z Q) :=
  decode_body (decoder INFER) (helper 2 stop) modality 1%nat tt.

Definition train_vars (stop : Z → bool) : @LoopVars Z Q :=
  initial_loop_vars 0%Q dynamic_shapes (decoder TRAIN) (helper 2 stop)
      modality 2%nat tt.

Definition train_body (stop : Z → bool)
  : @LoopVars Z Q → @outcome Z Q (@LoopVars Z Q) :=
  decode_body (decoder TRAIN) (helper 2 stop) modality 2%nat tt.

(** Loop variables whose first lane is already finished. *)
Definition half_finished : @LoopVars Z Q :=
  let v := train_vars never in
  mkLoopVars (time v) (inputs v) (decoder_states v) (outputs_ta v)
    [true; false] (args v).

(** An inference decode of an empty batch. *)
Definition empty_decode (static_shape : buffer → bool) (fuel : nat)
  : @outcome Z Q (@DecodeResult Z Q) :=
  dynamic_decode 0%Q static_shape (decoder INFER) (helper 0 stop3) modality
    fuel 0%nat tt.


(** A greedy inference decode: one sentence, one lane, so that the helper's
    [beam_ids] keep the lane in place. *)
Definition greedy_vars : @LoopVars Z Q :=
  initial_loop_vars 0%Q dynamic_shapes (decoder INFER) (helper 1 stop3)
      modality 1%nat tt.

(** A decoder that declares two output fields and returns only one. *)
Definition forgetful_decoder : @Decoder Z Z Z Q nat unit :=
  mkDecoder TRAIN
    [("logits"%string, tf_float32); ("attention"%string, tf_float32)]
    None
    (λ batch _ _, (Leaf (replicate batch 0), Leaf (replicate batch 7)))
    (λ inputs states _, ([("logits"%string, inputs)], states))
    (λ outputs, match outputs with (_, x) :: _ => x | [] => [] end)
    default_inputs_prepost_processing_fn.

Definition forgetful_decode (fuel : nat) : @outcome Z Q (@DecodeResult Z Q) :=
  dynamic_decode 0%Q dynamic_shapes forgetful_decoder (helper 2 stop3)
      modality fuel 2%nat
    tt.
End Demo.

(** * Properties of the decoding loop *)

(** ** Laws of outcomes *)

Section OutcomeLaws.
Context {Row F : Type}.
Implicit Types ev : @event Row F.
Implicit Types tr : list (@event Row F).

Lemma bind_ret_l {A B} (a : A) (k : A → @outcome Row F B) :
  bind (ret a) k = k a.
Proof. unfold bind, ret. destruct (k a); reflexivity. Qed.

Lemma bind_ret_r {A} (m : @outcome Row F A) : bind m ret = m.
Proof. destruct m; cbn; rewrite ?app_nil_r; reflexivity. Qed.

Lemma bind_assoc {A B C} (m : @outcome Row F A) (k : A → @outcome Row F B)
    (h : B → @outcome Row F C) :
  bind (bind m k) h = bind m (λ a, bind (k a) h).
Proof.
  destruct m as [a tr| |]; cbn; try reflexivity.
  destruct (k a) as [b tr'| |]; cbn; try reflexivity.
  destruct (h b); cbn; rewrite ?app_assoc; reflexivity.
Qed.

Lemma bind_call {A B} ev (a : A) (k : A → @outcome Row F B) :
  bind (call ev a) k = bind (Done tt [ev]) (λ _, k a).
Proof. reflexivity. Qed.

Lemma bind_Done {A B} (a : A) tr (k : A → @outcome Row F B) :
  bind (Done a tr) k = bind (Done tt tr) (λ _, k a).
Proof. reflexivity. Qed.

Lemma bind_log_log {B} tr1 tr2 (m : @outcome Row F B) :
  bind (Done tt tr1) (λ _, bind (Done tt tr2) (λ _, m))
  = bind (Done tt (tr1 ++ tr2)) (λ _, m).
Proof. destruct m; cbn; rewrite ?app_assoc; reflexivity. Qed.

Lemma bind_log_Done {A} tr (m : @outcome Row F A) (b : A) tr' :
  bind (Done tt tr) (λ _, m) = Done b tr' →
  ∃ tr0, m = Done b tr0 ∧ tr' = tr ++ tr0.
Proof. destruct m; cbn; intros; simplify_eq; eauto. Qed.

Lemma bind_Done_inv {A B} (m : @outcome Row F A) (k : A → @outcome Row F B)
    (b : B) tr :
  bind m k = Done b tr →
  ∃ a tr1 tr2, m = Done a tr1 ∧ k a = Done b tr2 ∧ tr = tr1 ++ tr2.
Proof.
  destruct m as [a tr1| |]; cbn; try discriminate.
  destruct (k a) as [b' tr2| |] eqn:Hk; intros; simplify_eq.
  eauto 6.
Qed.

Lemma require_Done {A} e (o : option A) (a : A) tr :
  @require Row F A e o = Done a tr → o = Some a ∧ tr = [].
Proof. destruct o; cbn; intros; simplify_eq; auto. Qed.

End OutcomeLaws.

Section DecodeUnfold.
Context {Row Top Logit F EncoderOutput Bridge : Type}.
Variable zero : F.
Variable static_shape : buffer → bool.
Variable decoder : @Decoder Row Top Logit F EncoderOutput Bridge.
Variable helper : @Feedback Logit F.
Variable target_modality : @Modality Row Top Logit.
Variable encoder_output : EncoderOutput.
Variable bridge : Bridge.

Lemma dynamic_decode_unfold (fuel : nat) :
  dynamic_decode zero static_shape decoder helper target_modality fuel
      encoder_output bridge
  = bind (Done tt (setup_calls decoder helper target_modality))
      (λ _, bind (while_loop fuel loop_cond
                    (decode_body decoder helper target_modality
                       encoder_output bridge)
                    (initial_loop_vars zero static_shape decoder helper
                        target_modality
                       encoder_output bridge))
              (finalize decoder)).
Proof.
  unfold dynamic_decode, decode_body, initial_loop_vars, finalize,
    setup_calls, initial_inputs, decode_params, decode_remover.
  destruct (init_symbols helper) as [fin0 syms0].
  destruct (inputs_prepost_processing_fn decoder) as [pre post].
  destruct (prepare decoder encoder_output bridge helper) as [st0 par0].
  cbv zeta.
  repeat (rewrite bind_call; cbv beta iota).
  rewrite !bind_log_log.
  destruct (is_infer (mode decoder)); reflexivity.
Qed.
End DecodeUnfold.

(** ** Gathering lanes *)

Section Gather.
Context {A : Type}.
Implicit Types x y : Tensor A.
Implicit Types ids : Tensor Z.

Lemma gather_lane_Some x (b : Z) (v : A) :
  gather_lane x b = Some v ↔ 0 ≤ b ∧ x !! Z.to_nat b = Some v.
Proof.
  unfold gather_lane. case_bool_decide; [tauto|].
  split; [discriminate | intros [? _]; lia].
Qed.

Lemma tf_gather_length x ids y :
  tf_gather x ids = Some y → length y = length ids.
Proof. intros H. symmetry. exact (length_mapM _ _ _ H). Qed.

Lemma tf_gather_lookup x ids y (i : nat) (b : Z) :
  tf_gather x ids = Some y →
  ids !! i = Some b →
  ∃ v, y !! i = Some v ∧ x !! Z.to_nat b = Some v.
Proof.
  intros H Hi. apply mapM_Some_1 in H.
  destruct (Forall2_lookup_l _ _ _ _ _ H Hi) as (v & Hv & Hg).
  apply gather_lane_Some in Hg as [_ Hg]. eauto.
Qed.

(** Valid parent indices are always gathered. *)
Lemma tf_gather_valid x ids :
  Forall (λ b, 0 ≤ b < Z.of_nat (length x)) ids →
  is_Some (tf_gather x ids).
Proof.
  intros Hall. unfold tf_gather. apply mapM_is_Some.
  eapply List.Forall_impl; [|exact Hall]. intros b Hb. unfold compose. cbv beta in Hb.
  destruct (lookup_lt_is_Some_2 x (Z.to_nat b)) as [v Hv]; [lia|].
  exists v. apply gather_lane_Some. split; [lia | exact Hv].
Qed.

Lemma gather_states_lane (st st' : nest (Tensor A)) ids (i : nat) (b : Z) :
  gather_states st ids = Some st' →
  ids !! i = Some b →
  ∃ v, nest_lane i st' = Some v ∧ nest_lane (Z.to_nat b) st = Some v.
Proof.
  intros H Hi. revert st' H.
  induction st as [x|l IH] using nest_ind; intros st' H.
  - unfold gather_states in H. cbn in H.
    destruct (tf_gather x ids) as [y|] eqn:Hy; [|discriminate].
    injection H as <-.
    destruct (tf_gather_lookup _ _ _ _ _ Hy Hi) as (v & Hv & Hx).
    exists (Leaf v). unfold nest_lane. cbn. rewrite Hv, Hx. auto.
  - unfold gather_states in H. cbn in H.
    destruct (mapM _ l) as [l'|] eqn:Hl; [|discriminate].
    injection H as <-.
    apply mapM_Some_1 in Hl.
    unfold nest_lane in *.
    assert (∃ vs,
      mapM (map_structure_opt (λ x : Tensor A, x !! i)) l' = Some vs ∧
      mapM (map_structure_opt (λ x : Tensor A, x !! Z.to_nat b)) l = Some vs)
      as (vs & Hv1 & Hv2).
    { clear -IH Hl. induction Hl as [|n n' l l' Hn Hl IHl].
      - exists []. auto.
      - apply Forall_cons_1 in IH as [IHn IHrest].
        destruct (IHn n' Hn) as (v & Hv1 & Hv2).
        destruct (IHl IHrest) as (vs & Hvs1 & Hvs2).
        exists (v :: vs). cbn. rewrite Hv1, Hv2, Hvs1, Hvs2. auto. }
    exists (Seq vs). cbn. rewrite Hv1, Hv2. auto.
Qed.

End Gather.

(** ** The time counter *)

Lemma int32_wrap_small (z : Z) : 0 ≤ z < 2 ^ 31 → int32_wrap z = z.
Proof.
  intros Hz. unfold int32_wrap.
  rewrite Z.mod_small by lia. lia.
Qed.

Lemma int32_wrap_range (z : Z) : - 2 ^ 31 ≤ int32_wrap z < 2 ^ 31.
Proof.
  unfold int32_wrap.
  pose proof (Z.mod_pos_bound (z + 2 ^ 31) (2 ^ 32) ltac:(lia)). lia.
Qed.

Lemma int32_add_wrap (z : Z) :
  int32_add (int32_wrap z) 1 = int32_wrap (z + 1).
Proof.
  unfold int32_add, int32_wrap.
  replace ((z + 2 ^ 31) mod 2 ^ 32 - 2 ^ 31 + 1 + 2 ^ 31)
    with ((z + 2 ^ 31) mod 2 ^ 32 + 1) by lia.
  rewrite Zplus_mod_idemp_l. f_equal. f_equal. lia.
Qed.

(** ** The finished mask *)


Lemma logical_or_length (nf fin fin' : Tensor bool) :
  logical_or nf fin = Some fin' →
  (length fin' = length fin ∧ (length nf = length fin ∨ length nf = 1%nat))
  ∨ (length fin = 1%nat ∧ length fin' = length nf).
Proof.
  unfold logical_or. intros H.
  repeat case_bool_decide; simplify_eq;
    rewrite length_zip_with, ?length_replicate; lia.
Qed.

Lemma logical_or_lookup (nf fin fin' : Tensor bool) (i : nat) :
  logical_or nf fin = Some fin' →
  fin !! i = Some true → (i < length fin')%nat → fin' !! i = Some true.
Proof.
  unfold logical_or. intros H Hi Hlen.
  pose proof (lookup_lt_Some _ _ _ Hi) as Hi'.
  repeat case_bool_decide; simplify_eq;
    rewrite length_zip_with, ?length_replicate in Hlen;
    rewrite lookup_zip_with.
  - destruct (lookup_lt_is_Some_2 nf i) as [x Hx]; [lia|].
    rewrite Hx. cbn. rewrite Hi. cbn. by rewrite orb_true_r.
  - rewrite lookup_replicate_2 by lia. cbn. rewrite Hi. cbn.
    by rewrite orb_true_r.
  - destruct (lookup_lt_is_Some_2 nf i) as [x Hx]; [lia|].
    rewrite Hx. cbn. rewrite lookup_replicate_2 by lia. cbn.
    destruct fin as [|y [|]]; simplify_eq/=.
    destruct i; simplify_eq/=. by rewrite orb_true_r.
Qed.


(** ** Tensor arrays *)

Section TensorArrays.
Context {A : Type}.
Implicit Types ta : TensorArray A.

(** Writing a full array of [k] slots at the counter value of step [k]
    succeeds only while the counter has not wrapped, and appends. *)
Lemma ta_write_at_end ta ta' (vs : list A) (k : nat) (v : A) :
  ta_slots ta = Some <$> vs → length vs = k →
  ta_write ta (int32_wrap (Z.of_nat k)) v = Some ta' →
  Z.of_nat k < 2 ^ 31 ∧
  ta' = mkTA (ta_dtype ta) (ta_static_shape ta) (Some <$> (vs ++ [v])).
Proof.
  intros Hs Hk. unfold ta_write. case_bool_decide as Hneg; [discriminate|].
  rewrite Hs. rewrite list_lookup_fmap.
  destruct (decide (Z.of_nat k < 2 ^ 31)) as [Hlt|Hge].
  - rewrite int32_wrap_small by lia. rewrite Nat2Z.id.
    rewrite (lookup_ge_None_2 vs k) by lia. cbn.
    intros [= <-]. split; [done|]. f_equal.
    rewrite length_fmap, Hk, Nat.sub_diag. cbn.
    by rewrite fmap_app.
  - pose proof (int32_wrap_range (Z.of_nat k)).
    destruct (lookup_lt_is_Some_2 vs (Z.to_nat (int32_wrap (Z.of_nat k))))
      as [x Hx]; [lia|].
    rewrite Hx. discriminate.
Qed.

(** Stacking an array whose slots are all written succeeds when it has a
    slot, or a fully defined element shape. *)
Lemma ta_stack_dense ta (vs : list A) :
  ta_slots ta = Some <$> vs →
  vs ≠ [] ∨ ta_static_shape ta = true →
  ta_stack ta = Some vs.
Proof.
  intros Hs Hok. unfold ta_stack. rewrite Hs.
  destruct vs as [|v vs].
  - destruct Hok as [Hne|Hst]; [done|]. by rewrite Hst.
  - change (mapM id (Some <$> v :: vs) = Some (v :: vs)).
    by apply mapM_fmap_Some.
Qed.

Lemma ta_stack_Some ta (vs : list A) :
  ta_stack ta = Some vs → ta_slots ta = Some <$> vs.
Proof.
  unfold ta_stack. intros H. destruct (ta_slots ta) as [|x l] eqn:Hs.
  - destruct (ta_static_shape ta); [|discriminate]. by injection H as <-.
  - symmetry. eapply mapM_fmap_Some_inv; [exact H|]. by intros a b [= ->].
Qed.

(** An array never written is stacked only with a fully defined element
    shape. *)
Lemma ta_stack_empty ta (vs : list A) :
  ta_slots ta = [] → ta_stack ta = Some vs → ta_static_shape ta = true.
Proof.
  unfold ta_stack. intros ->. by destruct (ta_static_shape ta).
Qed.

End TensorArrays.

(** ** The calls in a log *)

Section CallLemmas.
Context {Row F : Type}.
Implicit Types tr : list (@event Row F).

Lemma step_calls_app tr1 tr2 :
  step_calls (tr1 ++ tr2) = step_calls tr1 ++ step_calls tr2.
Proof. apply omap_app. Qed.

Lemma postprocess_calls_app tr1 tr2 :
  postprocess_calls (tr1 ++ tr2)
  = postprocess_calls tr1 ++ postprocess_calls tr2.
Proof. apply omap_app. Qed.

Lemma remover_calls_app tr1 tr2 :
  remover_calls (tr1 ++ tr2) = remover_calls tr1 ++ remover_calls tr2.
Proof. apply omap_app. Qed.

Lemma write_calls_app tr1 tr2 :
  write_calls (tr1 ++ tr2) = write_calls tr1 ++ write_calls tr2.
Proof. apply omap_app. Qed.

Lemma stack_calls_app tr1 tr2 :
  stack_calls (tr1 ++ tr2) = stack_calls tr1 ++ stack_calls tr2.
Proof. apply omap_app. Qed.

Lemma omap_events_nil {B C} (g : B → @event Row F)
    (f : @event Row F → option C) (l : list B) :
  (∀ x, f (g x) = None) → omap f (g <$> l) = [].
Proof. intros H. induction l as [|x l IH]; cbn; [done|]. by rewrite H. Qed.

Lemma omap_events_all {B C} (g : B → @event Row F)
    (f : @event Row F → option C) (h : B → C) (l : list B) :
  (∀ x, f (g x) = Some (h x)) → omap f (g <$> l) = h <$> l.
Proof.
  intros H. induction l as [|x l IH]; cbn; [done|]. by rewrite H, IH.
Qed.

Lemma step_calls_other ev tr :
  other_call ev = true → step_calls (ev :: tr) = step_calls tr.
Proof. by destruct ev. Qed.

Lemma write_calls_other ev tr :
  other_call ev = true → write_calls (ev :: tr) = write_calls tr.
Proof. by destruct ev. Qed.

Lemma stack_calls_other ev tr :
  other_call ev = true → stack_calls (ev :: tr) = stack_calls tr.
Proof. by destruct ev. Qed.

Lemma remover_calls_other ev tr :
  other_call ev = true → remover_calls (ev :: tr) = remover_calls tr.
Proof. by destruct ev. Qed.

Lemma remover_calls_output_writes (l : list string) (t : Z) :
  remover_calls (@output_writes Row F l t) = [].
Proof. by apply omap_events_nil. Qed.

Lemma step_calls_output_writes (l : list string) (t : Z) :
  step_calls (@output_writes Row F l t) = [].
Proof. by apply omap_events_nil. Qed.

Lemma stack_calls_output_writes (l : list string) (t : Z) :
  stack_calls (@output_writes Row F l t) = [].
Proof. by apply omap_events_nil. Qed.

Lemma write_calls_output_writes (l : list string) (t : Z) :
  write_calls (@output_writes Row F l t) = (λ f, (OutputField f, t)) <$> l.
Proof. by apply omap_events_all. Qed.

End CallLemmas.

Ltac simpl_calls :=
  repeat first
    [ rewrite step_calls_app | rewrite postprocess_calls_app
    | rewrite remover_calls_app | rewrite write_calls_app
    | rewrite stack_calls_app ];
  unfold step_calls, postprocess_calls, remover_calls, write_calls,
    stack_calls;
  repeat first
    [ rewrite omap_events_nil by reflexivity
    | erewrite omap_events_all by reflexivity ];
  cbn [omap list_omap app fmap list_fmap].

(** ** Buffers of records *)

Section Buffers.
Context {Row F V : Type}.
Implicit Types tas : list (string * TensorArray V).
Implicit Types outs : list (string * V).

Lemma write_fields_Done (t : Z) tas outs tas' (trw : list (@event Row F)) :
  write_fields t tas outs = Done tas' trw →
  tas.*1 = outs.*1 ∧ tas'.*1 = tas.*1 ∧
  trw = output_writes tas.*1 t ∧
  ∀ (j : nat) f ta, tas !! j = Some (f, ta) →
    ∃ v ta', outs !! j = Some (f, v) ∧ ta_write ta t v = Some ta' ∧
             tas' !! j = Some (f, ta').
Proof.
  unfold write_fields. case_bool_decide as Hnames; [|discriminate].
  intros H. apply bind_Done_inv in H as (x & tr1 & tr2 & Hm & H & ->).
  apply require_Done in Hm as [Hm ->].
  apply bind_Done_inv in H as ([] & tr3 & tr4 & He & H & ->).
  unfold emit in He. injection He as <-.
  unfold ret in H. injection H as <- <-.
  apply mapM_Some_1 in Hm.
  assert (Hlen : length tas = length outs).
  { rewrite <- (length_fmap fst tas), Hnames. apply length_fmap. }
  assert (Hpos : ∀ (j : nat) f ta, tas !! j = Some (f, ta) →
    ∃ v ta', outs !! j = Some (f, v) ∧ ta_write ta t v = Some ta' ∧
             x !! j = Some (f, ta')).
  { intros j f ta Hj.
    destruct (lookup_lt_is_Some_2 outs j) as [[g v] Hv].
    { rewrite <- Hlen. eapply lookup_lt_Some; eauto. }
    assert (g = f) as ->.
    { assert (outs.*1 !! j = Some g) as Hg
        by (rewrite list_lookup_fmap, Hv; done).
      rewrite <- Hnames, list_lookup_fmap, Hj in Hg. by injection Hg. }
    assert (zip tas outs !! j = Some ((f, ta), (f, v))) as Hz.
    { rewrite (lookup_zip_with pair tas outs j), Hj. cbn. by rewrite Hv. }
    destruct (Forall2_lookup_l _ _ _ _ _ Hm Hz) as (y & Hy & Hw).
    cbn in Hw. destruct (ta_write ta t v) as [ta'|] eqn:Hwr; [|discriminate].
    injection Hw as <-. by exists v, ta'. }
  split_and!; [done| |by rewrite app_nil_r|done].
  apply list_eq. intros j. rewrite !list_lookup_fmap.
  destruct (tas !! j) as [[f ta]|] eqn:Hj.
  - destruct (Hpos j f ta Hj) as (v & ta' & _ & _ & ->). done.
  - apply lookup_ge_None in Hj. apply Forall2_length in Hm.
    rewrite length_zip_with in Hm.
    rewrite (lookup_ge_None_2 x j) by lia. done.
Qed.

Lemma stack_fields_Done tas (res : list (string * list V))
    (tr : list (@event Row F)) :
  stack_fields tas = Done res tr →
  res.*1 = tas.*1 ∧ tr = (λ f, EvStack (OutputField f)) <$> tas.*1 ∧
  ∀ (j : nat) f vs, res !! j = Some (f, vs) →
    ∃ ta, tas !! j = Some (f, ta) ∧ ta_slots ta = Some <$> vs.
Proof.
  unfold stack_fields. intros H.
  apply bind_Done_inv in H as (x & tr1 & tr2 & Hm & H & ->).
  apply require_Done in Hm as [Hm ->].
  apply bind_Done_inv in H as ([] & tr3 & tr4 & He & H & ->).
  unfold emit in He. injection He as <-.
  unfold ret in H. injection H as <- <-.
  apply mapM_Some_1 in Hm.
  assert (Hpos : ∀ (j : nat) f vs, x !! j = Some (f, vs) →
    ∃ ta, tas !! j = Some (f, ta) ∧ ta_slots ta = Some <$> vs).
  { intros j f vs Hj.
    destruct (Forall2_lookup_r _ _ _ _ _ Hm Hj) as ([g ta] & Hta & Hs).
    cbn in Hs. destruct (ta_stack ta) as [vs'|] eqn:Hst; [|discriminate].
    injection Hs as <- <-. exists ta. split; [done|].
    by apply ta_stack_Some. }
  split_and!; [|by rewrite app_nil_r|done].
  apply list_eq. intros j. rewrite !list_lookup_fmap.
  destruct (x !! j) as [[f vs]|] eqn:Hj.
  - destruct (Hpos j f vs Hj) as (ta & -> & _). done.
  - apply lookup_ge_None in Hj. apply Forall2_length in Hm.
    rewrite (lookup_ge_None_2 tas j) by lia. done.
Qed.

(** Every array of a record that was stacked could be stacked. *)
Lemma stack_fields_stacked tas (res : list (string * list V))
    (tr : list (@event Row F)) (j : nat) f ta :
  stack_fields tas = Done res tr → tas !! j = Some (f, ta) →
  is_Some (ta_stack ta).
Proof.
  unfold stack_fields. intros H Hj.
  apply bind_Done_inv in H as (x & tr1 & tr2 & Hm & _ & _).
  apply require_Done in Hm as [Hm _].
  apply mapM_Some_1 in Hm.
  destruct (Forall2_lookup_l _ _ _ _ _ Hm Hj) as ([g vs] & _ & Hs).
  cbn in Hs. destruct (ta_stack ta); [by eexists|discriminate].
Qed.

(** Stacking succeeds on arrays without holes that have a slot or a fully
    defined element shape. *)
Lemma stack_fields_dense tas :
  (∀ (j : nat) f ta, tas !! j = Some (f, ta) →
     ∃ vs, ta_slots ta = Some <$> vs ∧
           (vs ≠ [] ∨ ta_static_shape ta = true)) →
  ∃ res, @stack_fields Row F V tas
         = Done res ((λ f, EvStack (OutputField f)) <$> tas.*1).
Proof.
  intros Hd. unfold stack_fields.
  assert (is_Some (mapM (λ p : string * TensorArray V,
                           (λ vs, (p.1, vs)) <$> ta_stack p.2) tas))
    as [res Hres].
  { apply mapM_is_Some. apply Forall_lookup. intros j [f ta] Hj.
    destruct (Hd j f ta Hj) as (vs & Hvs & Hok). unfold compose. cbn.
    rewrite (ta_stack_dense _ _ Hvs Hok). by eexists. }
  exists res. rewrite Hres. cbn. by rewrite app_nil_r.
Qed.

End Buffers.

Section StatusBuffers.
Context {Row F : Type}.

Lemma write_status_Done (t : Z) tas st tas' (trs : list (@event Row F)) :
  write_status t tas st = Done tas' trs →
  trs = status_writes t ∧
  ta_write (log_probs tas) t (log_probs st) = Some (log_probs tas') ∧
  ta_write (predicted_ids tas) t (predicted_ids st)
    = Some (predicted_ids tas') ∧
  ta_write (beam_ids tas) t (beam_ids st) = Some (beam_ids tas') ∧
  ta_write (lengths tas) t (lengths st) = Some (lengths tas').
Proof.
  unfold write_status. intros H.
  apply bind_Done_inv in H as (x & tr1 & tr2 & Hm & H & ->).
  apply require_Done in Hm as [Hm ->].
  apply bind_Done_inv in H as ([] & tr3 & tr4 & He & H & ->).
  unfold emit in He. injection He as <-.
  unfold ret in H. injection H as <- <-.
  destruct (ta_write (log_probs tas) _ _); [|discriminate].
  destruct (ta_write (predicted_ids tas) _ _); [|discriminate].
  destruct (ta_write (beam_ids tas) _ _); [|discriminate].
  destruct (ta_write (lengths tas) _ _); [|discriminate].
  cbn in Hm. injection Hm as <-. done.
Qed.

End StatusBuffers.

(** ** One execution of the loop body *)

Ltac bind_inv H :=
  let a := fresh "a" in
  let tr1 := fresh "tr" in
  let tr2 := fresh "tr" in
  let H1 := fresh "Hm" in
  let H3 := fresh "Htr" in
  apply bind_Done_inv in H as (a & tr1 & tr2 & H1 & H & H3);
  lazymatch type of H1 with
  | require _ _ = _ => apply require_Done in H1 as [H1 ->]
  | call _ _ = _ => unfold call in H1; injection H1 as <- <-
  | ret _ = _ => unfold ret in H1; injection H1 as <- <-
  | _ => idtac
  end.

Section Body.
Context {Row Top Logit F EncoderOutput Bridge : Type}.
Variable decoder : @Decoder Row Top Logit F EncoderOutput Bridge.
Variable helper : @Feedback Logit F.
Variable target_modality : @Modality Row Top Logit.
Variable rem : DecoderOutputRemover.
Variable pre : Z → Tensor Row → Tensor Row.
Variable post : option (Tensor Row) → Tensor Row → Tensor Row.
Variable params : nest (Tensor Row).

#[local] Abbreviation body :=
  (body_traininfer decoder helper target_modality rem pre post params).
#[local] Abbreviation output_writes := (@output_writes Row F).
#[local] Abbreviation status_writes := (@status_writes Row F).
#[local] Abbreviation inputs_of := (step_inputs pre).
#[local] Abbreviation result_of := (step_result decoder pre params).
#[local] Abbreviation sample_of := (step_sample decoder helper target_modality pre params).

Lemma body_infer_inv (s s' : @LoopVars Row F) tr :
  is_infer (mode decoder) = true →
  body s = Done s' tr →
  ∃ a outs' st' prev ista fin',
    args s = Some a ∧
    write_fields (time s) (outputs_ta s) (remover_apply rem (result_of s).1)
      = Done outs' (output_writes (outputs_ta s).*1 (time s)) ∧
    gather_states (result_of s).2 (sample_of s a).1.1.2 = Some st' ∧
    tf_gather (inputs_of s) (sample_of s a).1.1.2 = Some prev ∧
    write_status (time s) (arg_infer_status_ta a)
      (mkBeamSearchStateSpec (sample_of s a).1.2 (sample_of s a).1.1.1
         (sample_of s a).1.1.2 (sample_of s a).2)
      = Done ista (status_writes (time s)) ∧
    logical_or (next_symbols helper (time s) (Some (sample_of s a).1.1.1)).1
      (finished s) = Some fin' ∧
    let emb :=
      _embed_words target_modality
        (next_symbols helper (time s) (Some (sample_of s a).1.1.1)).2
        (int32_add (time s) 1) in
    s' = mkLoopVars (int32_add (time s) 1) (post (Some prev) emb) st' outs'
           fin' (Some (mkInferArgs (sample_of s a).1.2 (sample_of s a).2 ista))
    ∧ tr = [EvPreprocess (time s) (inputs s);
            EvStep (inputs_of s) (decoder_states s)]
           ++ output_writes (outputs_ta s).*1 (time s)
           ++ [EvSample (time s) (arg_log_probs a) (finished s)
                 (arg_lengths a)] ++ status_writes (time s)
           ++ [EvNext (time s) (Some (sample_of s a).1.1.1);
               EvPostprocess (Some prev) emb].
Proof.
  intros Hinf H. unfold body_traininfer in H. rewrite Hinf in H.
  bind_inv H. bind_inv H.
  unfold step_sample, step_result, step_inputs.
  destruct (step decoder _ _ _) as [outputs nst]. cbn [fst snd].
  bind_inv H. rename Hm into Hw. bind_inv H. rename Hm into Hi.
  destruct (args s) as [ia|]; [|discriminate].
  bind_inv Hi.
  destruct (sample_symbols _ _ _ _ _ _) as [[[sids bids] nlp] nl] eqn:Hsamp.
  cbn [fst snd].
  bind_inv Hi. bind_inv Hi. bind_inv Hi. rename Hm1 into Hs.
  unfold ret in Hi. injection Hi as <- <-.
  bind_inv H.
  destruct (next_symbols helper _ _) as [nf nsyms] eqn:Hnext. cbn [fst snd].
  bind_inv H. bind_inv H. rename Hm1 into Hor.
  unfold ret in H. injection H as <- <-.
  subst. exists ia. rewrite Hsamp. cbn [fst snd]. rewrite Hnext.
  cbn [fst snd].
  pose proof (write_fields_Done _ _ _ _ _ Hw) as (_ & _ & -> & _).
  pose proof (write_status_Done _ _ _ _ _ Hs) as (-> & _).
  do 5 eexists.
  split_and!; first [eassumption | reflexivity].
Qed.

Lemma body_train_inv (s s' : @LoopVars Row F) tr :
  is_infer (mode decoder) = false →
  body s = Done s' tr →
  ∃ outs' fin',
    write_fields (time s) (outputs_ta s) (remover_apply rem (result_of s).1)
      = Done outs' (output_writes (outputs_ta s).*1 (time s)) ∧
    logical_or (next_symbols helper (time s) None).1 (finished s)
      = Some fin' ∧
    let emb :=
      _embed_words target_modality (next_symbols helper (time s) None).2
        (int32_add (time s) 1) in
    s' = mkLoopVars (int32_add (time s) 1) (post (Some (inputs_of s)) emb)
           (result_of s).2 outs' fin' None
    ∧ tr = [EvPreprocess (time s) (inputs s);
            EvStep (inputs_of s) (decoder_states s)]
           ++ output_writes (outputs_ta s).*1 (time s)
           ++ [EvNext (time s) None;
               EvPostprocess (Some (inputs_of s)) emb].
Proof.
  intros Hinf H. unfold body_traininfer in H. rewrite Hinf in H.
  bind_inv H. bind_inv H.
  unfold step_result, step_inputs.
  destruct (step decoder _ _ _) as [outputs nst]. cbn [fst snd].
  bind_inv H. rename Hm into Hw. bind_inv H.
  bind_inv H.
  destruct (next_symbols helper _ _) as [nf nsyms] eqn:Hnext. cbn [fst snd].
  bind_inv H. bind_inv H. rename Hm into Hor.
  unfold ret in H. injection H as <- <-.
  subst. rewrite ?Hnext. cbn [fst snd].
  pose proof (write_fields_Done _ _ _ _ _ Hw) as (_ & _ & -> & _).
  do 2 eexists.
  split_and!; first [eassumption | reflexivity].
Qed.

(** C1. In inference the driver gathers both the new decoder state and the
    input that produced this step by the [beam_ids] the helper returned: the
    new carried state and the pending input handed to the post-processing hook
    are these two gathers, so lane [i] of either is lane [beam_ids[i]] of the
    value before the reorder; with [beam_ids = [1; 0]] lanes 0 and 1 are
    exchanged. *)
Theorem beam_reorder_state_and_input (s s' : @LoopVars Row F) tr :
  is_infer (mode decoder) = true →
  body s = Done s' tr →
  ∃ a prev,
    args s = Some a ∧
    gather_states (result_of s).2 (sample_of s a).1.1.2
      = Some (decoder_states s') ∧
    tf_gather (inputs_of s) (sample_of s a).1.1.2 = Some prev ∧
    (postprocess_calls tr).*1 = [Some prev] ∧
    (∀ (i : nat) (b : Z),
       (sample_of s a).1.1.2 !! i = Some b →
       (∃ v, nest_lane i (decoder_states s') = Some v ∧
             nest_lane (Z.to_nat b) (result_of s).2 = Some v) ∧
       (∃ v, prev !! i = Some v ∧ inputs_of s !! Z.to_nat b = Some v)) ∧
    ((sample_of s a).1.1.2 = [1; 0] →
       (∃ v, nest_lane 0 (decoder_states s') = Some v ∧
             nest_lane 1 (result_of s).2 = Some v) ∧
       (∃ v, nest_lane 1 (decoder_states s') = Some v ∧
             nest_lane 0 (result_of s).2 = Some v) ∧
       (∃ v, prev !! 0%nat = Some v ∧ inputs_of s !! 1%nat = Some v) ∧
       (∃ v, prev !! 1%nat = Some v ∧ inputs_of s !! 0%nat = Some v)).
Proof.
  intros Hinf H.
  destruct (body_infer_inv s s' tr Hinf H)
    as (a & outs' & st' & prev & ista & fin' & Ha & Hw & Hst
        & Hprev & Hs & Hor & Hs' & Htr).
  assert (Hlanes : ∀ (i : nat) (b : Z),
    (sample_of s a).1.1.2 !! i = Some b →
    (∃ v, nest_lane i (decoder_states s') = Some v ∧
          nest_lane (Z.to_nat b) (result_of s).2 = Some v) ∧
    (∃ v, prev !! i = Some v ∧ inputs_of s !! Z.to_nat b = Some v)).
  { intros i b Hi. split.
    - rewrite Hs'. cbn [decoder_states].
      exact (gather_states_lane _ _ _ _ _ Hst Hi).
    - exact (tf_gather_lookup _ _ _ _ _ Hprev Hi). }
  exists a, prev. split_and!; try assumption.
  - rewrite Hs'. exact Hst.
  - rewrite Htr. unfold output_writes, status_writes. simpl_calls.
    reflexivity.
  - intros Hids.
    pose proof (Hlanes 0%nat 1) as H0. pose proof (Hlanes 1%nat 0) as H1.
    rewrite Hids in H0, H1. specialize (H0 eq_refl). specialize (H1 eq_refl).
    change (Z.to_nat 1) with 1%nat in H0.
    change (Z.to_nat 0) with 0%nat in H1.
    destruct H0 as [? ?], H1 as [? ?]. auto.
Qed.

(** C7, amended.  The post-processing hook is called once per execution of
    the loop body.  Its second argument is the raw embedding of the next
    input symbols at time + 1.  Its first argument is the input the
    transition call of this execution consumed: the carried input after the
    pre-processing hook, and in inference that tensor gathered by [beam_ids].
    The result of the hook is the input carried into the next execution,
    whose transition call receives it through the pre-processing hook.  When
    the pre-processing hook is the identity and the mode is not inference,
    the first argument is the carried input itself. *)
Theorem postprocess_hook_arguments (s s' : @LoopVars Row F) tr :
  body s = Done s' tr →
  ∃ prev sample_ids,
    let predicted :=
      _embed_words target_modality
        (next_symbols helper (time s) sample_ids).2 (int32_add (time s) 1) in
    postprocess_calls tr = [(Some prev, predicted)] ∧
    step_calls tr = [(inputs_of s, decoder_states s)] ∧
    inputs s' = post (Some prev) predicted ∧
    time s' = int32_add (time s) 1 ∧
    (is_infer (mode decoder) = false → prev = inputs_of s) ∧
    (is_infer (mode decoder) = true →
       ∃ a, args s = Some a ∧
            tf_gather (inputs_of s) (sample_of s a).1.1.2 = Some prev) ∧
    (∀ s'' tr', body s' = Done s'' tr' →
       step_calls tr' = [(pre (time s') (inputs s'), decoder_states s')]) ∧
    (is_infer (mode decoder) = false → (∀ t x, pre t x = x) →
       hook_receives_carried_input s tr).
Proof.
  assert (Hstep : ∀ (u u' : @LoopVars Row F) tru, body u = Done u' tru →
    step_calls tru = [(inputs_of u, decoder_states u)]).
  { intros u u' tru Hu. destruct (is_infer (mode decoder)) eqn:Hinf.
    - destruct (body_infer_inv u u' tru Hinf Hu)
        as (a & outs' & st' & prev & ista & fin' & _ & _ & _ & _ & _ & _ & _
            & ->).
      unfold output_writes, status_writes. simpl_calls. reflexivity.
    - destruct (body_train_inv u u' tru Hinf Hu)
        as (outs' & fin' & _ & _ & _ & ->).
      unfold output_writes. simpl_calls. reflexivity. }
  intros H. pose proof (Hstep _ _ _ H) as Hst.
  destruct (is_infer (mode decoder)) eqn:Hinf.
  - destruct (body_infer_inv s s' tr Hinf H)
      as (a & outs' & st' & prev & ista & fin' & Ha & _ & _ & Hprev & _ & _
          & Hs' & Htr).
    exists prev, (Some (sample_of s a).1.1.1). cbv zeta.
    split_and!; try done.
    + rewrite Htr. unfold output_writes, status_writes. simpl_calls.
      reflexivity.
    + by rewrite Hs'.
    + by rewrite Hs'.
    + intros _. by exists a.
    + intros s'' tr' H'. exact (Hstep _ _ _ H').
  - destruct (body_train_inv s s' tr Hinf H)
      as (outs' & fin' & _ & _ & Hs' & Htr).
    exists (inputs_of s), None. cbv zeta.
    split_and!; try done.
    + rewrite Htr. unfold output_writes. simpl_calls. reflexivity.
    + by rewrite Hs'.
    + by rewrite Hs'.
    + intros s'' tr' H'. exact (Hstep _ _ _ H').
    + intros _ Hpre. unfold hook_receives_carried_input. rewrite Htr.
      unfold output_writes. simpl_calls. cbn. unfold step_inputs.
      by rewrite Hpre.
Qed.

(** The inference variables after one execution of the body. *)
Lemma body_infer_args (s s' : @LoopVars Row F) tr :
  is_infer (mode decoder) = true →
  body s = Done s' tr →
  ∃ a a',
    args s = Some a ∧ args s' = Some a' ∧
    arg_log_probs a' = (sample_of s a).1.2 ∧
    arg_lengths a' = (sample_of s a).2 ∧
    gather_states (result_of s).2 (sample_of s a).1.1.2
      = Some (decoder_states s').
Proof.
  intros Hinf H.
  destruct (body_infer_inv s s' tr Hinf H)
    as (a & outs' & st' & prev & ista & fin' & Ha & _ & Hst & _ & _ & _
        & Hs' & _).
  exists a. rewrite Hs'. cbn [args decoder_states].
  eexists. split_and!; done.
Qed.

(** C10.  In inference the log-probabilities and the lengths carried into the
    next iteration are the ones [helper.sample_symbols] returned for this
    step, as they are: the driver gathers the decoder state by [beam_ids] but
    neither gathers nor changes these two. *)
Theorem log_probs_lengths_carried_verbatim (s s' : @LoopVars Row F) tr :
  is_infer (mode decoder) = true →
  body s = Done s' tr →
  ∃ a a',
    args s = Some a ∧ args s' = Some a' ∧
    arg_log_probs a' = (sample_of s a).1.2 ∧
    arg_lengths a' = (sample_of s a).2 ∧
    gather_states (result_of s).2 (sample_of s a).1.1.2
      = Some (decoder_states s').
Proof. exact (body_infer_args s s' tr). Qed.

End Body.

(** ** Runs of the loop *)

Section Loops.
Context {Row F S : Type}.
Implicit Types body : S → @outcome Row F S.
Implicit Types cond : S → bool.

Lemma iterate_S_r (k : nat) body (s : S) :
  iterate (Datatypes.S k) body s = bind (iterate k body s) body.
Proof.
  revert s. induction k as [|k IH]; intros s.
  - cbn [iterate]. by rewrite bind_ret_l, bind_ret_r.
  - change (iterate (Datatypes.S (Datatypes.S k)) body s)
      with (bind (body s) (iterate (Datatypes.S k) body)).
    change (iterate (Datatypes.S k) body s)
      with (bind (body s) (iterate k body)).
    rewrite bind_assoc. destruct (body s) as [s1 tr1| |]; [|done..].
    cbn [bind]. by rewrite IH.
Qed.

Lemma iterate_S_Done (k : nat) body (s s' : S) tr :
  iterate (Datatypes.S k) body s = Done s' tr →
  ∃ s1 tr1 tr2,
    iterate k body s = Done s1 tr1 ∧ body s1 = Done s' tr2 ∧ tr = tr1 ++ tr2.
Proof. rewrite iterate_S_r. apply bind_Done_inv. Qed.

Lemma iterate_prefix (j k : nat) body (s s' : S) tr :
  (j ≤ k)%nat → iterate k body s = Done s' tr →
  ∃ sj trj, iterate j body s = Done sj trj.
Proof.
  intros Hjk. induction Hjk as [|k Hjk IH] in s', tr |- *; [eauto|].
  intros H. apply iterate_S_Done in H as (s1 & tr1 & _ & H & _). eauto.
Qed.

(** The loop returns exactly when some run of [k ≤ fuel] body executions
    reaches a state where the condition is false, the condition being true at
    every state before. *)
Lemma while_loop_Done (fuel : nat) cond body (s s' : S) tr :
  while_loop fuel cond body s = Done s' tr ↔
  ∃ k, (k ≤ fuel)%nat ∧ iterate k body s = Done s' tr ∧ cond s' = false ∧
       ∀ j sj trj, (j < k)%nat → iterate j body s = Done sj trj →
                   cond sj = true.
Proof.
  split.
  - revert s tr. induction fuel as [|fuel IH]; intros s tr H.
    + cbn in H. destruct (cond s) eqn:Hc; [discriminate|].
      unfold ret in H. injection H as <- <-. exists 0%nat.
      split_and!; [lia|done|done|intros; lia].
    + cbn [while_loop] in H. destruct (cond s) eqn:Hc.
      * apply bind_Done_inv in H as (s1 & tr1 & tr2 & Hb & H & ->).
        apply IH in H as (k & Hk & Hit & Hc' & Hbefore).
        exists (Datatypes.S k). split_and!; [lia| |done|].
        -- cbn [iterate]. rewrite Hb. cbn [bind]. by rewrite Hit.
        -- intros [|j] sj trj Hj Hsj.
           ++ cbn in Hsj. unfold ret in Hsj. by injection Hsj as <- <-.
           ++ cbn [iterate] in Hsj. rewrite Hb in Hsj.
              apply bind_Done_inv in Hsj as (? & ? & ? & [= <- <-] & Hsj & _).
              eapply Hbefore; [|exact Hsj]. lia.
      * unfold ret in H. injection H as <- <-. exists 0%nat.
        split_and!; [lia|done|done|intros; lia].
  - intros (k & Hk & Hit & Hc' & Hbefore).
    revert s tr k Hk Hit Hbefore.
    induction fuel as [|fuel IH]; intros s tr k Hk Hit Hbefore.
    + assert (k = 0%nat) as -> by lia. cbn in Hit. unfold ret in Hit.
      injection Hit as <- <-. cbn. by rewrite Hc'.
    + destruct k as [|k].
      * cbn in Hit. unfold ret in Hit. injection Hit as <- <-.
        cbn. by rewrite Hc'.
      * cbn [while_loop].
        rewrite (Hbefore 0%nat s [] ltac:(lia) eq_refl).
        cbn [iterate] in Hit.
        apply bind_Done_inv in Hit as (s1 & tr1 & tr2 & Hb & Hit & ->).
        rewrite Hb. cbn [bind].
        rewrite (IH s1 tr2 k ltac:(lia) Hit); [done|].
        intros j sj trj Hj Hsj.
        apply (Hbefore (Datatypes.S j) sj (tr1 ++ trj) ltac:(lia)).
        cbn [iterate]. rewrite Hb. cbn [bind]. by rewrite Hsj.
Qed.


(** A loop whose condition holds at every state it reaches returns for no
    amount of fuel. *)
Lemma while_loop_never (fuel : nat) cond body (s s' : S) tr :
  (∀ k sk trk, iterate k body s = Done sk trk → cond sk = true) →
  while_loop fuel cond body s ≠ Done s' tr.
Proof.
  intros Hall H. apply while_loop_Done in H as (k & _ & Hit & Hc & _).
  rewrite (Hall _ _ _ Hit) in Hc. discriminate.
Qed.

(** A loop whose first condition is false runs no body. *)
Lemma while_loop_skip (fuel : nat) cond body (s : S) :
  cond s = false → while_loop fuel cond body s = Done s [].
Proof. intros Hc. destruct fuel; cbn; by rewrite Hc. Qed.

End Loops.

(** ** The finished mask along a run *)

Section Mask.
Context {Row Top Logit F EncoderOutput Bridge : Type}.
Variable decoder : @Decoder Row Top Logit F EncoderOutput Bridge.
Variable helper : @Feedback Logit F.
Variable target_modality : @Modality Row Top Logit.
Variable rem : DecoderOutputRemover.
Variable pre : Z → Tensor Row → Tensor Row.
Variable post : option (Tensor Row) → Tensor Row → Tensor Row.
Variable params : nest (Tensor Row).

#[local] Abbreviation body :=
  (body_traininfer decoder helper target_modality rem pre post params).

Lemma body_finished (s s' : @LoopVars Row F) tr :
  body s = Done s' tr →
  ∃ sample_ids,
    logical_or (next_symbols helper (time s) sample_ids).1 (finished s)
    = Some (finished s') ∧
    (is_infer (mode decoder) = false → sample_ids = None).
Proof.
  intros H. destruct (is_infer (mode decoder)) eqn:Hinf.
  - destruct (body_infer_inv _ _ _ _ _ _ _ s s' tr Hinf H)
      as (a & outs' & st' & prev & ista & fin' & _ & _ & _ & _ & _ & Hor
          & -> & _).
    eexists. split; [exact Hor|done].
  - destruct (body_train_inv _ _ _ _ _ _ _ s s' tr Hinf H)
      as (outs' & fin' & _ & Hor & -> & _).
    eexists. split; [exact Hor|done].
Qed.

Lemma body_time (s s' : @LoopVars Row F) tr :
  body s = Done s' tr → time s' = int32_add (time s) 1.
Proof.
  intros H. destruct (is_infer (mode decoder)) eqn:Hinf.
  - destruct (body_infer_inv _ _ _ _ _ _ _ s s' tr Hinf H)
      as (a & outs' & st' & prev & ista & fin' & _ & _ & _ & _ & _ & _
          & -> & _). done.
  - destruct (body_train_inv _ _ _ _ _ _ _ s s' tr Hinf H)
      as (outs' & fin' & _ & _ & -> & _). done.
Qed.

Lemma iterate_time (k : nat) (z : Z) (s s' : @LoopVars Row F) tr :
  time s = int32_wrap z →
  iterate k body s = Done s' tr →
  time s' = int32_wrap (z + Z.of_nat k).
Proof.
  intros Hz. revert s' tr. induction k as [|k IH]; intros s' tr H.
  - cbn in H. unfold ret in H. injection H as <- _.
    by rewrite Z.add_0_r.
  - apply iterate_S_Done in H as (s1 & tr1 & tr2 & Hk & Hb & _).
    rewrite (body_time _ _ _ Hb), (IH _ _ Hk), int32_add_wrap.
    f_equal. lia.
Qed.

(** The mask after any number of steps keeps every lane that was true, as
    long as the lane is still there; a shorter mask is an empty one. *)
Lemma iterate_finished (k : nat) (s s' : @LoopVars Row F) tr :
  iterate k body s = Done s' tr →
  (∀ i : nat, finished s !! i = Some true →
     (i < length (finished s'))%nat → finished s' !! i = Some true) ∧
  ((length (finished s') < length (finished s))%nat →
     length (finished s') = 0%nat).
Proof.
  revert s' tr. induction k as [|k IH]; intros s' tr H.
  - cbn in H. unfold ret in H. injection H as <- _. split; [done|lia].
  - apply iterate_S_Done in H as (s1 & tr1 & tr2 & Hk & Hb & _).
    destruct (IH _ _ Hk) as [IH1 IH2].
    apply body_finished in Hb as (sids & Hor & _).
    pose proof (logical_or_length _ _ _ Hor) as Hlen.
    split.
    + intros i Hi Hlt.
      destruct (decide (i < length (finished s1))%nat) as [Hi1|Hi1].
      * eapply logical_or_lookup; [exact Hor|by apply IH1|done].
      * apply lookup_lt_Some in Hi. lia.
    + lia.
Qed.

(** C2.  Each execution of the body sets the finished mask to the logical OR
    of the mask the helper reports with the previous mask.  Hence along any
    run of the loop body a lane whose flag is true stays true at every later
    step, for as long as the mask has that lane; and the mask keeps its lanes
    when the helper's masks have the lane count of the mask the run starts
    with. *)
Theorem finished_mask_monotonic (k : nat) (s s' : @LoopVars Row F) tr :
  iterate k body s = Done s' tr →
  (∀ i : nat, finished s !! i = Some true →
     (i < length (finished s'))%nat → finished s' !! i = Some true) ∧
  ((∀ t sample_ids,
      length (next_symbols helper t sample_ids).1 = length (finished s)) →
   length (finished s') = length (finished s) ∧
   ∀ i : nat, finished s !! i = Some true → finished s' !! i = Some true) ∧
  (∀ s'' tr', body s' = Done s'' tr' →
     ∃ sample_ids,
       logical_or (next_symbols helper (time s') sample_ids).1 (finished s')
       = Some (finished s'')).
Proof.
  intros H. pose proof (iterate_finished _ _ _ _ H) as [Hmono _].
  split; [done|]. split.
  - intros Hlanes.
    assert (Hlen : length (finished s') = length (finished s)).
    { clear Hmono. revert s' tr H. induction k as [|k IH]; intros s' tr H.
      - cbn in H. unfold ret in H. by injection H as <- _.
      - apply iterate_S_Done in H as (s1 & tr1 & tr2 & Hk & Hb & _).
        specialize (IH _ _ Hk).
        apply body_finished in Hb as (sids & Hor & _).
        pose proof (logical_or_length _ _ _ Hor) as Hl.
        specialize (Hlanes (time s1) sids). lia. }
    split; [done|]. intros i Hi. apply Hmono; [done|].
    rewrite Hlen. by eapply lookup_lt_Some.
  - intros s'' tr' Hb. apply body_finished in Hb as (sids & Hor & _). eauto.
Qed.

End Mask.

(** ** Buffers along a run *)

Section DenseBuffers.
Context {Row F : Type}.

Lemma dense_create {A} (b : bool) (d : DType) : dense 0 (@_create_ta A b d).
Proof. by exists []. Qed.

Lemma dense_write {A} (k : nat) (ta ta' : TensorArray A) (v : A) :
  dense k ta → ta_write ta (int32_wrap (Z.of_nat k)) v = Some ta' →
  Z.of_nat k < 2 ^ 31 ∧ dense (Datatypes.S k) ta'.
Proof.
  intros (vs & Hs & Hlen) Hw.
  destruct (ta_write_at_end _ _ _ _ _ Hs Hlen Hw) as [Hk ->].
  split; [done|]. exists (vs ++ [v]). split; [done|].
  rewrite length_app. cbn. lia.
Qed.

Lemma dense_stack {A} (k : nat) (ta : TensorArray A) :
  dense k ta → (0 < k)%nat ∨ ta_static_shape ta = true →
  ∃ vs, ta_stack ta = Some vs ∧ length vs = k.
Proof.
  intros (vs & Hs & Hlen) Hok. exists vs. split; [|done].
  apply ta_stack_dense; [done|].
  destruct Hok as [Hk|Hst]; [left|by right].
  intros ->. cbn in Hlen. lia.
Qed.

(** Writing one more step into buffers that hold [k] steps. *)
Lemma write_fields_dense {V} (k : nat)
    (tas tas' : list (string * TensorArray V)) (outs : list (string * V))
    (trw : list (@event Row F)) :
  (∀ (j : nat) f ta, tas !! j = Some (f, ta) → dense k ta) →
  write_fields (int32_wrap (Z.of_nat k)) tas outs = Done tas' trw →
  (tas ≠ [] → Z.of_nat k < 2 ^ 31) ∧
  ∀ (j : nat) f ta', tas' !! j = Some (f, ta') →
    ∃ ta v vs, tas !! j = Some (f, ta) ∧ outs !! j = Some (f, v) ∧
               ta_slots ta = Some <$> vs ∧ length vs = k ∧
               ta_slots ta' = Some <$> (vs ++ [v]).
Proof.
  intros Hd H.
  apply write_fields_Done in H as (Hnames & Hnames' & _ & Hpos).
  split.
  - destruct tas as [|[f ta] tas]; [done|]. intros _.
    destruct (Hpos 0%nat f ta eq_refl) as (v & ta' & _ & Hw & _).
    by destruct (dense_write k ta ta' v (Hd 0%nat f ta eq_refl) Hw).
  - intros j f ta' Hj.
    assert (tas'.*1 !! j = Some f) as Hf
      by (by rewrite list_lookup_fmap, Hj).
    rewrite Hnames', list_lookup_fmap in Hf.
    destruct (tas !! j) as [[g ta]|] eqn:Hta; [|done].
    cbn in Hf. injection Hf as ->.
    destruct (Hpos j f ta Hta) as (v & ta'' & Hv & Hw & Hj').
    rewrite Hj in Hj'. injection Hj' as <-.
    destruct (Hd j f ta Hta) as (vs & Hs & Hlen).
    destruct (ta_write_at_end _ _ _ _ _ Hs Hlen Hw) as [_ ->].
    by exists ta, v, vs.
Qed.

Lemma write_status_dense (k : nat)
    (tas tas' : BeamSearchStateSpec (TensorArray (Tensor F))
                  (TensorArray (Tensor Z)))
    (st : BeamSearchStateSpec (Tensor F) (Tensor Z))
    (trs : list (@event Row F)) :
  dense k (log_probs tas) → dense k (predicted_ids tas) →
  dense k (beam_ids tas) → dense k (lengths tas) →
  write_status (int32_wrap (Z.of_nat k)) tas st = Done tas' trs →
  Z.of_nat k < 2 ^ 31 ∧
  dense (Datatypes.S k) (log_probs tas') ∧
  dense (Datatypes.S k) (predicted_ids tas') ∧
  dense (Datatypes.S k) (beam_ids tas') ∧
  dense (Datatypes.S k) (lengths tas').
Proof.
  intros H1 H2 H3 H4 H.
  apply write_status_Done in H as (_ & W1 & W2 & W3 & W4).
  destruct (dense_write _ _ _ _ H1 W1) as [Hk ?].
  destruct (dense_write _ _ _ _ H2 W2) as [_ ?].
  destruct (dense_write _ _ _ _ H3 W3) as [_ ?].
  destruct (dense_write _ _ _ _ H4 W4) as [_ ?].
  done.
Qed.

Lemma stack_status_dense (k : nat)
    (tas : BeamSearchStateSpec (TensorArray (Tensor F))
             (TensorArray (Tensor Z))) :
  dense k (log_probs tas) → dense k (predicted_ids tas) →
  dense k (beam_ids tas) → dense k (lengths tas) →
  (0 < k)%nat ∨
    (ta_static_shape (log_probs tas) = true ∧
     ta_static_shape (predicted_ids tas) = true ∧
     ta_static_shape (beam_ids tas) = true ∧
     ta_static_shape (lengths tas) = true) →
  ∃ st, @stack_status Row F tas
        = Done st ((λ f, EvStack (StatusField f)) <$> status_fields) ∧
        length (log_probs st) = k ∧ length (predicted_ids st) = k ∧
        length (beam_ids st) = k ∧ length (lengths st) = k.
Proof.
  intros H1 H2 H3 H4 Hok.
  destruct (dense_stack _ _ H1) as (v1 & E1 & L1); [tauto|].
  destruct (dense_stack _ _ H2) as (v2 & E2 & L2); [tauto|].
  destruct (dense_stack _ _ H3) as (v3 & E3 & L3); [tauto|].
  destruct (dense_stack _ _ H4) as (v4 & E4 & L4); [tauto|].
  exists (mkBeamSearchStateSpec v1 v2 v3 v4).
  unfold stack_status. rewrite E1, E2, E3, E4. cbn. done.
Qed.

Lemma stack_status_Done
    (tas : BeamSearchStateSpec (TensorArray (Tensor F))
             (TensorArray (Tensor Z)))
    (st : BeamSearchStateSpec (list (Tensor F)) (list (Tensor Z)))
    (tr : list (@event Row F)) :
  stack_status tas = Done st tr →
  tr = (λ f, EvStack (StatusField f)) <$> status_fields ∧
  ta_stack (log_probs tas) = Some (log_probs st) ∧
  ta_stack (predicted_ids tas) = Some (predicted_ids st) ∧
  ta_stack (beam_ids tas) = Some (beam_ids st) ∧
  ta_stack (lengths tas) = Some (lengths st).
Proof.
  unfold stack_status. intros H.
  apply bind_Done_inv in H as (x & tr1 & tr2 & Hm & H & ->).
  apply require_Done in Hm as [Hm ->].
  apply bind_Done_inv in H as ([] & tr3 & tr4 & He & H & ->).
  unfold emit in He. injection He as <-.
  unfold ret in H. injection H as <- <-.
  destruct (ta_stack (log_probs tas)); [|discriminate].
  destruct (ta_stack (predicted_ids tas)); [|discriminate].
  destruct (ta_stack (beam_ids tas)); [|discriminate].
  destruct (ta_stack (lengths tas)); [|discriminate].
  cbn in Hm. injection Hm as <-. done.
Qed.

Lemma loop_writes_S (infer : bool) (fields : list string) (k : nat) :
  loop_writes infer fields (Datatypes.S k)
  = loop_writes infer fields k
    ++ ((λ b, (b, Z.of_nat k)) <$> decode_buffers infer fields).
Proof.
  unfold loop_writes. rewrite seq_S, bind_app. cbn. by rewrite app_nil_r.
Qed.

End DenseBuffers.

(** ** The retained fields *)

Section Filters.
Context {A : Type}.

Lemma filter_ext_elem (P Q : A → Prop) `{!∀ x, Decision (P x)}
    `{!∀ x, Decision (Q x)} (l : list A) :
  (∀ x, x ∈ l → (P x ↔ Q x)) → filter P l = filter Q l.
Proof.
  induction l as [|x l IH]; intros Hext; [done|].
  rewrite !filter_cons.
  assert (filter P l = filter Q l) as ->.
  { apply IH. intros y Hy. apply Hext. by right. }
  pose proof (Hext x ltac:(left)) as Hx.
  destruct (decide (P x)), (decide (Q x)); tauto.
Qed.

Lemma filter_all (P : A → Prop) `{!∀ x, Decision (P x)} (l : list A) :
  (∀ x, x ∈ l → P x) → filter P l = l.
Proof.
  induction l as [|x l IH]; intros Hall; [done|].
  rewrite filter_cons_True by (apply Hall; left).
  f_equal. apply IH. intros y Hy. apply Hall. by right.
Qed.

Lemma fmap_fst_filter {V} (R : list A) `{!EqDecision A}
    (l : list (A * V)) :
  (filter (λ p, p.1 ∈ R) l).*1 = filter (λ f, f ∈ R) l.*1.
Proof.
  induction l as [|[f v] l IH]; [done|].
  cbn [fmap list_fmap fst]. rewrite !filter_cons. cbn [fst].
  destruct (decide (f ∈ R)); cbn; by rewrite IH.
Qed.

End Filters.

(** Filtering a field list by its own retained fields gives the retained
    fields. *)
Lemma filter_retained_fields (m : ModeKeys) (l : list string)
    (ign : option (list string)) :
  filter (λ f, f ∈ retained_fields m l ign) l = retained_fields m l ign.
Proof.
  unfold retained_fields. destruct ign as [ign|]; [destruct (is_infer m)|].
  - apply filter_ext_elem. intros x Hx. rewrite list_elem_of_filter. tauto.
  - by apply filter_all.
  - by apply filter_all.
Qed.

(** ** A decode, from the setup to the stacked buffers *)

Section DecodeRun.
Context {Row Top Logit F EncoderOutput Bridge : Type}.
Variable zero : F.
Variable static_shape : buffer → bool.
Variable decoder : @Decoder Row Top Logit F EncoderOutput Bridge.
Variable helper : @Feedback Logit F.
Variable target_modality : @Modality Row Top Logit.
Variable encoder_output : EncoderOutput.
Variable bridge : Bridge.

#[local] Abbreviation body :=
  (decode_body decoder helper target_modality encoder_output bridge).
#[local] Abbreviation s0 :=
  (initial_loop_vars zero static_shape decoder helper target_modality
      encoder_output
     bridge).
#[local] Abbreviation fields := (decode_fields decoder).
#[local] Abbreviation output_writes := (@output_writes Row F).
#[local] Abbreviation status_writes := (@status_writes Row F).
#[local] Abbreviation infer := (is_infer (mode decoder)).
#[local] Abbreviation output_of :=
  (step_output decoder helper encoder_output bridge).

Lemma decode_fields_retained :
  fields = remover_fields (decode_remover decoder).
Proof.
  unfold decode_fields, remover_apply, decode_remover,
    new_DecoderOutputRemover. cbn [remover_fields].
  rewrite fmap_fst_filter. apply filter_retained_fields.
Qed.

Lemma initial_outputs_ta_fields : (outputs_ta s0).*1 = fields.
Proof.
  unfold initial_loop_vars, decode_fields. cbn [outputs_ta].
  rewrite <- list_fmap_compose. done.
Qed.

Lemma initial_outputs_ta_dense (j : nat) f ta :
  outputs_ta s0 !! j = Some (f, ta) → ta_slots ta = [].
Proof.
  unfold initial_loop_vars. cbn [outputs_ta].
  rewrite list_lookup_fmap. intros H.
  destruct (remover_apply _ _ !! j) as [[g d]|]; [|done].
  cbn in H. by injection H as <- <-.
Qed.

Lemma initial_outputs_ta_static (j : nat) f ta :
  outputs_ta s0 !! j = Some (f, ta) →
  ta_static_shape ta = static_shape (OutputField f).
Proof.
  unfold initial_loop_vars. cbn [outputs_ta].
  rewrite list_lookup_fmap. intros H.
  destruct (remover_apply _ _ !! j) as [[g d]|]; [|done].
  cbn in H. by injection H as <- <-.
Qed.

Lemma body_calls (b : bool) (l : list string) (t : Z)
    (c : Tensor Row * nest (Tensor Row)) (e1 e3 e4 e5 : @event Row F) :
  other_call e1 = true → other_call e3 = true →
  other_call e4 = true → other_call e5 = true →
  let tr := [e1; EvStep c.1 c.2] ++ output_writes l t
            ++ (if b then [e3] ++ status_writes t else [])
            ++ [e4; e5] in
  step_calls tr = [c] ∧ stack_calls tr = [] ∧ remover_calls tr = [] ∧
  write_calls tr = (λ x, (x, t)) <$> decode_buffers b l.
Proof.
  intros H1 H3 H4 H5. cbv zeta. destruct c as [i st]. split_and!.
  - rewrite !step_calls_app, step_calls_output_writes.
    rewrite (step_calls_other e1), (step_calls_other e4),
      (step_calls_other e5) by done.
    destruct b; [|done].
    by rewrite step_calls_app, (step_calls_other e3).
  - rewrite !stack_calls_app, stack_calls_output_writes.
    rewrite (stack_calls_other e1), (stack_calls_other e4),
      (stack_calls_other e5) by done.
    destruct b; [|done].
    by rewrite stack_calls_app, (stack_calls_other e3).
  - rewrite !remover_calls_app, remover_calls_output_writes.
    rewrite (remover_calls_other e1), (remover_calls_other e4),
      (remover_calls_other e5) by done.
    destruct b; [|done].
    by rewrite remover_calls_app, (remover_calls_other e3).
  - rewrite !write_calls_app, write_calls_output_writes.
    rewrite (write_calls_other e1), (write_calls_other e4),
      (write_calls_other e5) by done.
    unfold decode_buffers. rewrite fmap_app, <- list_fmap_compose.
    destruct b.
    + rewrite write_calls_app, (write_calls_other e3) by done.
      cbn. by rewrite ?app_nil_r.
    + cbn. by rewrite ?app_nil_r.
Qed.

(** What one execution of the body does to the buffers and to the log. *)
Lemma body_buffers (s s' : @LoopVars Row F) tr :
  body s = Done s' tr →
  ∃ e1 e3 e4 e5 : @event Row F,
    write_fields (time s) (outputs_ta s)
      (output_of (step_inputs (inputs_prepost_processing_fn decoder).1 s,
                  decoder_states s))
    = Done (outputs_ta s') (output_writes (outputs_ta s).*1 (time s)) ∧
    tr = [e1; EvStep (step_inputs (inputs_prepost_processing_fn decoder).1 s)
                (decoder_states s)]
         ++ output_writes (outputs_ta s).*1 (time s)
         ++ (if infer then [e3] ++ status_writes (time s) else [])
         ++ [e4; e5] ∧
    other_call e1 = true ∧ other_call e3 = true ∧
    other_call e4 = true ∧ other_call e5 = true ∧
    (infer = true →
       ∃ a a' st,
         args s = Some a ∧ args s' = Some a' ∧
         write_status (time s) (arg_infer_status_ta a) st
         = Done (arg_infer_status_ta a') (status_writes (time s))) ∧
    (infer = false → args s' = None).
Proof.
  intros H. unfold decode_body in H.
  destruct infer eqn:Hinf.
  - destruct (body_infer_inv _ _ _ _ _ _ _ s s' tr Hinf H)
      as (a & outs' & st' & prev & ista & fin' & Ha & Hw & _ & _ & Hs & _
          & Hs' & Htr).
    do 4 eexists. split_and!.
    + rewrite Hs'. exact Hw.
    + exact Htr.
    + done.
    + done.
    + done.
    + done.
    + intros _. do 3 eexists. rewrite Hs'. cbn [args arg_infer_status_ta].
      split_and!; [exact Ha|done|exact Hs].
    + done.
  - destruct (body_train_inv _ _ _ _ _ _ _ s s' tr Hinf H)
      as (outs' & fin' & Hw & _ & Hs' & Htr).
    exists (EvPreprocess (time s) (inputs s)), EvPrepare. do 2 eexists.
    split_and!.
    + rewrite Hs'. exact Hw.
    + exact Htr.
    + done.
    + done.
    + done.
    + done.
    + done.
    + intros _. by rewrite Hs'.
Qed.

(** After [k] executions of the body from the initial loop variables: the
    counter, the buffers and the log. *)
Lemma run_inv (k : nat) (s : @LoopVars Row F) tr :
  iterate k body s0 = Done s tr →
  time s = int32_wrap (Z.of_nat k) ∧
  (outputs_ta s).*1 = fields ∧
  length (step_calls tr) = k ∧
  stack_calls tr = [] ∧ remover_calls tr = [] ∧
  write_calls tr = loop_writes infer fields k ∧
  (∀ (j : nat) f ta, outputs_ta s !! j = Some (f, ta) →
     ∃ vs, ta_slots ta = Some <$> vs ∧ length vs = k ∧
           ∀ (t : nat) c, step_calls tr !! t = Some c →
             ∃ v, output_of c !! j = Some (f, v) ∧ vs !! t = Some v) ∧
  (if infer then
     ∃ a, args s = Some a ∧
          dense k (log_probs (arg_infer_status_ta a)) ∧
          dense k (predicted_ids (arg_infer_status_ta a)) ∧
          dense k (beam_ids (arg_infer_status_ta a)) ∧
          dense k (lengths (arg_infer_status_ta a))
   else args s = None).
Proof.
  revert s tr. induction k as [|k IH]; intros s tr H.
  - cbn in H. unfold ret in H. injection H as <- <-.
    split_and!; try done.
    + apply initial_outputs_ta_fields.
    + intros j f ta Hj. exists []. split_and!; [|done|done].
      by rewrite (initial_outputs_ta_dense j f ta Hj).
    + unfold initial_loop_vars. cbn [args].
      destruct infer; [|done]. eexists. split; [done|].
      cbn. split_and!; apply dense_create.
  - apply iterate_S_Done in H as (s1 & tr1 & tr2 & Hk & Hb & ->).
    destruct (IH _ _ Hk) as (Ht & Hn & Hsc & Hst & Hrc & Hwc & Hbuf & Hargs).
    destruct (body_buffers _ _ _ Hb)
      as (e1 & e3 & e4 & e5 & Hw & Htr & O1 & O3 & O4 & O5 & Hi & Hni).
    destruct (body_calls infer (outputs_ta s1).*1 (time s1)
                (step_inputs (inputs_prepost_processing_fn decoder).1 s1,
                 decoder_states s1) e1 e3 e4 e5 O1 O3 O4 O5)
      as (Cstep & Cstack & Crem & Cwrite).
    cbn [fst snd] in Cstep, Cstack, Crem, Cwrite. rewrite <- Htr in *.
    rewrite Ht in Hw.
    assert (Hdense : ∀ (j : nat) f ta,
               outputs_ta s1 !! j = Some (f, ta) → dense k ta).
    { intros j f ta Hj. destruct (Hbuf j f ta Hj) as (vs & ? & ? & _).
      by exists vs. }
    destruct (write_fields_dense k _ _ _ _ Hdense Hw) as [Hnonempty Hnew].
    pose proof (write_fields_Done _ _ _ _ _ Hw) as (_ & Hnames & _ & _).
    assert (Hstatus :
      if infer then
        Z.of_nat k < 2 ^ 31 ∧
        ∃ a, args s = Some a ∧
             dense (Datatypes.S k) (log_probs (arg_infer_status_ta a)) ∧
             dense (Datatypes.S k) (predicted_ids (arg_infer_status_ta a)) ∧
             dense (Datatypes.S k) (beam_ids (arg_infer_status_ta a)) ∧
             dense (Datatypes.S k) (lengths (arg_infer_status_ta a))
      else args s = None).
    { destruct infer; [|by apply Hni].
      destruct Hargs as (a & Ha & D1 & D2 & D3 & D4).
      destruct (Hi eq_refl) as (a0 & a' & st & Ha0 & Ha' & Hws).
      rewrite Ha in Ha0. injection Ha0 as <-. rewrite Ht in Hws.
      destruct (write_status_dense k _ _ _ _ D1 D2 D3 D4 Hws) as [Hlt Hd].
      split; [done|]. by exists a'. }
    assert (Htime : decode_buffers infer fields ≠ [] →
                    time s1 = Z.of_nat k).
    { intros Hne. rewrite Ht. apply int32_wrap_small. split; [lia|].
      destruct infer; [by destruct Hstatus|].
      apply Hnonempty. intros Hnil. apply Hne.
      unfold decode_buffers. by rewrite <- Hn, Hnil. }
    assert (Hsteps : step_calls (tr1 ++ tr2)
      = step_calls tr1
        ++ [(step_inputs (inputs_prepost_processing_fn decoder).1 s1,
             decoder_states s1)]).
    { by rewrite step_calls_app, Cstep. }
    split_and!.
    + rewrite (body_time _ _ _ _ _ _ _ _ _ _ Hb), Ht, int32_add_wrap.
      f_equal. lia.
    + by rewrite Hnames.
    + rewrite Hsteps, length_app, Hsc. cbn. lia.
    + by rewrite stack_calls_app, Hst, Cstack.
    + by rewrite remover_calls_app, Hrc, Crem.
    + rewrite write_calls_app, Hwc, loop_writes_S. f_equal.
      rewrite Cwrite, Hn.
      destruct (decode_buffers infer fields) as [|b bs] eqn:Hbufs; [done|].
      by rewrite Htime.
    + intros j f ta' Hj.
      destruct (Hnew j f ta' Hj) as (ta & v & vs & Hta & Hv & Hs & Hlen & Hs').
      destruct (Hbuf j f ta Hta) as (vs0 & Hs0 & _ & Hvals).
      assert (vs0 = vs) as ->.
      { rewrite Hs in Hs0. by apply (inj (fmap Some)) in Hs0. }
      exists (vs ++ [v]). split_and!; [done|rewrite length_app; cbn; lia|].
      intros t c Hc. rewrite Hsteps in Hc.
      destruct (decide (t < k)%nat) as [Hlt|Hge].
      * rewrite lookup_app_l in Hc by lia.
        destruct (Hvals t c Hc) as (v' & ? & ?). exists v'.
        split; [done|]. rewrite lookup_app_l by lia. done.
      * rewrite lookup_app_r in Hc by lia.
        rewrite Hsc in Hc.
        destruct (t - k)%nat as [|n] eqn:Hn'; [|done].
        cbn in Hc. injection Hc as <-.
        assert (t = k) as -> by lia.
        exists v. split; [exact Hv|].
        rewrite lookup_app_r by lia. by rewrite Hlen, Nat.sub_diag.
    + destruct infer; [by destruct Hstatus|done].
Qed.

(** The stacking after a run of [k] steps succeeds when a step was run, or
    when every buffer has a fully defined element shape; every stacked
    sequence has [k] entries, entry [t] of an output field being the filtered
    output of the [t]-th transition call. *)
Lemma finalize_run (k : nat) (s : @LoopVars Row F) tr :
  iterate k body s0 = Done s tr →
  (0 < k)%nat ∨
    Forall (λ b, static_shape b = true) (decode_buffers infer fields) →
  ∃ outs st,
    finalize decoder s
    = Done (outs, st) (EvStack <$> decode_buffers infer fields) ∧
    outs.*1 = fields ∧
    (∀ (j : nat) f vs, outs !! j = Some (f, vs) →
       length vs = k ∧
       ∀ (t : nat) c, step_calls tr !! t = Some c →
         ∃ v, output_of c !! j = Some (f, v) ∧ vs !! t = Some v) ∧
    (if infer then
       ∃ b, st = Some b ∧ length (log_probs b) = k ∧
            length (predicted_ids b) = k ∧ length (beam_ids b) = k ∧
            length (lengths b) = k
     else st = None).
Proof.
  intros H Hok.
  destruct (run_inv _ _ _ H) as (_ & Hn & _ & _ & _ & _ & Hbuf & Hargs).
  assert (Hinit : k = 0%nat → s = s0).
  { intros ->. cbn in H. unfold ret in H. by injection H as <-. }
  destruct (stack_fields_dense (Row:=Row) (F:=F) (outputs_ta s))
    as [outs Houts].
  { intros j f ta Hj. destruct (Hbuf j f ta Hj) as (vs & Hs & Hlen & _).
    exists vs. split; [done|].
    destruct Hok as [Hk|Hst].
    - left. intros ->. cbn in Hlen. lia.
    - destruct k as [|k]; [|left; intros ->; cbn in Hlen; lia].
      right. rewrite (Hinit eq_refl) in Hj.
      rewrite (initial_outputs_ta_static j f ta Hj).
      rewrite list.Forall_forall in Hst. apply Hst.
      unfold decode_buffers. apply elem_of_app. left.
      apply list_elem_of_fmap. exists f. split; [done|].
      rewrite <- initial_outputs_ta_fields.
      apply list_elem_of_fmap. exists (f, ta). split; [done|].
      by apply list_elem_of_lookup_2 with j. }
  pose proof (stack_fields_Done _ _ _ Houts) as (Hnames & _ & Hpos).
  assert (Hvals : ∀ (j : nat) f vs, outs !! j = Some (f, vs) →
    length vs = k ∧
    ∀ (t : nat) c, step_calls tr !! t = Some c →
      ∃ v, output_of c !! j = Some (f, v) ∧ vs !! t = Some v).
  { intros j f vs Hj. destruct (Hpos j f vs Hj) as (ta & Hta & Hs).
    destruct (Hbuf j f ta Hta) as (vs0 & Hs0 & Hlen & Hv).
    rewrite Hs in Hs0. apply (inj (fmap Some)) in Hs0 as ->. done. }
  unfold finalize. rewrite Houts, Hn. unfold decode_buffers.
  destruct infer eqn:Hinf.
  - destruct Hargs as (a & Ha & D1 & D2 & D3 & D4).
    destruct (stack_status_dense (Row:=Row) k _ D1 D2 D3 D4)
      as (st & Hst & L1 & L2 & L3 & L4).
    { destruct Hok as [Hk|Hst]; [by left|].
      destruct k as [|k]; [|left; lia]. right.
      rewrite (Hinit eq_refl) in Ha. unfold initial_loop_vars in Ha.
      cbn [args] in Ha. rewrite Hinf in Ha. injection Ha as <-.
      cbn [arg_infer_status_ta log_probs predicted_ids beam_ids lengths
           _create_ta ta_static_shape].
      unfold decode_buffers in Hst. apply Forall_app in Hst as [_ Hst].
      cbn in Hst.
      apply Forall_cons_1 in Hst as [S1 Hst].
      apply Forall_cons_1 in Hst as [S2 Hst].
      apply Forall_cons_1 in Hst as [S3 Hst].
      apply Forall_cons_1 in Hst as [S4 _]. done. }
    exists outs, (Some st). rewrite Ha. cbn [bind]. rewrite Hst.
    cbn [bind ret]. split_and!.
    + by rewrite app_nil_r, fmap_app, <- !list_fmap_compose.
    + by rewrite Hnames.
    + done.
    + by exists st.
  - exists outs, None. cbn [bind ret]. split_and!.
    + by rewrite !app_nil_r, <- list_fmap_compose.
    + by rewrite Hnames.
    + done.
    + done.
Qed.

(** Conversely, the stacking of buffers never written succeeds only when
    every buffer has a fully defined element shape. *)
Lemma finalize_static r (trf : list (@event Row F)) :
  finalize decoder s0 = Done r trf →
  Forall (λ b, static_shape b = true) (decode_buffers infer fields).
Proof.
  unfold finalize. intros H. bind_inv H. rename Hm into Hsf.
  unfold decode_buffers. apply Forall_app. split.
  - apply list.Forall_forall. intros b Hb.
    apply list_elem_of_fmap in Hb as (f & -> & Hf).
    rewrite <- initial_outputs_ta_fields in Hf.
    apply list_elem_of_fmap in Hf as ([g ta] & -> & Hin).
    apply list_elem_of_lookup in Hin as [j Hj]. cbn [fst].
    destruct (stack_fields_stacked _ _ _ _ _ _ Hsf Hj) as [vs Hvs].
    rewrite <- (initial_outputs_ta_static j g ta Hj).
    eapply ta_stack_empty; [|exact Hvs].
    by apply (initial_outputs_ta_dense j g).
  - destruct infer eqn:Hinf; [|constructor].
    unfold initial_loop_vars in H. cbn [args] in H. rewrite Hinf in H.
    bind_inv H. rename Hm into Hss.
    apply stack_status_Done in Hss as (_ & S1 & S2 & S3 & S4).
    cbn [arg_infer_status_ta log_probs predicted_ids beam_ids lengths]
      in S1, S2, S3, S4.
    apply ta_stack_empty in S1, S2, S3, S4; try reflexivity.
    cbn in S1, S2, S3, S4. cbn.
    repeat constructor; done.
Qed.

(** A stacking that succeeded was of buffers with a slot, or with fully
    defined element shapes. *)
Lemma finalize_cond (k : nat) (s : @LoopVars Row F) tr r
    (trf : list (@event Row F)) :
  iterate k body s0 = Done s tr → finalize decoder s = Done r trf →
  (0 < k)%nat ∨
    Forall (λ b, static_shape b = true) (decode_buffers infer fields).
Proof.
  destruct k as [|k]; [|left; lia]. intros H Hfin. right.
  cbn in H. unfold ret in H. injection H as <- _.
  by apply (finalize_static r trf).
Qed.

(** A decode returns exactly when the loop exits after some [k ≤ fuel]
    steps; its log is the setup, the steps, then the stacking. *)
Lemma dynamic_decode_Done (fuel : nat) r tr :
  dynamic_decode zero static_shape decoder helper target_modality fuel
      encoder_output
    bridge = Done r tr ↔
  ∃ (k : nat) s trl,
    (k ≤ fuel)%nat ∧ iterate k body s0 = Done s trl ∧
    reduce_all (finished s) = true ∧
    (∀ (j : nat) sj trj, (j < k)%nat → iterate j body s0 = Done sj trj →
                         reduce_all (finished sj) = false) ∧
    finalize decoder s = Done r (EvStack <$> decode_buffers infer fields) ∧
    tr = setup_calls decoder helper target_modality ++ trl
         ++ (EvStack <$> decode_buffers infer fields).
Proof.
  rewrite dynamic_decode_unfold. split.
  - intros H. apply bind_log_Done in H as (tr0 & H & ->).
    apply bind_Done_inv in H as (s & trl & trf & Hloop & Hfin & ->).
    apply while_loop_Done in Hloop as (k & Hk & Hit & Hc & Hbefore).
    destruct (finalize_run _ _ _ Hit (finalize_cond _ _ _ _ _ Hit Hfin))
      as (outs & st & Hfin' & _).
    rewrite Hfin' in Hfin. injection Hfin as <- <-.
    exists k, s, trl. split_and!; try done.
    + unfold loop_cond in Hc. by apply negb_false_iff in Hc.
    + intros j sj trj Hj Hsj. specialize (Hbefore j sj trj Hj Hsj).
      unfold loop_cond in Hbefore. by apply negb_true_iff in Hbefore.
  - intros (k & s & trl & Hk & Hit & Hc & Hbefore & Hfin & ->).
    assert (while_loop fuel loop_cond body s0 = Done s trl) as ->.
    { apply while_loop_Done. exists k. split_and!; try done.
      - unfold loop_cond. by rewrite Hc.
      - intros j sj trj Hj Hsj. unfold loop_cond.
        by rewrite (Hbefore j sj trj Hj Hsj). }
    cbn [bind]. by rewrite Hfin.
Qed.

Lemma stack_calls_stacks (l : list buffer) :
  stack_calls (@EvStack Row F <$> l) = l.
Proof.
  unfold stack_calls. rewrite (omap_events_all _ _ id) by done.
  apply list_fmap_id.
Qed.

Lemma step_calls_stacks (l : list buffer) :
  step_calls (@EvStack Row F <$> l) = [].
Proof. by apply omap_events_nil. Qed.

Lemma write_calls_stacks (l : list buffer) :
  write_calls (@EvStack Row F <$> l) = [].
Proof. by apply omap_events_nil. Qed.

Lemma remover_calls_stacks (l : list buffer) :
  remover_calls (@EvStack Row F <$> l) = [].
Proof. by apply omap_events_nil. Qed.

(** The log of a decode that returns after [k] steps. *)
Lemma decode_log (k : nat) (s : @LoopVars Row F) trl :
  iterate k body s0 = Done s trl →
  let tr := setup_calls decoder helper target_modality ++ trl
            ++ (EvStack <$> decode_buffers infer fields) in
  step_calls tr = step_calls trl ∧ length (step_calls tr) = k ∧
  write_calls tr = loop_writes infer fields k ∧
  stack_calls tr = decode_buffers infer fields ∧
  remover_calls tr = [fields].
Proof.
  intros H. cbv zeta.
  destruct (run_inv _ _ _ H) as (_ & _ & Hsc & Hst & Hrc & Hwc & _).
  assert (step_calls (setup_calls decoder helper target_modality ++ trl
                      ++ (EvStack <$> decode_buffers infer fields))
          = step_calls trl) as Hsteps.
  { rewrite !step_calls_app, step_calls_stacks. by rewrite app_nil_r. }
  split_and!.
  - done.
  - by rewrite Hsteps.
  - rewrite !write_calls_app, Hwc, write_calls_stacks.
    by rewrite app_nil_r.
  - by rewrite !stack_calls_app, Hst, stack_calls_stacks.
  - rewrite !remover_calls_app, Hrc, remover_calls_stacks. cbn.
    by rewrite decode_fields_retained.
Qed.

Lemma decode_buffers_NoDup (b : bool) (l : list string) :
  NoDup l → NoDup (decode_buffers b l).
Proof.
  intros Hl. unfold decode_buffers. apply list.NoDup_app. split_and!.
  - apply NoDup_fmap_2; [|done]. by intros ?? [= ->].
  - intros x Hx Hx'. apply list_elem_of_fmap in Hx as (f & -> & _).
    destruct b; [|by apply elem_of_nil in Hx'].
    by apply list_elem_of_fmap in Hx' as (g & ? & _).
  - destruct b; [|constructor]. apply NoDup_fmap_2.
    + by intros ?? [= ->].
    + unfold status_fields. by apply (bool_decide_unpack _).
Qed.

Lemma loop_writes_elem (b : bool) (l : list string) (T : nat) x (t : Z) :
  (x, t) ∈ loop_writes b l T ↔
  x ∈ decode_buffers b l ∧ 0 ≤ t < Z.of_nat T.
Proof.
  unfold loop_writes. rewrite list_elem_of_bind. split.
  - intros (n & Hx & Hn). apply list_elem_of_fmap in Hx as (y & [= -> ->] & ?).
    apply elem_of_seq in Hn. split; [done|lia].
  - intros [Hx Ht]. exists (Z.to_nat t). split.
    + apply list_elem_of_fmap. exists x. split; [|done].
      f_equal. lia.
    + apply elem_of_seq. lia.
Qed.

Lemma loop_writes_NoDup (b : bool) (l : list string) (T : nat) :
  NoDup l → NoDup (loop_writes b l T).
Proof.
  intros Hl. unfold loop_writes. apply NoDup_bind.
  - intros n1 n2 [x t] _ _ H1 H2.
    apply list_elem_of_fmap in H1 as (? & [= _ ->] & _).
    apply list_elem_of_fmap in H2 as (? & [= _ Heq] & _). lia.
  - intros n _. apply NoDup_fmap_2; [by intros ?? [= ->]|].
    by apply decode_buffers_NoDup.
  - apply NoDup_seq.
Qed.

(** C4.  A decode that returns has executed [T] loop steps, [T] being the
    number of transition calls in its log.  Its outputs have the retained
    fields; every retained field holds exactly [T] entries, entry [t] being
    that field of the filtered output of the [t]-th transition call.  Every
    buffer is written once at each time [0 .. T-1], in time order, and
    stacked once, after all steps and writes. *)
Theorem output_buffers_one_entry_per_step (fuel : nat) final_outputs status
    tr :
  dynamic_decode zero static_shape decoder helper target_modality fuel
      encoder_output
    bridge = Done (final_outputs, status) tr →
  let T := length (step_calls tr) in
  fields = retained_fields (mode decoder) (output_dtype decoder).*1
             (output_ignore_fields decoder) ∧
  final_outputs.*1 = fields ∧
  (∀ (j : nat) f vs, final_outputs !! j = Some (f, vs) →
     length vs = T ∧
     ∀ (t : nat) c, step_calls tr !! t = Some c →
       ∃ v, output_of c !! j = Some (f, v) ∧ vs !! t = Some v) ∧
  write_calls tr = loop_writes infer fields T ∧
  (∀ f t, (OutputField f, t) ∈ write_calls tr ↔
          f ∈ fields ∧ 0 ≤ t < Z.of_nat T) ∧
  stack_calls tr = decode_buffers infer fields ∧
  (NoDup (output_dtype decoder).*1 →
     NoDup (write_calls tr) ∧ NoDup (stack_calls tr)) ∧
  (∃ tr1 tr2, tr = tr1 ++ tr2 ∧ stack_calls tr1 = [] ∧
              step_calls tr2 = [] ∧ write_calls tr2 = []).
Proof.
  intros H. apply dynamic_decode_Done in H
    as (k & s & trl & _ & Hit & _ & _ & Hfin & ->).
  destruct (decode_log _ _ _ Hit) as (Hsteps & Hlen & Hw & Hst & _).
  destruct (finalize_run _ _ _ Hit (finalize_cond _ _ _ _ _ Hit Hfin))
    as (outs & st & Hfin' & Hn & Hvals & _).
  rewrite Hfin' in Hfin. injection Hfin as <- <-.
  destruct (run_inv _ _ _ Hit) as (_ & _ & _ & Hst1 & _).
  cbv zeta. rewrite Hlen, Hw, Hst.
  assert (Hnd : NoDup (output_dtype decoder).*1 → NoDup fields).
  { intros Hd. rewrite decode_fields_retained. cbn.
    unfold retained_fields.
    destruct (output_ignore_fields decoder); [|done].
    destruct infer; [|done]. by apply list.NoDup_filter. }
  split_and!.
  - by rewrite decode_fields_retained.
  - done.
  - intros j f vs Hj. destruct (Hvals j f vs Hj) as [Hl Hv].
    split; [done|]. intros t c Hc. rewrite Hsteps in Hc. eauto.
  - done.
  - intros f t. rewrite loop_writes_elem. unfold decode_buffers.
    rewrite elem_of_app, list_elem_of_fmap. split.
    + intros [[(g & [= ->] & Hg)|Hs] Ht]; [done|].
      destruct infer; [|by apply elem_of_nil in Hs].
      by apply list_elem_of_fmap in Hs as (g & ? & _).
    + intros [Hf Ht]. split; [|done]. left. by exists f.
  - done.
  - intros Hd. split.
    + apply loop_writes_NoDup. by apply Hnd.
    + apply decode_buffers_NoDup. by apply Hnd.
  - exists (setup_calls decoder helper target_modality ++ trl),
      (EvStack <$> decode_buffers infer fields).
    split_and!.
    + by rewrite app_assoc.
    + by rewrite stack_calls_app, Hst1.
    + apply step_calls_stacks.
    + apply write_calls_stacks.
Qed.

(** The stacking has no other failure than a read of a buffer: it returns,
    or fails on an array it cannot stack. *)
Lemma finalize_Fault (k : nat) (s : @LoopVars Row F) tr :
  iterate k body s0 = Done s tr →
  (∃ r trf, finalize decoder s = Done r trf) ∨
  finalize decoder s = Fault TensorArrayRead.
Proof.
  intros Hit.
  destruct (run_inv _ _ _ Hit) as (_ & _ & _ & _ & _ & _ & _ & Hargs).
  unfold finalize, stack_fields.
  destruct (mapM _ (outputs_ta s)) as [outs|]; [|by right].
  cbn [require bind emit ret].
  destruct infer.
  - destruct Hargs as (a & -> & _). unfold stack_status.
    destruct (ta_stack (log_probs (arg_infer_status_ta a))); [|by right].
    destruct (ta_stack (predicted_ids (arg_infer_status_ta a)));
      [|by right].
    destruct (ta_stack (beam_ids (arg_infer_status_ta a))); [|by right].
    destruct (ta_stack (lengths (arg_infer_status_ta a))); [|by right].
    left. cbn. eauto.
  - left. cbn. eauto.
Qed.

(** A decode whose initial mask is all-true and one of whose buffers has no
    fully defined element shape fails when it stacks the buffers. *)
Lemma dynamic_decode_unstackable (fuel : nat) :
  reduce_all (init_symbols helper).1 = true →
  ¬ Forall (λ b, static_shape b = true) (decode_buffers infer fields) →
  dynamic_decode zero static_shape decoder helper target_modality fuel
    encoder_output bridge = Fault TensorArrayRead.
Proof.
  intros Hc Hdyn. rewrite dynamic_decode_unfold.
  rewrite while_loop_skip
    by (unfold loop_cond, initial_loop_vars; cbn [finished]; by rewrite Hc).
  assert (Hit : iterate 0 body s0 = Done s0 []) by done.
  destruct (finalize_Fault _ _ _ Hit) as [(r & trf & Hfin)|Hfin].
  - destruct Hdyn. by apply (finalize_static r trf).
  - cbn [bind]. by rewrite Hfin.
Qed.

(** C6, amended.  With no lanes the initial finished mask is empty: the loop
    condition is false the first time it is evaluated, the body is not
    executed, and no fuel is needed.  When every buffer has a fully defined
    element shape the decode returns, every returned buffer is empty, and
    its log holds no transition call and no write.  When some buffer has
    not, the decode fails when it stacks the buffers, which were never
    written. *)
Theorem empty_batch_skips_loop (fuel : nat) :
  (init_symbols helper).1 = [] →
  loop_cond s0 = false ∧
  while_loop fuel loop_cond body s0 = Done s0 [] ∧
  (Forall (λ b, static_shape b = true) (decode_buffers infer fields) →
   ∃ tr,
     dynamic_decode zero static_shape decoder helper target_modality fuel
       encoder_output bridge
     = Done ((λ f, (f, [])) <$> fields,
             if infer then Some (mkBeamSearchStateSpec [] [] [] []) else None)
         tr ∧
     step_calls tr = [] ∧ write_calls tr = []) ∧
  (¬ Forall (λ b, static_shape b = true) (decode_buffers infer fields) →
   dynamic_decode zero static_shape decoder helper target_modality fuel
     encoder_output bridge = Fault TensorArrayRead).
Proof.
  intros Hinit.
  assert (Hc : loop_cond s0 = false).
  { unfold loop_cond, initial_loop_vars. cbn [finished]. by rewrite Hinit. }
  split; [done|]. split; [by apply while_loop_skip|]. split.
  - intros Hstatic.
    assert (Hit : iterate 0 body s0 = Done s0 []) by done.
    destruct (finalize_run _ _ _ Hit (or_intror Hstatic))
      as (outs & st & Hfin & Hn & Hvals & Hst).
    destruct (decode_log _ _ _ Hit) as (Hsteps & _ & Hw & _).
    exists (setup_calls decoder helper target_modality ++ []
            ++ (EvStack <$> decode_buffers infer fields)).
    split_and!.
    + apply dynamic_decode_Done. exists 0%nat, s0, [].
      split_and!; try done.
      * lia.
      * unfold loop_cond in Hc. by apply negb_false_iff in Hc.
      * intros; lia.
      * rewrite Hfin. f_equal. f_equal.
        -- rewrite <- Hn.
           assert (Hnil : ∀ (j : nat) f vs,
                     outs !! j = Some (f, vs) → vs = []).
           { intros j f vs Hj. destruct (Hvals j f vs Hj) as [Hl _].
             by destruct vs. }
           clear -Hnil.
           induction outs as [|[f vs] outs IH]; [done|]. cbn. f_equal.
           ++ by rewrite (Hnil 0%nat f vs eq_refl).
           ++ apply IH. intros j g ws Hj.
              exact (Hnil (Datatypes.S j) g ws Hj).
        -- destruct infer; [|done].
           destruct Hst as ([lp pi bi le] & -> & L1 & L2 & L3 & L4).
           cbn in *. by destruct lp, pi, bi, le.
    + by rewrite Hsteps.
    + by rewrite Hw.
  - apply dynamic_decode_unstackable. by rewrite Hinit.
Qed.

(** C8.  The retained field set is a fixed point of the filter; the remover
    is built once, as the first call of a decode, and the field set it holds
    names the initial buffers, every record written into them and the
    returned outputs. *)
Theorem schema_filter_idempotent_constant :
  let retained :=
    retained_fields (mode decoder) (output_dtype decoder).*1
      (output_ignore_fields decoder) in
  (∀ m l ign,
     retained_fields m (retained_fields m l ign) ign
     = retained_fields m l ign) ∧
  (∀ (r : DecoderOutputRemover) (ins : list (string * Tensor Row)),
     remover_apply r (remover_apply r ins) = remover_apply r ins) ∧
  remover_fields (decode_remover decoder) = retained ∧
  (outputs_ta s0).*1 = retained ∧
  (∀ (k : nat) s trl s' tr', iterate k body s0 = Done s trl →
     body s = Done s' tr' →
     (output_of (step_inputs (inputs_prepost_processing_fn decoder).1 s,
                 decoder_states s)).*1 = retained ∧
     (outputs_ta s').*1 = retained) ∧
  (∀ fuel r tr,
     dynamic_decode zero static_shape decoder helper target_modality fuel
         encoder_output
       bridge = Done r tr →
     remover_calls tr = [retained] ∧
     (∃ tr', tr = EvRemover retained :: tr' ∧ remover_calls tr' = []) ∧
     r.1.*1 = retained).
Proof.
  cbv zeta.
  assert (Hret : fields
    = retained_fields (mode decoder) (output_dtype decoder).*1
        (output_ignore_fields decoder)) by by rewrite decode_fields_retained.
  split_and!.
  - intros m l ign. unfold retained_fields.
    destruct ign as [ign|]; [|done]. destruct (is_infer m); [|done].
    apply filter_all. intros x Hx. by apply list_elem_of_filter in Hx as [? _].
  - intros r ins. unfold remover_apply. apply filter_all.
    intros x Hx. by apply list_elem_of_filter in Hx as [? _].
  - done.
  - by rewrite initial_outputs_ta_fields.
  - intros k s trl s' tr' Hit Hb.
    destruct (run_inv _ _ _ Hit) as (_ & Hn & _).
    destruct (body_buffers _ _ _ Hb) as (? & ? & ? & ? & Hw & _).
    apply write_fields_Done in Hw as (Hnames & Hnames' & _).
    rewrite <- Hnames, Hnames', Hn. done.
  - intros fuel [outs st] tr H. apply dynamic_decode_Done in H
      as (k & s & trl & _ & Hit & _ & _ & Hfin & ->).
    destruct (decode_log _ _ _ Hit) as (_ & _ & _ & _ & Hr).
    destruct (finalize_run _ _ _ Hit (finalize_cond _ _ _ _ _ Hit Hfin))
      as (outs' & st' & Hfin' & Hn & _).
    rewrite Hfin' in Hfin. injection Hfin as <- <-.
    destruct (run_inv _ _ _ Hit) as (_ & _ & _ & _ & Hrc & _).
    rewrite <- Hret. split_and!; [done| |done].
    exists (tail (setup_calls decoder helper target_modality) ++ trl
            ++ (EvStack <$> decode_buffers infer fields)).
    split.
    + unfold setup_calls. cbn [tail app]. by rewrite decode_fields_retained.
    + by rewrite !remover_calls_app, Hrc, remover_calls_stacks.
Qed.









End DecodeRun.

(** ** The properties on the concrete decode *)

(** The reorder on the first inference step of the concrete decode: the
    helper returns [beam_ids = [1; 0]]. *)
Lemma beam_reorder_witness :
  ∃ s' tr prev,
    is_infer (mode (Demo.decoder INFER)) = true ∧
    Demo.infer_body Demo.stop3 (Demo.infer_vars Demo.stop3) = Done s' tr ∧
    (postprocess_calls tr).*1 = [Some prev] ∧
    (∃ v, prev !! 0%nat = Some v ∧
          step_inputs (inputs_prepost_processing_fn (Demo.decoder INFER)).1
            (Demo.infer_vars Demo.stop3) !! 1%nat = Some v) ∧
    (∃ v, nest_lane 1 (decoder_states s') = Some v ∧
          nest_lane 0
            (step_result (Demo.decoder INFER)
               (inputs_prepost_processing_fn (Demo.decoder INFER)).1
               (decode_params (Demo.decoder INFER)
                  (Demo.helper 2 Demo.stop3) 1%nat tt)
               (Demo.infer_vars Demo.stop3)).2 = Some v).
Proof.
  destruct (Demo.infer_body Demo.stop3 (Demo.infer_vars Demo.stop3))
    as [s' tr| |] eqn:Hb; [|vm_compute in Hb; discriminate..].
  destruct (beam_reorder_state_and_input (Demo.decoder INFER)
              (Demo.helper 2 Demo.stop3) Demo.modality
              (decode_remover (Demo.decoder INFER))
              (inputs_prepost_processing_fn (Demo.decoder INFER)).1
              (inputs_prepost_processing_fn (Demo.decoder INFER)).2
              (decode_params (Demo.decoder INFER) (Demo.helper 2 Demo.stop3)
                 1%nat tt)
              (Demo.infer_vars Demo.stop3) s' tr eq_refl Hb)
    as (a & prev & Ha & Hst & Hprev & Hpost & Hlanes & Hswap).
  exists s', tr, prev.
  assert (Hids : (step_sample (Demo.decoder INFER) (Demo.helper 2 Demo.stop3)
                    Demo.modality
                    (inputs_prepost_processing_fn (Demo.decoder INFER)).1
                    (decode_params (Demo.decoder INFER)
                       (Demo.helper 2 Demo.stop3) 1%nat tt)
                    (Demo.infer_vars Demo.stop3) a).1.1.2 = [1; 0])
    by reflexivity.
  destruct (Hswap Hids) as (_ & H1 & H0 & _).
  split; [reflexivity|]. split; [reflexivity|]. split; [exact Hpost|].
  split; [exact H0 | exact H1].
Defined.


(** A lane that starts finished is still finished two steps later. *)
Lemma finished_mask_witness :
  ∃ s' tr,
    iterate 2 (Demo.train_body Demo.never) Demo.half_finished = Done s' tr ∧
    finished Demo.half_finished !! 0%nat = Some true ∧
    (0 < length (finished s'))%nat ∧
    finished s' !! 0%nat = Some true.
Proof.
  destruct (iterate 2 (Demo.train_body Demo.never) Demo.half_finished)
    as [s' tr| |] eqn:Hb; [|vm_compute in Hb; discriminate..].
  destruct (finished_mask_monotonic (Demo.decoder TRAIN)
              (Demo.helper 2 Demo.never) Demo.modality
              (decode_remover (Demo.decoder TRAIN))
              (inputs_prepost_processing_fn (Demo.decoder TRAIN)).1
              (inputs_prepost_processing_fn (Demo.decoder TRAIN)).2
              (decode_params (Demo.decoder TRAIN) (Demo.helper 2 Demo.never)
                 2%nat tt)
              2 Demo.half_finished s' tr Hb) as (Hmono & _).
  exists s', tr.
  assert (Hlen : (0 < length (finished s'))%nat).
  { vm_compute in Hb. injection Hb as <- _. cbn. lia. }
  split; [reflexivity|]. split; [reflexivity|]. split; [exact Hlen|].
  exact (Hmono 0%nat eq_refl Hlen).
Defined.


(** The teacher-forced decode of two sentences of length 3: three steps, two
    output fields, three entries each. *)
Lemma output_buffers_witness :
  ∃ outs st tr,
    Demo.train_decode 5 (Demo.stop_len 3) = Done (outs, st) tr ∧
    length (step_calls tr) = 3%nat ∧
    outs.*1 = ["logits"; "attention"]%string ∧
    (∀ (j : nat) f vs, outs !! j = Some (f, vs) → length vs = 3%nat) ∧
    write_calls tr
    = loop_writes false ["logits"; "attention"]%string 3.
Proof.
  destruct (Demo.train_decode 5 (Demo.stop_len 3)) as [[outs st] tr| |] eqn:Hd;
    [|vm_compute in Hd; discriminate..].
  destruct (output_buffers_one_entry_per_step 0%Q Demo.dynamic_shapes
      (Demo.decoder TRAIN)
              (Demo.helper 2 (Demo.stop_len 3)) Demo.modality 2%nat tt 5 outs
              st tr Hd) as (_ & Hn & Hvals & Hw & _).
  assert (Hlen : length (step_calls tr) = 3%nat).
  { vm_compute in Hd. injection Hd as _ _ <-. reflexivity. }
  exists outs, st, tr.
  split; [reflexivity|]. split; [exact Hlen|]. split; [exact Hn|]. split.
  - intros j f vs Hj. rewrite <- Hlen. exact (proj1 (Hvals j f vs Hj)).
  - rewrite <- Hlen. exact Hw.
Defined.



(** C6 as stated fails: the inference decode of an empty batch whose
    buffers have no fully defined element shape evaluates the loop condition
    once, runs no step, and does not return empty buffers: stacking the
    buffers, which were never written, is an error, whatever the fuel. *)
Lemma empty_batch_counterexample :
  (init_symbols (Demo.helper 0 Demo.stop3)).1 = [] ∧
  ∀ fuel, Demo.empty_decode Demo.dynamic_shapes fuel = Fault TensorArrayRead.
Proof.
  split; [reflexivity|]. intros fuel.
  apply dynamic_decode_unstackable; [reflexivity|].
  intros Hall. apply Forall_cons_1 in Hall as [Hlogits _]. discriminate.
Qed.

(** The decode of an empty batch, without fuel: with fully defined element
    shapes it returns empty buffers, without them it fails. *)
Lemma empty_batch_witness :
  (init_symbols (Demo.helper 0 Demo.stop3)).1 = [] ∧
  (∃ tr,
     Demo.empty_decode Demo.static_shapes 0
     = Done ([("logits"%string, [])],
             Some (mkBeamSearchStateSpec [] [] [] [])) tr ∧
     step_calls tr = [] ∧ write_calls tr = []) ∧
  Demo.empty_decode Demo.dynamic_shapes 0 = Fault TensorArrayRead.
Proof.
  split; [reflexivity|]. split.
  - apply (proj1 (proj2 (proj2 (empty_batch_skips_loop 0%Q
                                  Demo.static_shapes (Demo.decoder INFER)
                                  (Demo.helper 0 Demo.stop3) Demo.modality
                                  0%nat tt 0 eq_refl)))).
    repeat constructor.
  - apply (proj2 (proj2 (proj2 (empty_batch_skips_loop 0%Q
                                  Demo.dynamic_shapes (Demo.decoder INFER)
                                  (Demo.helper 0 Demo.stop3) Demo.modality
                                  0%nat tt 0 eq_refl)))).
    intros Hall. apply Forall_cons_1 in Hall as [Hlogits _]. discriminate.
Defined.

(** C7 as stated fails: on the first step of the concrete inference decode
    the carried input is [[10; 20]], and the hook receives [[20; 10]], the
    input after the reorder by [beam_ids = [1; 0]]. *)
Lemma hook_previous_input_counterexample :
  ∃ s' tr,
    Demo.infer_body Demo.stop3 (Demo.infer_vars Demo.stop3) = Done s' tr ∧
    inputs (Demo.infer_vars Demo.stop3) = [10; 20] ∧
    (postprocess_calls tr).*1 = [Some [20; 10]] ∧
    ¬ hook_receives_carried_input (Demo.infer_vars Demo.stop3) tr.
Proof.
  destruct (Demo.infer_body Demo.stop3 (Demo.infer_vars Demo.stop3))
    as [s' tr| |] eqn:Hb; [|vm_compute in Hb; discriminate..].
  exists s', tr. vm_compute in Hb. injection Hb as <- <-.
  split; [reflexivity|]. split; [reflexivity|]. split; [reflexivity|].
  unfold hook_receives_carried_input. intros H. vm_compute in H.
  discriminate.
Qed.

(** The hook on the first step of the teacher-forced decode. *)
Lemma postprocess_hook_witness :
  ∃ s' tr,
    Demo.train_body (Demo.stop_len 3) (Demo.train_vars (Demo.stop_len 3))
    = Done s' tr ∧
    postprocess_calls tr = [(Some [10; 20], [11; 21])] ∧
    inputs s' = [11; 21] ∧
    hook_receives_carried_input (Demo.train_vars (Demo.stop_len 3)) tr.
Proof.
  destruct (Demo.train_body (Demo.stop_len 3)
              (Demo.train_vars (Demo.stop_len 3)))
    as [s' tr| |] eqn:Hb; [|vm_compute in Hb; discriminate..].
  destruct (postprocess_hook_arguments (Demo.decoder TRAIN)
              (Demo.helper 2 (Demo.stop_len 3)) Demo.modality
              (decode_remover (Demo.decoder TRAIN))
              (inputs_prepost_processing_fn (Demo.decoder TRAIN)).1
              (inputs_prepost_processing_fn (Demo.decoder TRAIN)).2
              (decode_params (Demo.decoder TRAIN)
                 (Demo.helper 2 (Demo.stop_len 3)) 2%nat tt)
              (Demo.train_vars (Demo.stop_len 3)) s' tr Hb)
    as (prev & sids & Hpost & _ & Hin & _ & Hprev & _ & _ & Hcarried).
  exists s', tr.
  pose proof (Hcarried eq_refl (λ t x, eq_refl)) as Hc.
  vm_compute in Hb. injection Hb as <- <-.
  split; [reflexivity|]. split; [reflexivity|]. split; [reflexivity|].
  exact Hc.
Defined.

(** The remover of the concrete inference decode: built once, it keeps
    [logits] and drops [attention]. *)
Lemma schema_filter_witness :
  ∃ r tr,
    Demo.infer_decode 4 Demo.stop3 = Done r tr ∧
    remover_calls tr = [["logits"%string]] ∧
    r.1.*1 = ["logits"%string] ∧
    retained_fields INFER ["logits"%string]
      (Some ["attention"%string]) = ["logits"%string].
Proof.
  destruct (Demo.infer_decode 4 Demo.stop3) as [r tr| |] eqn:Hd;
    [|vm_compute in Hd; discriminate..].
  destruct (schema_filter_idempotent_constant 0%Q Demo.dynamic_shapes
      (Demo.decoder INFER)
              (Demo.helper 2 Demo.stop3) Demo.modality 1%nat tt)
    as (Hidem & _ & _ & _ & _ & Hdec).
  destruct (Hdec 4%nat r tr Hd) as (Hcalls & _ & Hnames).
  exists r, tr.
  split; [reflexivity|]. split; [exact Hcalls|]. split; [exact Hnames|].
  exact (Hidem INFER ["logits"; "attention"]%string
           (Some ["attention"%string])).
Defined.

(** The first inference step of the concrete decode: the helper returns
    log-probabilities [-1/10] and lengths 1 for both lanes, and these are the
    values carried on, although [beam_ids = [1; 0]] reorders the state. *)
Lemma log_probs_lengths_witness :
  is_infer (mode (Demo.decoder INFER)) = true ∧
  ∃ s' tr a',
    Demo.infer_body Demo.stop3 (Demo.infer_vars Demo.stop3) = Done s' tr ∧
    args s' = Some a' ∧
    arg_log_probs a' = [(0 + - (1 # 10))%Q; (0 + - (1 # 10))%Q] ∧
    arg_lengths a' = [1; 1].
Proof.
  split; [reflexivity|].
  destruct (Demo.infer_body Demo.stop3 (Demo.infer_vars Demo.stop3))
    as [s' tr| |] eqn:Hb; [|vm_compute in Hb; discriminate..].
  destruct (log_probs_lengths_carried_verbatim (Demo.decoder INFER)
              (Demo.helper 2 Demo.stop3) Demo.modality
              (decode_remover (Demo.decoder INFER))
              (inputs_prepost_processing_fn (Demo.decoder INFER)).1
              (inputs_prepost_processing_fn (Demo.decoder INFER)).2
              (decode_params (Demo.decoder INFER) (Demo.helper 2 Demo.stop3)
                 1%nat tt)
              (Demo.infer_vars Demo.stop3) s' tr eq_refl Hb)
    as (a & a' & Ha & Ha' & Hlp & Hlen & _).
  exists s', tr, a'.
  injection Ha as <-.
  split; [reflexivity|]. split; [exact Ha'|]. split; [exact Hlp | exact Hlen].
Defined.

(** * Further properties of the driver *)

(** ** The calls on the helper and on the hooks *)

Section MoreCallLemmas.
Context {Row F : Type}.

Lemma loop_times_S (k : nat) :
  loop_times (Datatypes.S k) = loop_times k ++ [int32_wrap (Z.of_nat k)].
Proof. unfold loop_times. by rewrite seq_S, fmap_app. Qed.

Lemma loop_times_length (k : nat) : length (loop_times k) = k.
Proof. unfold loop_times. by rewrite length_fmap, length_seq. Qed.

Lemma loop_times_small (k : nat) :
  Z.of_nat k ≤ 2 ^ 31 → loop_times k = Z.of_nat <$> seq 0 k.
Proof.
  intros Hk. unfold loop_times. apply list_fmap_ext.
  intros i t Ht. apply lookup_seq in Ht as [-> Hlt].
  apply int32_wrap_small. lia.
Qed.

Lemma helper_calls_stacks (l : list buffer) :
  prepare_calls (@EvStack Row F <$> l) = [] ∧
  init_symbols_calls (@EvStack Row F <$> l) = [] ∧
  preprocess_calls (@EvStack Row F <$> l) = [] ∧
  next_calls (@EvStack Row F <$> l) = [] ∧
  sample_calls (@EvStack Row F <$> l) = [] ∧
  postprocess_calls (@EvStack Row F <$> l) = [].
Proof. split_and!; by apply omap_events_nil. Qed.

Lemma helper_calls_output_writes (l : list string) (t : Z) :
  prepare_calls (@output_writes Row F l t) = [] ∧
  init_symbols_calls (@output_writes Row F l t) = [] ∧
  preprocess_calls (@output_writes Row F l t) = [] ∧
  next_calls (@output_writes Row F l t) = [] ∧
  sample_calls (@output_writes Row F l t) = [] ∧
  postprocess_calls (@output_writes Row F l t) = [].
Proof. split_and!; by apply omap_events_nil. Qed.

Lemma prepare_calls_app (tr1 tr2 : list (@event Row F)) :
  prepare_calls (tr1 ++ tr2) = prepare_calls tr1 ++ prepare_calls tr2.
Proof. apply omap_app. Qed.

Lemma init_symbols_calls_app (tr1 tr2 : list (@event Row F)) :
  init_symbols_calls (tr1 ++ tr2)
  = init_symbols_calls tr1 ++ init_symbols_calls tr2.
Proof. apply omap_app. Qed.

Lemma preprocess_calls_app (tr1 tr2 : list (@event Row F)) :
  preprocess_calls (tr1 ++ tr2)
  = preprocess_calls tr1 ++ preprocess_calls tr2.
Proof. apply omap_app. Qed.

Lemma next_calls_app (tr1 tr2 : list (@event Row F)) :
  next_calls (tr1 ++ tr2) = next_calls tr1 ++ next_calls tr2.
Proof. apply omap_app. Qed.

Lemma sample_calls_app (tr1 tr2 : list (@event Row F)) :
  sample_calls (tr1 ++ tr2) = sample_calls tr1 ++ sample_calls tr2.
Proof. apply omap_app. Qed.

End MoreCallLemmas.

Ltac helper_calls :=
  rewrite ?prepare_calls_app, ?init_symbols_calls_app, ?preprocess_calls_app,
    ?next_calls_app, ?sample_calls_app, ?postprocess_calls_app.

Section BodyLog.
Context {Row Top Logit F EncoderOutput Bridge : Type}.
Variable decoder : @Decoder Row Top Logit F EncoderOutput Bridge.
Variable helper : @Feedback Logit F.
Variable target_modality : @Modality Row Top Logit.
Variable rem : DecoderOutputRemover.
Variable pre : Z → Tensor Row → Tensor Row.
Variable post : option (Tensor Row) → Tensor Row → Tensor Row.
Variable params : nest (Tensor Row).

#[local] Abbreviation body :=
  (body_traininfer decoder helper target_modality rem pre post params).
#[local] Abbreviation infer := (is_infer (mode decoder)).

(** The calls one execution of the body makes on the helper and on the
    hooks. *)
Lemma body_helper_calls (s s' : @LoopVars Row F) tr :
  body s = Done s' tr →
  prepare_calls tr = [] ∧ init_symbols_calls tr = [] ∧
  preprocess_calls tr = [(time s, inputs s)] ∧
  (∃ sample_ids,
     next_calls tr = [(time s, sample_ids)] ∧
     (is_Some sample_ids ↔ infer = true)) ∧
  (∃ prev emb, postprocess_calls tr = [(Some prev, emb)]) ∧
  (if infer then
     ∃ a, args s = Some a ∧
          sample_calls tr
          = [(time s, arg_log_probs a, finished s, arg_lengths a)]
   else sample_calls tr = []).
Proof.
  intros H. destruct infer eqn:Hinf.
  - destruct (body_infer_inv _ _ _ _ _ _ _ s s' tr Hinf H)
      as (a & outs' & st' & prev & ista & fin' & Ha & _ & _ & _ & _ & _
          & _ & ->).
    destruct (helper_calls_output_writes (Row:=Row) (F:=F)
                (outputs_ta s).*1 (time s)) as (W1 & W2 & W3 & W4 & W5 & W6).
    split_and!.
    + helper_calls. by rewrite W1.
    + helper_calls. by rewrite W2.
    + helper_calls. by rewrite W3.
    + eexists. split; [helper_calls; by rewrite W4|]. split; [done|eauto].
    + do 2 eexists. helper_calls. by rewrite W6.
    + exists a. split; [done|]. helper_calls. by rewrite W5.
  - destruct (body_train_inv _ _ _ _ _ _ _ s s' tr Hinf H)
      as (outs' & fin' & _ & _ & _ & ->).
    destruct (helper_calls_output_writes (Row:=Row) (F:=F)
                (outputs_ta s).*1 (time s)) as (W1 & W2 & W3 & W4 & W5 & W6).
    split_and!.
    + helper_calls. by rewrite W1.
    + helper_calls. by rewrite W2.
    + helper_calls. by rewrite W3.
    + eexists. split; [helper_calls; by rewrite W4|].
      split; [intros [? [=]]|done].
    + do 2 eexists. helper_calls. by rewrite W6.
    + helper_calls. by rewrite W5.
Qed.

End BodyLog.

Section HelperCalls.
Context {Row Top Logit F EncoderOutput Bridge : Type}.
Variable zero : F.
Variable static_shape : buffer → bool.
Variable decoder : @Decoder Row Top Logit F EncoderOutput Bridge.
Variable helper : @Feedback Logit F.
Variable target_modality : @Modality Row Top Logit.
Variable encoder_output : EncoderOutput.
Variable bridge : Bridge.

#[local] Abbreviation body :=
  (decode_body decoder helper target_modality encoder_output bridge).
#[local] Abbreviation s0 :=
  (initial_loop_vars zero static_shape decoder helper target_modality
      encoder_output
     bridge).
#[local] Abbreviation fields := (decode_fields decoder).
#[local] Abbreviation infer := (is_infer (mode decoder)).
#[local] Abbreviation decode :=
  (dynamic_decode zero static_shape decoder helper target_modality).

(** The calls on the helper and on the hooks in a run of [k] steps. *)
Lemma run_helper_calls (k : nat) (s : @LoopVars Row F) tr :
  iterate k body s0 = Done s tr →
  prepare_calls tr = [] ∧ init_symbols_calls tr = [] ∧
  (preprocess_calls tr).*1 = loop_times k ∧
  (next_calls tr).*1 = loop_times k ∧
  Forall (λ c, is_Some c.2 ↔ infer = true) (next_calls tr) ∧
  length (postprocess_calls tr) = k ∧
  Forall (λ c, is_Some c.1) (postprocess_calls tr) ∧
  (sample_calls tr).*1.*1.*1 = (if infer then loop_times k else []).
Proof.
  revert s tr. induction k as [|k IH]; intros s tr H.
  - cbn in H. unfold ret in H. injection H as <- <-.
    split_and!; try done. by destruct infer.
  - apply iterate_S_Done in H as (s1 & tr1 & tr2 & Hk & Hb & ->).
    destruct (IH _ _ Hk) as (P1 & P2 & P3 & P4 & P5 & P6 & P7 & P8).
    destruct (run_inv _ _ _ _ _ _ _ _ _ _ Hk) as (Ht & _).
    destruct (body_helper_calls _ _ _ _ _ _ _ _ _ _ Hb)
      as (B1 & B2 & B3 & (sids & B4 & B5) & (prev & emb & B6) & B7).
    helper_calls. rewrite loop_times_S, <- Ht.
    split_and!.
    + by rewrite P1, B1.
    + by rewrite P2, B2.
    + by rewrite fmap_app, P3, B3.
    + by rewrite fmap_app, P4, B4.
    + apply Forall_app. split; [done|]. rewrite B4. by constructor.
    + rewrite length_app, P6, B6. cbn. lia.
    + apply Forall_app. split; [done|]. rewrite B6.
      constructor; [by eexists|constructor].
    + rewrite !fmap_app, P8. destruct infer.
      * destruct B7 as (a & _ & ->). done.
      * by rewrite B7.
Qed.

(** While some buffer is kept, a run never reaches the point where the
    int32 counter wraps. *)
Lemma run_time_small (k : nat) (s : @LoopVars Row F) tr :
  iterate k body s0 = Done s tr →
  decode_buffers infer fields ≠ [] → Z.of_nat k ≤ 2 ^ 31.
Proof.
  destruct k as [|k]; [lia|]. intros H Hne.
  apply iterate_S_Done in H as (s1 & tr1 & tr2 & Hk & Hb & ->).
  destruct (run_inv _ _ _ _ _ _ _ _ _ _ Hk)
    as (Ht & Hn & _ & _ & _ & _ & Hbuf & Hargs).
  destruct (body_buffers _ _ _ _ _ _ _ _ Hb)
    as (e1 & e3 & e4 & e5 & Hw & _ & _ & _ & _ & _ & Hi & _).
  rewrite Ht in Hw.
  assert (Hdense : ∀ (j : nat) f ta,
             outputs_ta s1 !! j = Some (f, ta) → dense k ta).
  { intros j f ta Hj. destruct (Hbuf j f ta Hj) as (vs & ? & ? & _).
    by exists vs. }
  destruct (write_fields_dense k _ _ _ _ Hdense Hw) as [Hnonempty _].
  enough (Z.of_nat k < 2 ^ 31) by lia.
  destruct infer.
  - destruct Hargs as (a & Ha & D1 & D2 & D3 & D4).
    destruct (Hi eq_refl) as (a0 & a' & st & Ha0 & Ha' & Hws).
    rewrite Ha in Ha0. injection Ha0 as <-. rewrite Ht in Hws.
    by destruct (write_status_dense k _ _ _ _ D1 D2 D3 D4 Hws).
  - apply Hnonempty. intros Hnil. apply Hne.
    unfold decode_buffers. by rewrite <- Hn, Hnil.
Qed.

(** X1. A decode that returns has called [helper.init_symbols] and
    [decoder.prepare] exactly once each, and both before the loop: its log
    starts with the construction of the remover, [init_symbols], the
    post-processing of the first input and [prepare], and every call of
    [decoder.step], [helper.sample_symbols], [helper.next_symbols] and of the
    pre-processing hook comes after these four. *)
Theorem prepare_once_before_loop (fuel : nat) r tr :
  decode fuel encoder_output bridge = Done r tr →
  prepare_calls tr = [tt] ∧ init_symbols_calls tr = [tt] ∧
  ∃ tr',
    tr = setup_calls decoder helper target_modality ++ tr' ∧
    prepare_calls tr' = [] ∧ init_symbols_calls tr' = [] ∧
    step_calls tr' = step_calls tr ∧ sample_calls tr' = sample_calls tr ∧
    next_calls tr' = next_calls tr ∧
    preprocess_calls tr' = preprocess_calls tr.
Proof.
  intros H. apply dynamic_decode_Done in H
    as (k & s & trl & _ & Hit & _ & _ & _ & ->).
  destruct (run_helper_calls _ _ _ Hit) as (P1 & P2 & _).
  destruct (helper_calls_stacks (Row:=Row) (F:=F)
              (decode_buffers infer fields)) as (S1 & S2 & _).
  assert (prepare_calls (trl ++ (EvStack <$> decode_buffers infer fields))
          = []) as Hp by (helper_calls; by rewrite P1, S1).
  assert (init_symbols_calls
            (trl ++ (EvStack <$> decode_buffers infer fields)) = [])
    as Hi by (helper_calls; by rewrite P2, S2).
  split_and!.
  - rewrite prepare_calls_app, Hp. done.
  - rewrite init_symbols_calls_app, Hi. done.
  - eexists. split_and!; [reflexivity|done|done|..].
    + by rewrite (step_calls_app (setup_calls _ _ _)).
    + by rewrite (sample_calls_app (setup_calls _ _ _)).
    + by rewrite (next_calls_app (setup_calls _ _ _)).
    + by rewrite (preprocess_calls_app (setup_calls _ _ _)).
Qed.

(** X2. In a decode that returns after [T] steps the pre-processing hook and
    [helper.next_symbols] are called [T] times each and the post-processing
    hook [T + 1] times: once before the loop with [None] as the previous
    input, then once per step with a previous input.  [helper.sample_symbols]
    is called [T] times in inference and never otherwise, and
    [next_symbols] is given sample ids exactly in inference. *)
Theorem hook_and_helper_call_counts (fuel : nat) r tr :
  decode fuel encoder_output bridge = Done r tr →
  let T := length (step_calls tr) in
  length (preprocess_calls tr) = T ∧
  length (next_calls tr) = T ∧
  Forall (λ c, is_Some c.2 ↔ infer = true) (next_calls tr) ∧
  length (sample_calls tr) = (if infer then T else 0%nat) ∧
  ∃ rest,
    postprocess_calls tr
    = (None, _embed_words target_modality (init_symbols helper).2 0) :: rest ∧
    length rest = T ∧ Forall (λ c, is_Some c.1) rest.
Proof.
  intros H. apply dynamic_decode_Done in H
    as (k & s & trl & _ & Hit & _ & _ & _ & ->).
  destruct (decode_log _ _ _ _ _ _ _ _ _ _ Hit) as (_ & -> & _).
  destruct (run_helper_calls _ _ _ Hit)
    as (_ & _ & P3 & P4 & P5 & P6 & P7 & P8).
  destruct (helper_calls_stacks (Row:=Row) (F:=F)
              (decode_buffers infer fields)) as (_ & _ & S3 & S4 & S5 & S6).
  cbv zeta. helper_calls. rewrite S3, S4, S5, S6, !app_nil_r.
  cbn [setup_calls preprocess_calls next_calls sample_calls postprocess_calls
       omap list_omap app length].
  fold (preprocess_calls trl) (next_calls trl) (sample_calls trl)
    (postprocess_calls trl).
  split_and!.
  - by rewrite <- (length_fmap fst), P3, loop_times_length.
  - by rewrite <- (length_fmap fst), P4, loop_times_length.
  - done.
  - rewrite <- (length_fmap fst), <- (length_fmap fst),
      <- (length_fmap fst), P8.
    destruct infer; [apply loop_times_length|done].
  - by exists (postprocess_calls trl).
Qed.

(** X3. The pre-processing hook and [helper.next_symbols] see the times of
    the loop in order: the int32 counter values of steps 0 to [T - 1], and in
    inference so does [helper.sample_symbols].  While the decode keeps at
    least one buffer these are exactly 0, 1, ..., [T - 1]: a decode that
    returns has made at most 2^31 steps. *)
Theorem helper_sees_consecutive_times (fuel : nat) r tr :
  decode fuel encoder_output bridge = Done r tr →
  let T := length (step_calls tr) in
  (preprocess_calls tr).*1 = loop_times T ∧
  (next_calls tr).*1 = loop_times T ∧
  (infer = true → (sample_calls tr).*1.*1.*1 = loop_times T) ∧
  (decode_buffers infer fields ≠ [] →
     Z.of_nat T ≤ 2 ^ 31 ∧ loop_times T = Z.of_nat <$> seq 0 T).
Proof.
  intros H. apply dynamic_decode_Done in H
    as (k & s & trl & _ & Hit & _ & _ & _ & ->).
  destruct (decode_log _ _ _ _ _ _ _ _ _ _ Hit) as (_ & -> & _).
  destruct (run_helper_calls _ _ _ Hit)
    as (_ & _ & P3 & P4 & _ & _ & _ & P8).
  destruct (helper_calls_stacks (Row:=Row) (F:=F)
              (decode_buffers infer fields)) as (_ & _ & S3 & S4 & S5 & _).
  cbv zeta. helper_calls. rewrite S3, S4, S5, !app_nil_r.
  cbn [setup_calls preprocess_calls next_calls sample_calls
       omap list_omap app].
  fold (preprocess_calls trl) (next_calls trl) (sample_calls trl).
  split_and!.
  - done.
  - done.
  - intros Hinf. by rewrite P8, Hinf.
  - intros Hne. pose proof (run_time_small _ _ _ Hit Hne).
    split; [done|]. by apply loop_times_small.
Qed.

End HelperCalls.

(** ** Teacher-forced decodes *)



Section OutcomeProgress.
Context {Row F : Type}.




End OutcomeProgress.

Section BodyProgress.
Context {Row Top Logit F EncoderOutput Bridge : Type}.
Variable decoder : @Decoder Row Top Logit F EncoderOutput Bridge.
Variable helper : @Feedback Logit F.
Variable target_modality : @Modality Row Top Logit.
Variable rem : DecoderOutputRemover.
Variable pre : Z → Tensor Row → Tensor Row.
Variable post : option (Tensor Row) → Tensor Row → Tensor Row.
Variable params : nest (Tensor Row).

#[local] Abbreviation body :=
  (body_traininfer decoder helper target_modality rem pre post params).


End BodyProgress.

Section TeacherForcedRun.
Context {Row Top Logit F EncoderOutput Bridge : Type}.
Variable zero : F.
Variable static_shape : buffer → bool.
Variable decoder : @Decoder Row Top Logit F EncoderOutput Bridge.
Variable helper : @Feedback Logit F.
Variable target_modality : @Modality Row Top Logit.
Variable encoder_output : EncoderOutput.
Variable bridge : Bridge.

#[local] Abbreviation body :=
  (decode_body decoder helper target_modality encoder_output bridge).
#[local] Abbreviation s0 :=
  (initial_loop_vars zero static_shape decoder helper target_modality
      encoder_output
     bridge).
#[local] Abbreviation fields := (decode_fields decoder).
#[local] Abbreviation infer := (is_infer (mode decoder)).
#[local] Abbreviation decode :=
  (dynamic_decode zero static_shape decoder helper target_modality).
#[local] Abbreviation output_of :=
  (step_output decoder helper encoder_output bridge).
#[local] Abbreviation vars_at :=
  (train_at decoder helper target_modality encoder_output bridge).
#[local] Abbreviation call_at :=
  (train_call decoder helper target_modality encoder_output bridge).

Hypothesis Hinf : infer = false.

(** Outside inference the loop variables and the transition calls follow the
    recurrence [train_next]. *)
Lemma train_run (k : nat) (s : @LoopVars Row F) tr :
  iterate k body s0 = Done s tr →
  (time s, inputs s, decoder_states s) = vars_at k ∧
  step_calls tr = call_at <$> seq 0 k ∧
  next_calls tr = (λ t, ((vars_at t).1.1, None)) <$> seq 0 k.
Proof.
  revert s tr. induction k as [|k IH]; intros s tr H.
  - cbn in H. unfold ret in H. injection H as <- <-.
    split_and!; try done.
    unfold initial_loop_vars, train_at, train_start.
    cbn [time inputs decoder_states Nat.iter]. by rewrite Hinf.
  - apply iterate_S_Done in H as (s1 & tr1 & tr2 & Hk & Hb & ->).
    destruct (IH _ _ Hk) as (Hv & Hs & Hn).
    unfold decode_body in Hb.
    destruct (body_train_inv _ _ _ _ _ _ _ s1 s tr2 Hinf Hb)
      as (outs' & fin' & _ & _ & Hs' & ->).
    cbv zeta in Hs'.
    assert (Hcall : call_at k
                    = (step_inputs (inputs_prepost_processing_fn decoder).1 s1,
                       decoder_states s1)).
    { unfold train_call. by rewrite <- Hv. }
    pose proof (helper_calls_output_writes (Row:=Row) (F:=F)
                  (outputs_ta s1).*1 (time s1)) as (_ & _ & _ & W4 & _).
    split_and!.
    + rewrite Hs'. cbn [time inputs decoder_states].
      change (vars_at (Datatypes.S k))
        with (train_next decoder helper target_modality encoder_output bridge
                (vars_at k)).
      rewrite <- Hv. reflexivity.
    + rewrite !step_calls_app, step_calls_output_writes, Hs, seq_S,
        fmap_app.
      cbn [fmap list_fmap Nat.add]. rewrite Hcall. done.
    + rewrite !next_calls_app, W4, Hn, seq_S, fmap_app.
      cbn [fmap list_fmap Nat.add next_calls omap list_omap app].
      by rewrite <- Hv.
Qed.

(** X4. Outside inference a decode that returns is the recurrence
    [train_next] run [T] times: the [t]-th call of [decoder.step] gets the
    pre-processed input and the state of [train_at t], [helper.next_symbols]
    is called at the counter of [train_at t] without sample ids,
    [helper.sample_symbols] is never called, no beam search status is
    returned, and entry [t] of every returned buffer is the field of the
    filtered output of the [t]-th transition call. *)
Theorem teacher_forced_decode_recurrence (fuel : nat) r tr :
  decode fuel encoder_output bridge = Done r tr →
  let T := length (step_calls tr) in
  step_calls tr = call_at <$> seq 0 T ∧
  next_calls tr = (λ t, ((vars_at t).1.1, None)) <$> seq 0 T ∧
  sample_calls tr = [] ∧
  r.2 = None ∧
  ∀ (j : nat) f vs, r.1 !! j = Some (f, vs) →
    length vs = T ∧
    ∀ t : nat, (t < T)%nat →
      ∃ v, output_of (call_at t) !! j = Some (f, v) ∧ vs !! t = Some v.
Proof.
  intros H. apply dynamic_decode_Done in H
    as (k & s & trl & _ & Hit & _ & _ & Hfin & ->).
  destruct (decode_log _ _ _ _ _ _ _ _ _ _ Hit) as (Hsteps & -> & _).
  destruct (train_run _ _ _ Hit) as (_ & Hs & Hn).
  destruct (run_helper_calls _ _ _ _ _ _ _ _ _ _ Hit)
    as (_ & _ & _ & _ & _ & _ & _ & P8).
  destruct (finalize_run _ _ _ _ _ _ _ _ _ _ Hit
              (finalize_cond _ _ _ _ _ _ _ _ _ _ _ _ Hit Hfin))
    as (outs & st & Hfin' & _ & Hvals & Hst).
  rewrite Hfin' in Hfin. injection Hfin as <-.
  destruct (helper_calls_stacks (Row:=Row) (F:=F)
              (decode_buffers infer fields)) as (_ & _ & _ & S4 & S5 & _).
  rewrite Hinf in P8, Hst.
  cbv zeta. split_and!.
  - by rewrite Hsteps.
  - rewrite !next_calls_app, S4, app_nil_r. exact Hn.
  - rewrite !sample_calls_app, S5, app_nil_r. cbn.
    destruct (sample_calls trl); [done|discriminate].
  - done.
  - intros j f vs Hj. cbn [fst] in Hj.
    destruct (Hvals j f vs Hj) as [Hlen Hv]. split; [done|].
    intros t Ht. apply (Hv t). rewrite Hs, list_lookup_fmap.
    by rewrite lookup_seq_lt.
Qed.

Variable lens : list Z.
Hypothesis Hfields :
  ∀ x st,
    (step decoder x st
       (decode_params decoder helper encoder_output bridge)).1.*1
    = (output_dtype decoder).*1.
Hypothesis Hlens : Forall (λ l, l < 2 ^ 31) lens.
Hypothesis Hinit :
  (init_symbols helper).1 = (λ l, bool_decide (l ≤ 0)) <$> lens.
Hypothesis Hnext :
  ∀ t, 0 ≤ t →
    (next_symbols helper t None).1 = (λ l, bool_decide (l ≤ t + 1)) <$> lens.





End TeacherForcedRun.

(** ** The beam search status of an inference decode *)

Section StatusRun.
Context {Row Top Logit F EncoderOutput Bridge : Type}.
Variable zero : F.
Variable static_shape : buffer → bool.
Variable decoder : @Decoder Row Top Logit F EncoderOutput Bridge.
Variable helper : @Feedback Logit F.
Variable target_modality : @Modality Row Top Logit.
Variable encoder_output : EncoderOutput.
Variable bridge : Bridge.

#[local] Abbreviation body :=
  (decode_body decoder helper target_modality encoder_output bridge).
#[local] Abbreviation s0 :=
  (initial_loop_vars zero static_shape decoder helper target_modality
      encoder_output
     bridge).
#[local] Abbreviation fields := (decode_fields decoder).
#[local] Abbreviation infer := (is_infer (mode decoder)).
#[local] Abbreviation decode :=
  (dynamic_decode zero static_shape decoder helper target_modality).
#[local] Abbreviation result_of :=
  (sample_result decoder helper target_modality encoder_output bridge).
#[local] Abbreviation zero_log_probs :=
  (zeros_like zero (init_symbols helper).2).
#[local] Abbreviation zero_lengths :=
  (zeros_like 0 (init_symbols helper).2).

Hypothesis Hinf : infer = true.

(** After [k] steps of an inference run the status buffers hold what the [k]
    sampling calls returned, and the carried log-probabilities and lengths
    are the last recorded ones. *)
Lemma status_run (k : nat) (s : @LoopVars Row F) tr :
  iterate k body s0 = Done s tr →
  ∃ a (L : BeamSearchStateSpec (list (Tensor F)) (list (Tensor Z))),
    args s = Some a ∧
    ta_slots (log_probs (arg_infer_status_ta a)) = Some <$> log_probs L ∧
    ta_slots (predicted_ids (arg_infer_status_ta a))
      = Some <$> predicted_ids L ∧
    ta_slots (beam_ids (arg_infer_status_ta a)) = Some <$> beam_ids L ∧
    ta_slots (lengths (arg_infer_status_ta a)) = Some <$> lengths L ∧
    length (log_probs L) = k ∧ length (predicted_ids L) = k ∧
    length (beam_ids L) = k ∧ length (lengths L) = k ∧
    length (sample_calls tr) = k ∧
    ((λ p, p.1.1.2) <$> sample_calls tr) ++ [arg_log_probs a]
      = zero_log_probs :: log_probs L ∧
    ((λ p, p.2) <$> sample_calls tr) ++ [arg_lengths a]
      = zero_lengths :: lengths L ∧
    (next_calls tr).*2 = Some <$> predicted_ids L ∧
    ∀ (t : nat) c p,
      step_calls tr !! t = Some c → sample_calls tr !! t = Some p →
      log_probs L !! t = Some (result_of c p).1.2 ∧
      predicted_ids L !! t = Some (result_of c p).1.1.1 ∧
      beam_ids L !! t = Some (result_of c p).1.1.2 ∧
      lengths L !! t = Some (result_of c p).2.
Proof.
  revert s tr. induction k as [|k IH]; intros s tr H.
  - cbn in H. unfold ret in H. injection H as <- <-.
    unfold initial_loop_vars. cbn [args]. rewrite Hinf.
    eexists _, (mkBeamSearchStateSpec [] [] [] []).
    split_and!; try done.
  - apply iterate_S_Done in H as (s1 & tr1 & tr2 & Hk & Hb & ->).
    destruct (IH _ _ Hk)
      as (a & L & Ha & T1 & T2 & T3 & T4 & L1 & L2 & L3 & L4 & Ls & Hlp
          & Hln & Hnx & Hvals).
    destruct (run_inv _ _ _ _ _ _ _ _ _ _ Hk) as (Ht & _ & Hsc & _).
    unfold decode_body in Hb.
    destruct (body_infer_inv _ _ _ _ _ _ _ s1 s tr2 Hinf Hb)
      as (a' & outs' & st' & prev & ista & fin' & Ha' & _ & _ & _ & Hws & _
          & Hs' & ->).
    rewrite Ha in Ha'. injection Ha' as <-. cbv zeta in Hs'.
    apply write_status_Done in Hws as (_ & W1 & W2 & W3 & W4).
    cbn [log_probs predicted_ids beam_ids lengths] in W1, W2, W3, W4.
    rewrite Ht in W1, W2, W3, W4.
    destruct (ta_write_at_end _ _ _ _ _ T1 L1 W1) as [_ E1].
    destruct (ta_write_at_end _ _ _ _ _ T2 L2 W2) as [_ E2].
    destruct (ta_write_at_end _ _ _ _ _ T3 L3 W3) as [_ E3].
    destruct (ta_write_at_end _ _ _ _ _ T4 L4 W4) as [_ E4].
    set (res := step_sample decoder helper target_modality
                  (inputs_prepost_processing_fn decoder).1
                  (decode_params decoder helper encoder_output bridge) s1 a)
      in *.
    pose proof (helper_calls_output_writes (Row:=Row) (F:=F)
                  (outputs_ta s1).*1 (time s1)) as (_ & _ & _ & W4' & W5' & _).
    assert (Hsamp : sample_calls
                      ([EvPreprocess (time s1) (inputs s1);
                        EvStep (step_inputs
                                  (inputs_prepost_processing_fn decoder).1 s1)
                          (decoder_states s1)]
                       ++ output_writes (outputs_ta s1).*1 (time s1)
                       ++ [EvSample (time s1) (arg_log_probs a) (finished s1)
                             (arg_lengths a)] ++ status_writes (time s1)
                       ++ [EvNext (time s1) (Some res.1.1.1);
                           EvPostprocess (Some prev)
                             (_embed_words target_modality
                                (next_symbols helper (time s1)
                                   (Some res.1.1.1)).2
                                (int32_add (time s1) 1))])
                    = [(time s1, arg_log_probs a, finished s1,
                        arg_lengths a)]).
    { rewrite !sample_calls_app, W5'. reflexivity. }
    assert (Hstep : step_calls
                      ([EvPreprocess (time s1) (inputs s1);
                        EvStep (step_inputs
                                  (inputs_prepost_processing_fn decoder).1 s1)
                          (decoder_states s1)]
                       ++ output_writes (outputs_ta s1).*1 (time s1)
                       ++ [EvSample (time s1) (arg_log_probs a) (finished s1)
                             (arg_lengths a)] ++ status_writes (time s1)
                       ++ [EvNext (time s1) (Some res.1.1.1);
                           EvPostprocess (Some prev)
                             (_embed_words target_modality
                                (next_symbols helper (time s1)
                                   (Some res.1.1.1)).2
                                (int32_add (time s1) 1))])
                    = [(step_inputs
                          (inputs_prepost_processing_fn decoder).1 s1,
                        decoder_states s1)]).
    { rewrite !step_calls_app, step_calls_output_writes. reflexivity. }
    exists (mkInferArgs res.1.2 res.2 ista),
      (mkBeamSearchStateSpec (log_probs L ++ [res.1.2])
         (predicted_ids L ++ [res.1.1.1]) (beam_ids L ++ [res.1.1.2])
         (lengths L ++ [res.2])).
    cbn [log_probs predicted_ids beam_ids lengths arg_infer_status_ta
         arg_log_probs arg_lengths].
    rewrite sample_calls_app, step_calls_app, next_calls_app, Hsamp, Hstep.
    split_and!.
    + by rewrite Hs'.
    + by rewrite E1.
    + by rewrite E2.
    + by rewrite E3.
    + by rewrite E4.
    + rewrite length_app, L1. cbn. lia.
    + rewrite length_app, L2. cbn. lia.
    + rewrite length_app, L3. cbn. lia.
    + rewrite length_app, L4. cbn. lia.
    + rewrite length_app, Ls. cbn. lia.
    + rewrite fmap_app. cbn [fmap list_fmap fst snd]. rewrite Hlp. done.
    + rewrite fmap_app. cbn [fmap list_fmap fst snd]. rewrite Hln. done.
    + rewrite !next_calls_app, W4'. unfold status_writes.
      cbn [next_calls omap list_omap app]. rewrite !fmap_app, Hnx.
      reflexivity.
    + intros t c p Hc Hp.
      destruct (decide (t < k)%nat) as [Hlt|Hge].
      * rewrite lookup_app_l in Hc by lia.
        rewrite lookup_app_l in Hp by lia.
        rewrite !lookup_app_l by lia. by apply Hvals.
      * rewrite lookup_app_r in Hc by lia.
        rewrite lookup_app_r in Hp by lia.
        rewrite Hsc in Hc. rewrite Ls in Hp.
        destruct (t - k)%nat as [|n] eqn:Hn'; [|done].
        cbn in Hc, Hp. injection Hc as <-. injection Hp as <-.
        rewrite !lookup_app_r by lia.
        rewrite L1, L2, L3, L4, Hn'. done.
Qed.

(** The same for a decode that returns: the returned status is the content
    of the status buffers. *)
Lemma decode_status (fuel : nat) r tr :
  decode fuel encoder_output bridge = Done r tr →
  ∃ st last_log_probs last_lengths,
    r.2 = Some st ∧
    length (sample_calls tr) = length (step_calls tr) ∧
    ((λ p, p.1.1.2) <$> sample_calls tr) ++ [last_log_probs]
      = zero_log_probs :: log_probs st ∧
    ((λ p, p.2) <$> sample_calls tr) ++ [last_lengths]
      = zero_lengths :: lengths st ∧
    (next_calls tr).*2 = Some <$> predicted_ids st ∧
    ∀ (t : nat) c p,
      step_calls tr !! t = Some c → sample_calls tr !! t = Some p →
      log_probs st !! t = Some (result_of c p).1.2 ∧
      predicted_ids st !! t = Some (result_of c p).1.1.1 ∧
      beam_ids st !! t = Some (result_of c p).1.1.2 ∧
      lengths st !! t = Some (result_of c p).2.
Proof.
  intros H. apply dynamic_decode_Done in H
    as (k & s & trl & _ & Hit & _ & _ & Hfin & ->).
  destruct (decode_log _ _ _ _ _ _ _ _ _ _ Hit) as (Hsteps & Hlen & _).
  destruct (status_run _ _ _ Hit)
    as (a & L & Ha & T1 & T2 & T3 & T4 & _ & _ & _ & _ & Ls & Hlp & Hln
        & Hnx & Hvals).
  unfold finalize in Hfin. rewrite Hinf, Ha in Hfin.
  bind_inv Hfin. bind_inv Hfin. rename Hm0 into Hst.
  unfold ret in Hfin. injection Hfin as <- _.
  apply stack_status_Done in Hst as (_ & S1 & S2 & S3 & S4).
  apply ta_stack_Some in S1, S2, S3, S4.
  rewrite T1 in S1. rewrite T2 in S2. rewrite T3 in S3. rewrite T4 in S4.
  apply (inj (fmap Some)) in S1, S2, S3, S4.
  destruct (helper_calls_stacks (Row:=Row) (F:=F)
              (decode_buffers infer fields)) as (_ & _ & _ & N4 & N5 & _).
  assert (Hsamp : sample_calls
                    (setup_calls decoder helper target_modality ++ trl
                     ++ (EvStack <$> decode_buffers infer fields))
                  = sample_calls trl).
  { rewrite !sample_calls_app, N5, app_nil_r. reflexivity. }
  assert (Hnext : next_calls
                    (setup_calls decoder helper target_modality ++ trl
                     ++ (EvStack <$> decode_buffers infer fields))
                  = next_calls trl).
  { rewrite !next_calls_app, N4, app_nil_r. reflexivity. }
  eexists _, (arg_log_probs a), (arg_lengths a). cbn [snd].
  split; [reflexivity|].
  rewrite Hsamp, Hnext, Hsteps, <- S1, <- S2, <- S3, <- S4.
  split_and!; try done.
  rewrite Ls. destruct (run_inv _ _ _ _ _ _ _ _ _ _ Hit) as (_ & _ & -> & _).
  done.
Qed.

(** X6. In inference, entry [t] of each of the four returned status
    sequences is what [helper.sample_symbols] returned at step [t]: its
    third result in [log_probs], its first in [predicted_ids], its second in
    [beam_ids] and its fourth in [lengths], the logits of that call being
    computed from the unfiltered output of the [t]-th transition call. *)
Theorem status_records_sampling_results (fuel : nat) r tr :
  decode fuel encoder_output bridge = Done r tr →
  ∃ st,
    r.2 = Some st ∧
    length (sample_calls tr) = length (step_calls tr) ∧
    ∀ (t : nat) c p,
      step_calls tr !! t = Some c → sample_calls tr !! t = Some p →
      log_probs st !! t = Some (result_of c p).1.2 ∧
      predicted_ids st !! t = Some (result_of c p).1.1.1 ∧
      beam_ids st !! t = Some (result_of c p).1.1.2 ∧
      lengths st !! t = Some (result_of c p).2.
Proof.
  intros H.
  destruct (decode_status _ _ _ H)
    as (st & lp & ln & Hr & Hlen & _ & _ & _ & Hvals).
  by exists st.
Qed.

(** X7. In inference the values the loop carries are the recorded ones: the
    first call of [helper.sample_symbols] gets all-zero log-probabilities and
    lengths, shaped like the initial symbols; the call at step [t + 1] gets
    the log-probabilities and lengths recorded in the status at step [t];
    and [helper.next_symbols] at step [t] gets the sample ids recorded as
    [predicted_ids] at step [t]. *)
Theorem status_chains_sampling_calls (fuel : nat) r tr :
  decode fuel encoder_output bridge = Done r tr →
  ∃ st,
    r.2 = Some st ∧
    let T := length (step_calls tr) in
    (λ p, p.1.1.2) <$> sample_calls tr
      = take T (zero_log_probs :: log_probs st) ∧
    (λ p, p.2) <$> sample_calls tr = take T (zero_lengths :: lengths st) ∧
    (next_calls tr).*2 = Some <$> predicted_ids st.
Proof.
  intros H.
  destruct (decode_status _ _ _ H)
    as (st & lp & ln & Hr & Hlen & Hlp & Hln & Hnx & _).
  exists st. split; [done|]. cbv zeta. rewrite <- Hlen, <- Hlp, <- Hln.
  split_and!.
  - by rewrite <- (length_fmap (λ p, p.1.1.2)), take_app_length.
  - by rewrite <- (length_fmap (λ p, p.2)), take_app_length.
  - done.
Qed.

End StatusRun.

(** ** Accumulated log-probabilities *)

(** Log-probabilities are rationals here: the driver only creates zeros and
    passes the helper's values on, and the sums of the helper are exact. *)
Section LogProbs.
Context {Row Top Logit EncoderOutput Bridge : Type}.
Variable static_shape : buffer → bool.
Variable decoder : @Decoder Row Top Logit Q EncoderOutput Bridge.
Variable helper : @Feedback Logit Q.
Variable target_modality : @Modality Row Top Logit.
Variable encoder_output : EncoderOutput.
Variable bridge : Bridge.

#[local] Abbreviation decode :=
  (dynamic_decode 0%Q static_shape decoder helper target_modality).
#[local] Abbreviation result_of :=
  (sample_result decoder helper target_modality encoder_output bridge).
#[local] Abbreviation lanes := (length (init_symbols helper).2).

Lemma zeros_like_replicate {A B} (z : B) (x : Tensor A) :
  zeros_like z x = replicate (length x) z.
Proof. unfold zeros_like. induction x as [|a x IH]; cbn; by f_equal. Qed.

(** The prior of a sampling call is the entry before it in the sequence
    that starts with the zeros and goes on with the recorded values. *)
Lemma prior_lookup {A B} (f : A → B) (calls : list A) (last z : B)
    (recorded : list B) (t : nat) (p : A) :
  (f <$> calls) ++ [last] = z :: recorded →
  calls !! t = Some p →
  (z :: recorded) !! t = Some (f p).
Proof.
  intros <- Hp. apply lookup_app_l_Some. by rewrite list_lookup_fmap, Hp.
Qed.

Lemma prior_first {A B} (f : A → B) (calls : list A) (last z : B)
    (recorded : list B) (p : A) :
  (f <$> calls) ++ [last] = z :: recorded →
  calls !! 0%nat = Some p → f p = z.
Proof.
  intros H Hp. pose proof (prior_lookup f calls last z recorded 0 p H Hp) as Q.
  by injection Q.
Qed.

Lemma prior_next {A B} (f : A → B) (calls : list A) (last z : B)
    (recorded : list B) (t : nat) (p : A) :
  (f <$> calls) ++ [last] = z :: recorded →
  calls !! Datatypes.S t = Some p → recorded !! t = Some (f p).
Proof.
  intros H Hp.
  exact (prior_lookup f calls last z recorded (Datatypes.S t) p H Hp).
Qed.

(** C9.  In a returning inference decode the first call of
    [helper.sample_symbols] gets log-probability 0 and length 0 for every
    lane; every later call gets the log-probabilities and lengths the call
    before returned, which are also the ones recorded in the returned
    status.  So, for a helper that adds [-1/10] to lane 0 at every call,
    lane 0 of entry [t] of the returned log-probabilities is
    [-(t + 1)/10]: after 5 steps the last entry holds [-1/2]. *)
Theorem log_probs_accumulate (fuel : nat) r tr :
  is_infer (mode decoder) = true →
  decode fuel encoder_output bridge = Done r tr →
  ∃ st,
    r.2 = Some st ∧
    length (sample_calls tr) = length (step_calls tr) ∧
    (∀ p, sample_calls tr !! 0%nat = Some p →
       p.1.1.2 = replicate lanes 0%Q ∧ p.2 = replicate lanes 0) ∧
    (∀ (t : nat) c p,
       step_calls tr !! t = Some c → sample_calls tr !! t = Some p →
       log_probs st !! t = Some (result_of c p).1.2 ∧
       lengths st !! t = Some (result_of c p).2 ∧
       ∀ p', sample_calls tr !! Datatypes.S t = Some p' →
             p'.1.1.2 = (result_of c p).1.2 ∧ p'.2 = (result_of c p).2) ∧
    (lanes ≠ 0%nat →
     (∀ logits lp fin len t x, lp !! 0%nat = Some x →
        ∃ y, (sample_symbols helper logits lp fin len t).1.2 !! 0%nat
             = Some y ∧ (y == x + - (1 # 10))%Q) →
     (∀ (t : nat) lp, log_probs st !! t = Some lp →
        ∃ y, lp !! 0%nat = Some y ∧
             (y == inject_Z (Z.of_nat (Datatypes.S t)) * - (1 # 10))%Q) ∧
     (length (step_calls tr) = 5%nat →
      ∃ lp y, list.last (log_probs st) = Some lp ∧ lp !! 0%nat = Some y ∧
              (y == - (1 # 2))%Q)).
Proof.
  intros Hinf H.
  destruct (decode_status 0%Q static_shape decoder helper target_modality
              encoder_output bridge Hinf fuel r tr H)
    as (st & llp & lln & Hr & Hlen & Hlp & Hln & _ & Hvals).
  rewrite zeros_like_replicate in Hlp. rewrite zeros_like_replicate in Hln.
  assert (Hthread : ∀ (t : nat) c p,
    step_calls tr !! t = Some c → sample_calls tr !! t = Some p →
    log_probs st !! t = Some (result_of c p).1.2 ∧
    lengths st !! t = Some (result_of c p).2 ∧
    ∀ p', sample_calls tr !! Datatypes.S t = Some p' →
          p'.1.1.2 = (result_of c p).1.2 ∧ p'.2 = (result_of c p).2).
  { intros t c p Hc Hp. destruct (Hvals t c p Hc Hp) as (V1 & _ & _ & V4).
    split; [done|]. split; [done|]. intros p' Hp'.
    pose proof (prior_next _ _ _ _ _ _ _ Hlp Hp') as Q1.
    pose proof (prior_next _ _ _ _ _ _ _ Hln Hp') as Q2.
    cbv beta in Q1, Q2. rewrite V1 in Q1. rewrite V4 in Q2.
    injection Q1 as <-. injection Q2 as <-. done. }
  exists st. split; [done|]. split; [done|]. split; [|split; [done|]].
  - intros p Hp.
    pose proof (prior_first _ _ _ _ _ _ Hlp Hp) as Q1.
    pose proof (prior_first _ _ _ _ _ _ Hln Hp) as Q2.
    cbv beta in Q1, Q2. by rewrite Q1, Q2.
  - intros Hlanes Hadd.
    assert (Hprior : ∀ (t : nat) p, sample_calls tr !! t = Some p →
      ∃ x, p.1.1.2 !! 0%nat = Some x ∧
           (x == inject_Z (Z.of_nat t) * - (1 # 10))%Q).
    { induction t as [|t IH]; intros p Hp.
      - pose proof (prior_first _ _ _ _ _ _ Hlp Hp) as Q1.
        cbv beta in Q1. rewrite Q1. exists 0%Q. split.
        + destruct lanes; [done|reflexivity].
        + cbn. by rewrite Qmult_0_l.
      - destruct (lookup_lt_is_Some_2 (sample_calls tr) t) as [p0 Hp0].
        { apply lookup_lt_Some in Hp. lia. }
        destruct (lookup_lt_is_Some_2 (step_calls tr) t) as [c Hc].
        { apply lookup_lt_Some in Hp0. lia. }
        destruct (IH p0 Hp0) as (x & Hx & Heq).
        destruct (Hthread t c p0 Hc Hp0) as (_ & _ & Hnext).
        destruct (Hnext p Hp) as [-> _].
        destruct (Hadd
          (_compute_logits decoder target_modality
             (step decoder c.1 c.2
                (decode_params decoder helper encoder_output bridge)).1)
          p0.1.1.2 p0.1.2 p0.2 p0.1.1.1 x Hx) as (y & Hy & Hyx).
        exists y. split; [exact Hy|].
        rewrite Hyx, Heq, Nat2Z.inj_succ. unfold Z.succ.
        rewrite inject_Z_plus. ring. }
    assert (Hentry : ∀ (t : nat) lp, log_probs st !! t = Some lp →
      ∃ y, lp !! 0%nat = Some y ∧
           (y == inject_Z (Z.of_nat (Datatypes.S t)) * - (1 # 10))%Q).
    { intros t lp Ht.
      assert (length (log_probs st) = length (sample_calls tr)) as Hl.
      { apply (f_equal length) in Hlp.
        rewrite length_app, length_fmap in Hlp. cbn in Hlp. lia. }
      destruct (lookup_lt_is_Some_2 (sample_calls tr) t) as [p Hp].
      { apply lookup_lt_Some in Ht. lia. }
      destruct (lookup_lt_is_Some_2 (step_calls tr) t) as [c Hc].
      { apply lookup_lt_Some in Hp. lia. }
      destruct (Hprior t p Hp) as (x & Hx & Heq).
      destruct (Hthread t c p Hc Hp) as (V1 & _).
      rewrite V1 in Ht. injection Ht as <-.
      destruct (Hadd
        (_compute_logits decoder target_modality
           (step decoder c.1 c.2
              (decode_params decoder helper encoder_output bridge)).1)
        p.1.1.2 p.1.2 p.2 p.1.1.1 x Hx) as (y & Hy & Hyx).
      exists y. split; [exact Hy|].
      rewrite Hyx, Heq, Nat2Z.inj_succ. unfold Z.succ.
      rewrite inject_Z_plus. ring. }
    split; [exact Hentry|]. intros H5.
    assert (length (log_probs st) = 5%nat) as Hl.
    { apply (f_equal length) in Hlp.
      rewrite length_app, length_fmap in Hlp. cbn in Hlp. lia. }
    destruct (lookup_lt_is_Some_2 (log_probs st) 4) as [lp Hlp4]; [lia|].
    destruct (Hentry 4%nat lp Hlp4) as (y & Hy & Heq).
    exists lp, y. split; [|split; [exact Hy|]].
    + rewrite list.last_lookup, Hl. exact Hlp4.
    + rewrite Heq. reflexivity.
Qed.

End LogProbs.

(** ** The ignore-list and the course of a decode *)

Section IgnoreFields.
Context {Row Top Logit F EncoderOutput Bridge : Type}.
Variable zero : F.
Variable static_shape : buffer → bool.
Variable decoder : @Decoder Row Top Logit F EncoderOutput Bridge.
Variable helper : @Feedback Logit F.
Variable target_modality : @Modality Row Top Logit.
Variable encoder_output : EncoderOutput.
Variable bridge : Bridge.
Variable ignore_fields : option (list string).

#[local] Abbreviation decoder' := (with_ignore_fields decoder ignore_fields).
#[local] Abbreviation body :=
  (decode_body decoder helper target_modality encoder_output bridge).
#[local] Abbreviation body' :=
  (decode_body decoder' helper target_modality encoder_output bridge).
#[local] Abbreviation s0 :=
  (initial_loop_vars zero static_shape decoder helper target_modality
      encoder_output
     bridge).
#[local] Abbreviation s0' :=
  (initial_loop_vars zero static_shape decoder' helper target_modality
      encoder_output
     bridge).
#[local] Abbreviation infer := (is_infer (mode decoder)).

(** One step of the two decoders from loop variables that agree on all but
    the buffers: the same calls, and again such loop variables. *)
Lemma body_ignore_fields (s1 s2 s1' s2' : @LoopVars Row F) tr1 tr2 :
  same_carried s1 s2 →
  body s1 = Done s1' tr1 → body' s2 = Done s2' tr2 →
  same_carried s1' s2' ∧
  step_calls tr1 = step_calls tr2 ∧ sample_calls tr1 = sample_calls tr2 ∧
  next_calls tr1 = next_calls tr2 ∧
  preprocess_calls tr1 = preprocess_calls tr2 ∧
  postprocess_calls tr1 = postprocess_calls tr2.
Proof.
  intros (Ht & Hi & Hs & Hf & Ha) H1 H2. unfold decode_body in H1, H2.
  pose proof (helper_calls_output_writes (Row:=Row) (F:=F)
                (outputs_ta s1).*1 (time s1)) as (_ & _ & V3 & V4 & V5 & V6).
  pose proof (helper_calls_output_writes (Row:=Row) (F:=F)
                (outputs_ta s2).*1 (time s2)) as (_ & _ & W3 & W4 & W5 & W6).
  destruct infer eqn:Hinf.
  - destruct (body_infer_inv _ _ _ _ _ _ _ s1 s1' tr1 Hinf H1)
      as (a1 & o1 & st1 & p1 & i1 & f1 & Ha1 & _ & G1 & P1 & S1 & O1
          & -> & ->).
    destruct (body_infer_inv decoder' _ _ _ _ _ _ s2 s2' tr2 Hinf H2)
      as (a2 & o2 & st2 & p2 & i2 & f2 & Ha2 & _ & G2 & P2 & S2 & O2
          & -> & ->).
    rewrite Ha, Ha2 in Ha1. injection Ha1 as <-.
    unfold step_sample, step_result, step_inputs, _compute_logits in *.
    cbn [with_ignore_fields step merge_top_features mode
         inputs_prepost_processing_fn] in *.
    unfold decode_params in *.
    cbn [with_ignore_fields prepare mode] in *.
    rewrite Ht, Hi, Hs, Hf in *.
    rewrite G2 in G1. rewrite P2 in P1. rewrite S2 in S1. rewrite O2 in O1.
    injection G1 as <-. injection P1 as <-. injection S1 as <-.
    injection O1 as <-.
    split_and!.
    + unfold same_carried. cbn [time inputs decoder_states finished args].
      by rewrite ?Ht.
    + by rewrite !step_calls_app, !step_calls_output_writes.
    + by rewrite !sample_calls_app, V5, W5.
    + by rewrite !next_calls_app, V4, W4.
    + by rewrite !preprocess_calls_app, V3, W3.
    + by rewrite !postprocess_calls_app, V6, W6.
  - destruct (body_train_inv _ _ _ _ _ _ _ s1 s1' tr1 Hinf H1)
      as (o1 & f1 & _ & O1 & -> & ->).
    destruct (body_train_inv decoder' _ _ _ _ _ _ s2 s2' tr2 Hinf H2)
      as (o2 & f2 & _ & O2 & -> & ->).
    unfold step_result, step_inputs in *.
    cbn [with_ignore_fields step merge_top_features mode
         inputs_prepost_processing_fn] in *.
    unfold decode_params in *.
    cbn [with_ignore_fields prepare mode] in *.
    rewrite Ht, Hi, Hs, Hf in *.
    rewrite O2 in O1. injection O1 as <-.
    split_and!.
    + unfold same_carried. cbn [time inputs decoder_states finished args].
      by rewrite ?Ht.
    + by rewrite !step_calls_app, !step_calls_output_writes.
    + by rewrite !sample_calls_app, V5, W5.
    + by rewrite !next_calls_app, V4, W4.
    + by rewrite !preprocess_calls_app, V3, W3.
    + by rewrite !postprocess_calls_app, V6, W6.
Qed.

Lemma run_ignore_fields (k : nat) (s1 s2 : @LoopVars Row F) tr1 tr2 :
  iterate k body s0 = Done s1 tr1 → iterate k body' s0' = Done s2 tr2 →
  same_carried s1 s2 ∧
  step_calls tr1 = step_calls tr2 ∧ sample_calls tr1 = sample_calls tr2 ∧
  next_calls tr1 = next_calls tr2 ∧
  preprocess_calls tr1 = preprocess_calls tr2 ∧
  postprocess_calls tr1 = postprocess_calls tr2.
Proof.
  revert s1 s2 tr1 tr2. induction k as [|k IH]; intros s1 s2 tr1 tr2 H1 H2.
  - cbn in H1, H2. unfold ret in H1, H2.
    injection H1 as <- <-. injection H2 as <- <-.
    split_and!; done.
  - apply iterate_S_Done in H1 as (m1 & u1 & v1 & Hk1 & Hb1 & ->).
    apply iterate_S_Done in H2 as (m2 & u2 & v2 & Hk2 & Hb2 & ->).
    destruct (IH _ _ _ _ Hk1 Hk2) as (Hsame & E1 & E2 & E3 & E4 & E5).
    destruct (body_ignore_fields _ _ _ _ _ _ Hsame Hb1 Hb2)
      as (Hsame' & B1 & B2 & B3 & B4 & B5).
    split; [done|].
    rewrite !step_calls_app, !sample_calls_app, !next_calls_app,
      !preprocess_calls_app, !postprocess_calls_app.
    by rewrite E1, E2, E3, E4, E5, B1, B2, B3, B4, B5.
Qed.

Lemma finalize_status (d : @Decoder Row Top Logit F EncoderOutput Bridge)
    (s : @LoopVars Row F) r tr :
  finalize d s = Done r tr →
  if is_infer (mode d) then
    ∃ a st (trs : list (@event Row F)),
      args s = Some a ∧
      stack_status (arg_infer_status_ta a) = Done st trs ∧
                r.2 = Some st
  else r.2 = None.
Proof.
  unfold finalize. intros H. bind_inv H.
  destruct (is_infer (mode d)).
  - destruct (args s) as [ia|]; [|discriminate].
    bind_inv H. unfold ret in H. injection H as <- _.
    do 3 eexists. split_and!; [reflexivity|eassumption|reflexivity].
  - unfold ret in H. by injection H as <- _.
Qed.

(** X8. The ignore-list only selects what is buffered: when a decode and
    the decode of the same decoder with another ignore-list both return,
    they have executed the same number of steps, made the same calls of
    [decoder.step], of [helper.sample_symbols] and [helper.next_symbols] and
    of the two hooks, with the same arguments, and returned the same beam
    search status. *)
Theorem ignore_fields_do_not_steer (fuel fuel' : nat) r r' tr tr' :
  dynamic_decode zero static_shape decoder helper target_modality fuel
      encoder_output
    bridge = Done r tr →
  dynamic_decode zero static_shape decoder' helper target_modality fuel'
      encoder_output
    bridge = Done r' tr' →
  step_calls tr = step_calls tr' ∧ sample_calls tr = sample_calls tr' ∧
  next_calls tr = next_calls tr' ∧
  preprocess_calls tr = preprocess_calls tr' ∧
  postprocess_calls tr = postprocess_calls tr' ∧
  r.2 = r'.2.
Proof.
  intros H1 H2.
  apply dynamic_decode_Done in H1
    as (k1 & s1 & u1 & _ & Hit1 & Hc1 & Hb1 & Hf1 & ->).
  apply dynamic_decode_Done in H2
    as (k2 & s2 & u2 & _ & Hit2 & Hc2 & Hb2 & Hf2 & ->).
  assert (k1 = k2) as <-.
  { destruct (lt_eq_lt_dec k1 k2) as [[Hlt|Heq]|Hgt]; [|done|].
    - destruct (iterate_prefix k1 k2 _ _ _ _ ltac:(lia) Hit2)
        as (sj & trj & Hj).
      destruct (run_ignore_fields _ _ _ _ _ Hit1 Hj)
        as ((_ & _ & _ & Hfin & _) & _).
      specialize (Hb2 k1 sj trj Hlt Hj). congruence.
    - destruct (iterate_prefix k2 k1 _ _ _ _ ltac:(lia) Hit1)
        as (sj & trj & Hj).
      destruct (run_ignore_fields _ _ _ _ _ Hj Hit2)
        as ((_ & _ & _ & Hfin & _) & _).
      specialize (Hb1 k2 sj trj Hgt Hj). congruence. }
  destruct (run_ignore_fields _ _ _ _ _ Hit1 Hit2)
    as ((_ & _ & _ & _ & Hargs) & E1 & E2 & E3 & E4 & E5).
  pose proof (helper_calls_stacks (Row:=Row) (F:=F)
                (decode_buffers infer (decode_fields decoder)))
    as (_ & _ & V3 & V4 & V5 & V6).
  pose proof (helper_calls_stacks (Row:=Row) (F:=F)
                (decode_buffers (is_infer (mode decoder'))
                   (decode_fields decoder')))
    as (_ & _ & W3 & W4 & W5 & W6).
  split_and!.
  - by rewrite !step_calls_app, !step_calls_stacks, E1.
  - by rewrite !sample_calls_app, V5, W5, E2.
  - by rewrite !next_calls_app, V4, W4, E3.
  - by rewrite !preprocess_calls_app, V3, W3, E4.
  - by rewrite !postprocess_calls_app, V6, W6, E5.
  - apply finalize_status in Hf1, Hf2.
    change (is_infer (mode decoder')) with infer in Hf2.
    destruct infer.
    + destruct Hf1 as (a1 & st1 & t1 & Ha1 & Hs1 & ->).
      destruct Hf2 as (a2 & st2 & t2 & Ha2 & Hs2 & ->).
      rewrite Hargs, Ha2 in Ha1. injection Ha1 as <-.
      rewrite Hs2 in Hs1. by injection Hs1 as <- _.
    + by rewrite Hf1, Hf2.
Qed.

End IgnoreFields.

(** ** A reorder that keeps every lane in place *)

Section IdentityGather.
Context {A : Type}.

Lemma tf_gather_identity (x : Tensor A) :
  tf_gather x (identity_beam_ids (length x)) = Some x.
Proof.
  unfold tf_gather, identity_beam_ids. apply mapM_Some.
  apply Forall2_same_length_lookup_2.
  - by rewrite length_fmap, length_seq.
  - intros i b v Hb Hv. rewrite list_lookup_fmap in Hb.
    destruct (seq 0 (length x) !! i) as [n|] eqn:Hn; [|done].
    apply lookup_seq in Hn as [-> _]. cbn in Hb. injection Hb as <-.
    unfold gather_lane. rewrite bool_decide_true by lia.
    by rewrite Nat2Z.id.
Qed.

Lemma gather_states_identity (n : nat) (st : nest (Tensor A)) :
  nest_lanes n st → gather_states st (identity_beam_ids n) = Some st.
Proof.
  unfold gather_states. induction st as [x|l IH] using nest_ind.
  - cbn. intros <-. by rewrite tf_gather_identity.
  - cbn [nest_lanes map_structure_opt]. intros Hl.
    assert (mapM (map_structure_opt
                    (λ x : Tensor A, tf_gather x (identity_beam_ids n))) l
            = Some l) as ->; [|done].
    induction IH as [|st l Hst _ IHl]; [done|].
    cbn in Hl. destruct Hl as [Hst' Hl].
    cbn. rewrite (Hst Hst'). cbn. rewrite (IHl Hl). done.
Qed.

End IdentityGather.

Section IdentityReorder.
Context {Row Top Logit F EncoderOutput Bridge : Type}.
Variable decoder : @Decoder Row Top Logit F EncoderOutput Bridge.
Variable helper : @Feedback Logit F.
Variable target_modality : @Modality Row Top Logit.
Variable rem : DecoderOutputRemover.
Variable pre : Z → Tensor Row → Tensor Row.
Variable post : option (Tensor Row) → Tensor Row → Tensor Row.
Variable params : nest (Tensor Row).

#[local] Abbreviation body :=
  (body_traininfer decoder helper target_modality rem pre post params).
#[local] Abbreviation inputs_of := (step_inputs pre).
#[local] Abbreviation result_of := (step_result decoder pre params).
#[local] Abbreviation sample_of :=
  (step_sample decoder helper target_modality pre params).

(** X9. When the [beam_ids] the helper returns keep every lane in place, as
    a search with a single hypothesis per sentence does, the reorder of an
    inference step changes nothing: the carried state is the state the
    transition returned and the post-processing hook receives the
    pre-processed input of the step as its previous input. *)
Theorem identity_beam_ids_keep_state_and_input (n : nat)
    (s s' : @LoopVars Row F) tr a :
  is_infer (mode decoder) = true →
  args s = Some a →
  (sample_of s a).1.1.2 = identity_beam_ids n →
  length (inputs_of s) = n →
  nest_lanes n (result_of s).2 →
  body s = Done s' tr →
  decoder_states s' = (result_of s).2 ∧
  (postprocess_calls tr).*1 = [Some (inputs_of s)].
Proof.
  intros Hinf Ha Hids Hlen Hlanes H.
  destruct (body_infer_inv _ _ _ _ _ _ _ s s' tr Hinf H)
    as (a' & outs' & st' & prev & ista & fin' & Ha' & _ & Hg & Hp & _ & _
        & -> & ->).
  rewrite Ha in Ha'. injection Ha' as <-.
  rewrite Hids in Hg, Hp.
  rewrite (gather_states_identity n _ Hlanes) in Hg. injection Hg as <-.
  rewrite <- Hlen, tf_gather_identity in Hp. injection Hp as <-.
  split; [done|].
  rewrite !postprocess_calls_app.
  pose proof (helper_calls_output_writes (Row:=Row) (F:=F)
                (outputs_ta s).*1 (time s)) as (_ & _ & _ & _ & _ & ->).
  reflexivity.
Qed.

End IdentityReorder.

(** ** A transition that returns the wrong record *)

Section OutcomeFaults.
Context {Row F : Type}.

Lemma bind_Done_Fault {A B} (m : @outcome Row F A)
    (k : A → @outcome Row F B) (a : A) tr e :
  m = Done a tr → k a = Fault e → bind m k = Fault e.
Proof. intros -> H. cbn. by rewrite H. Qed.

(** A loop whose run reaches, with the condition always true, a state at
    which the body fails, fails there when it has the fuel to get there. *)
Lemma while_loop_Fault_run {S} (fuel k : nat) (cond : S → bool)
    (body : S → @outcome Row F S) (s s1 : S) tr1 e :
  iterate k body s = Done s1 tr1 →
  (∀ (j : nat) sj trj, (j ≤ k)%nat → iterate j body s = Done sj trj →
                       cond sj = true) →
  body s1 = Fault e →
  (k < fuel)%nat → while_loop fuel cond body s = Fault e.
Proof.
  revert s tr1 k. induction fuel as [|fuel IH]; intros s tr1 k Hit Hc Hf Hk;
    [lia|].
  cbn [while_loop]. rewrite (Hc 0%nat s [] ltac:(lia) eq_refl).
  destruct k as [|k].
  - cbn in Hit. unfold ret in Hit. injection Hit as <- _.
    by rewrite Hf.
  - cbn [iterate] in Hit.
    apply bind_Done_inv in Hit as (s' & tr & tr2 & Hb & Hit & _).
    rewrite Hb. cbn [bind].
    rewrite (IH s' tr2 k Hit); [done| |done|lia].
    intros j sj trj Hj Hsj.
    apply (Hc (Datatypes.S j) sj (tr ++ trj) ltac:(lia)).
    cbn [iterate]. rewrite Hb. cbn [bind]. by rewrite Hsj.
Qed.

(** With no more fuel than the steps of a run along which the condition
    holds, the loop is cut off. *)
Lemma while_loop_Timeout_le {S} (fuel k : nat) (cond : S → bool)
    (body : S → @outcome Row F S) (s s1 : S) tr1 :
  iterate k body s = Done s1 tr1 →
  (∀ (j : nat) sj trj, (j ≤ k)%nat → iterate j body s = Done sj trj →
                       cond sj = true) →
  (fuel ≤ k)%nat → while_loop fuel cond body s = Timeout.
Proof.
  revert s tr1 k. induction fuel as [|fuel IH]; intros s tr1 k Hit Hc Hk.
  - cbn. by rewrite (Hc 0%nat s [] ltac:(lia) eq_refl).
  - destruct k as [|k]; [lia|]. cbn [while_loop].
    rewrite (Hc 0%nat s [] ltac:(lia) eq_refl).
    cbn [iterate] in Hit.
    apply bind_Done_inv in Hit as (s' & tr & tr2 & Hb & Hit & _).
    rewrite Hb. cbn [bind].
    rewrite (IH s' tr2 k Hit); [done| |lia].
    intros j sj trj Hj Hsj.
    apply (Hc (Datatypes.S j) sj (tr ++ trj) ltac:(lia)).
    cbn [iterate]. rewrite Hb. cbn [bind]. by rewrite Hsj.
Qed.

End OutcomeFaults.

Section BodyFaults.
Context {Row Top Logit F EncoderOutput Bridge : Type}.
Variable decoder : @Decoder Row Top Logit F EncoderOutput Bridge.
Variable helper : @Feedback Logit F.
Variable target_modality : @Modality Row Top Logit.
Variable rem : DecoderOutputRemover.
Variable pre : Z → Tensor Row → Tensor Row.
Variable post : option (Tensor Row) → Tensor Row → Tensor Row.
Variable params : nest (Tensor Row).

#[local] Abbreviation body :=
  (body_traininfer decoder helper target_modality rem pre post params).
#[local] Abbreviation result_of := (step_result decoder pre params).

(** The body fails at the write of the outputs when the record kept of the
    transition's outputs has not the fields of the buffers. *)
Lemma body_structure_mismatch (s : @LoopVars Row F) :
  (outputs_ta s).*1 ≠ (remover_apply rem (result_of s).1).*1 →
  body s = Fault StructureMismatch.
Proof.
  intros Hne. unfold body_traininfer.
  unfold step_result, step_inputs in Hne.
  destruct (step decoder (pre (time s) (inputs s)) (decoder_states s) params)
    as [outputs nst] eqn:Hst.
  cbn [fst] in Hne.
  eapply bind_Done_Fault; [reflexivity|].
  eapply bind_Done_Fault; [reflexivity|].
  cbv beta. rewrite Hst.
  unfold write_fields. rewrite bool_decide_false by done. reflexivity.
Qed.

End BodyFaults.

Section DecodeFaults.
Context {Row Top Logit F EncoderOutput Bridge : Type}.
Variable zero : F.
Variable static_shape : buffer → bool.
Variable decoder : @Decoder Row Top Logit F EncoderOutput Bridge.
Variable helper : @Feedback Logit F.
Variable target_modality : @Modality Row Top Logit.
Variable encoder_output : EncoderOutput.
Variable bridge : Bridge.

#[local] Abbreviation body :=
  (decode_body decoder helper target_modality encoder_output bridge).
#[local] Abbreviation s0 :=
  (initial_loop_vars zero static_shape decoder helper target_modality
     encoder_output bridge).
#[local] Abbreviation fields := (decode_fields decoder).
#[local] Abbreviation decode :=
  (dynamic_decode zero static_shape decoder helper target_modality).
#[local] Abbreviation output_of :=
  (step_output decoder helper encoder_output bridge).

(** X10. A transition that returns the wrong record makes the decode fail.
    When the run of the loop reaches after [k] steps, the mask being all-true
    at no state so far, loop variables at which the record kept of the
    outputs of [decoder.step] has not the fields of the buffers, the decode
    fails there with a structure mismatch once it has the fuel for the step,
    and is cut off with less: it returns for no amount of fuel. *)
Theorem wrong_record_fails_decode (k : nat) (s : @LoopVars Row F) trl :
  iterate k body s0 = Done s trl →
  (∀ (j : nat) sj trj, (j ≤ k)%nat → iterate j body s0 = Done sj trj →
                       reduce_all (finished sj) = false) →
  (output_of (step_inputs (inputs_prepost_processing_fn decoder).1 s,
              decoder_states s)).*1 ≠ fields →
  ∀ fuel,
    ((fuel ≤ k)%nat → decode fuel encoder_output bridge = Timeout) ∧
    ((k < fuel)%nat →
       decode fuel encoder_output bridge = Fault StructureMismatch) ∧
    ∀ r tr, decode fuel encoder_output bridge ≠ Done r tr.
Proof.
  intros Hit Hbefore Hne fuel.
  destruct (run_inv _ _ _ _ _ _ _ _ _ _ Hit) as (_ & Hn & _).
  assert (Hf : body s = Fault StructureMismatch).
  { unfold decode_body. apply body_structure_mismatch.
    rewrite Hn. intros Heq. apply Hne. by rewrite Heq. }
  assert (Hcut : (fuel ≤ k)%nat →
                 decode fuel encoder_output bridge = Timeout).
  { intros Hle. rewrite dynamic_decode_unfold.
    rewrite (while_loop_Timeout_le fuel k loop_cond body s0 s trl Hit);
      [done| |done].
    intros j sj trj Hj Hsj. unfold loop_cond.
    by rewrite (Hbefore j sj trj Hj Hsj). }
  assert (Hfault : (k < fuel)%nat →
                   decode fuel encoder_output bridge
                   = Fault StructureMismatch).
  { intros Hlt. rewrite dynamic_decode_unfold.
    rewrite (while_loop_Fault_run fuel k loop_cond body s0 s trl
               StructureMismatch Hit); [done| |done|done].
    intros j sj trj Hj Hsj. unfold loop_cond.
    by rewrite (Hbefore j sj trj Hj Hsj). }
  split; [done|]. split; [done|]. intros r tr Hd.
  destruct (decide (fuel ≤ k)%nat) as [Hle|Hgt].
  - rewrite (Hcut Hle) in Hd. discriminate.
  - rewrite (Hfault ltac:(lia)) in Hd. discriminate.
Qed.

End DecodeFaults.

(** ** The flow of inputs and states through the loop *)

Section BodyFlow.
Context {Row Top Logit F EncoderOutput Bridge : Type}.
Variable decoder : @Decoder Row Top Logit F EncoderOutput Bridge.
Variable helper : @Feedback Logit F.
Variable target_modality : @Modality Row Top Logit.
Variable rem : DecoderOutputRemover.
Variable pre : Z → Tensor Row → Tensor Row.
Variable post : option (Tensor Row) → Tensor Row → Tensor Row.
Variable params : nest (Tensor Row).

#[local] Abbreviation body :=
  (body_traininfer decoder helper target_modality rem pre post params).
#[local] Abbreviation infer := (is_infer (mode decoder)).
#[local] Abbreviation result_of := (step_result decoder pre params).
#[local] Abbreviation sample_of :=
  (step_sample decoder helper target_modality pre params).

(** What one execution of the body hands from one collaborator to the
    next. *)
Lemma body_flow (s s' : @LoopVars Row F) tr :
  body s = Done s' tr →
  ∃ sample_ids prev,
    let emb :=
      _embed_words target_modality
        (next_symbols helper (time s) sample_ids).2 (int32_add (time s) 1) in
    preprocess_calls tr = [(time s, inputs s)] ∧
    step_calls tr = [(pre (time s) (inputs s), decoder_states s)] ∧
    next_calls tr = [(time s, sample_ids)] ∧
    postprocess_calls tr = [(Some prev, emb)] ∧
    inputs s' = post (Some prev) emb ∧
    (if infer then
       ∃ a, args s = Some a ∧
            sample_calls tr
            = [(time s, arg_log_probs a, finished s, arg_lengths a)] ∧
            gather_states (result_of s).2 (sample_of s a).1.1.2
            = Some (decoder_states s')
     else decoder_states s' = (result_of s).2).
Proof.
  intros H.
  pose proof (helper_calls_output_writes (Row:=Row) (F:=F)
                (outputs_ta s).*1 (time s)) as (_ & _ & W3 & W4 & W5 & W6).
  destruct infer eqn:Hinf.
  - destruct (body_infer_inv _ _ _ _ _ _ _ s s' tr Hinf H)
      as (a & outs' & st' & prev & ista & fin' & Ha & _ & Hg & _ & _ & _
          & -> & ->).
    exists (Some (sample_of s a).1.1.1), prev. cbv zeta.
    rewrite !preprocess_calls_app, !step_calls_app, !next_calls_app,
      !postprocess_calls_app, !sample_calls_app, W3, W4, W5, W6,
      step_calls_output_writes.
    split_and!; try reflexivity. exists a. by split_and!.
  - destruct (body_train_inv _ _ _ _ _ _ _ s s' tr Hinf H)
      as (outs' & fin' & _ & _ & -> & ->).
    exists None, (step_inputs pre s). cbv zeta.
    rewrite !preprocess_calls_app, !step_calls_app, !next_calls_app,
      !postprocess_calls_app, W3, W4, W6, step_calls_output_writes.
    split_and!; reflexivity.
Qed.

End BodyFlow.

Section DecodeFlow.
Context {Row Top Logit F EncoderOutput Bridge : Type}.
Variable zero : F.
Variable static_shape : buffer → bool.
Variable decoder : @Decoder Row Top Logit F EncoderOutput Bridge.
Variable helper : @Feedback Logit F.
Variable target_modality : @Modality Row Top Logit.
Variable encoder_output : EncoderOutput.
Variable bridge : Bridge.

#[local] Abbreviation body :=
  (decode_body decoder helper target_modality encoder_output bridge).
#[local] Abbreviation s0 :=
  (initial_loop_vars zero static_shape decoder helper target_modality
      encoder_output
     bridge).
#[local] Abbreviation fields := (decode_fields decoder).
#[local] Abbreviation infer := (is_infer (mode decoder)).
#[local] Abbreviation decode :=
  (dynamic_decode zero static_shape decoder helper target_modality).
#[local] Abbreviation pre := (inputs_prepost_processing_fn decoder).1.
#[local] Abbreviation post := (inputs_prepost_processing_fn decoder).2.
#[local] Abbreviation params :=
  (decode_params decoder helper encoder_output bridge).
#[local] Abbreviation result_of :=
  (sample_result decoder helper target_modality encoder_output bridge).
#[local] Abbreviation first_embedding :=
  (_embed_words target_modality (init_symbols helper).2 0).
#[local] Abbreviation next_embedding :=
  (λ nc : Z * option (Tensor Z),
     _embed_words target_modality (next_symbols helper nc.1 nc.2).2
       (int32_add nc.1 1)).

Lemma input_run (k : nat) (s : @LoopVars Row F) tr :
  iterate k body s0 = Done s tr →
  (step_calls tr).*1 = (λ pc, pre pc.1 pc.2) <$> preprocess_calls tr ∧
  (preprocess_calls tr).*2 ++ [inputs s]
    = post None first_embedding
      :: ((λ pc, post pc.1 pc.2) <$> postprocess_calls tr) ∧
  (postprocess_calls tr).*2 = next_embedding <$> next_calls tr.
Proof.
  revert s tr. induction k as [|k IH]; intros s tr H.
  - cbn in H. unfold ret in H. by injection H as <- <-.
  - apply iterate_S_Done in H as (s1 & tr1 & tr2 & Hk & Hb & ->).
    destruct (IH _ _ Hk) as (I1 & I2 & I3).
    unfold decode_body in Hb.
    destruct (body_flow _ _ _ _ _ _ _ _ _ _ Hb)
      as (sids & prev & B1 & B2 & B3 & B4 & B5 & _).
    rewrite !preprocess_calls_app, !step_calls_app, !next_calls_app,
      !postprocess_calls_app, B1, B2, B3, B4, B5.
    split_and!.
    + rewrite !fmap_app, I1. reflexivity.
    + rewrite !fmap_app, app_comm_cons, <- I2, <- !app_assoc. reflexivity.
    + rewrite !fmap_app, I3. reflexivity.
Qed.

Lemma decode_input_flow (fuel : nat) r tr :
  decode fuel encoder_output bridge = Done r tr →
  (step_calls tr).*1 = (λ pc, pre pc.1 pc.2) <$> preprocess_calls tr ∧
  (preprocess_calls tr).*2
    = take (length (step_calls tr))
        ((λ pc, post pc.1 pc.2) <$> postprocess_calls tr) ∧
  (postprocess_calls tr).*2 = first_embedding :: (next_embedding <$> next_calls tr).
Proof.
  intros H. apply dynamic_decode_Done in H
    as (k & s & trl & _ & Hit & _ & _ & _ & ->).
  destruct (decode_log _ _ _ _ _ _ _ _ _ _ Hit) as (Hsteps & Hlen & _).
  destruct (input_run _ _ _ Hit) as (I1 & I2 & I3).
  destruct (run_helper_calls _ _ _ _ _ _ _ _ _ _ Hit)
    as (_ & _ & P3 & _).
  destruct (helper_calls_stacks (Row:=Row) (F:=F)
              (decode_buffers infer fields)) as (_ & _ & S3 & S4 & _ & S6).
  rewrite Hlen, Hsteps.
  assert (Hpre : preprocess_calls
                   (setup_calls decoder helper target_modality ++ trl
                    ++ (EvStack <$> decode_buffers infer fields))
                 = preprocess_calls trl).
  { rewrite !preprocess_calls_app, S3, app_nil_r. reflexivity. }
  assert (Hnext : next_calls
                    (setup_calls decoder helper target_modality ++ trl
                     ++ (EvStack <$> decode_buffers infer fields))
                  = next_calls trl).
  { rewrite !next_calls_app, S4, app_nil_r. reflexivity. }
  assert (Hpost : postprocess_calls
                    (setup_calls decoder helper target_modality ++ trl
                     ++ (EvStack <$> decode_buffers infer fields))
                  = (None, first_embedding) :: postprocess_calls trl).
  { rewrite !postprocess_calls_app, S6, app_nil_r. reflexivity. }
  rewrite Hpre, Hnext, Hpost. split_and!.
  - done.
  - rewrite fmap_cons. cbn [fst snd]. rewrite <- I2.
    assert (length (preprocess_calls trl).*2 = k) as Hk.
    { by rewrite length_fmap, <- (length_fmap fst), P3, loop_times_length. }
    by rewrite <- Hk, take_app_length.
  - cbn [fmap list_fmap snd]. by rewrite <- I3.
Qed.

(** X11. The inputs of a decode flow through the hooks: the post-processing
    hook's second argument is the embedding at time 0 of the initial symbols
    and then, step after step, the embedding at the next time of the symbols
    [helper.next_symbols] just returned; the input the pre-processing hook
    receives at step [t] is the result of the [t]-th call of the
    post-processing hook; and the input of [decoder.step] is the result of
    the pre-processing hook. *)
Theorem inputs_flow_through_hooks (fuel : nat) r tr :
  decode fuel encoder_output bridge = Done r tr →
  (postprocess_calls tr).*2
    = first_embedding :: (next_embedding <$> next_calls tr) ∧
  (preprocess_calls tr).*2
    = take (length (step_calls tr))
        ((λ pc, post pc.1 pc.2) <$> postprocess_calls tr) ∧
  (step_calls tr).*1 = (λ pc, pre pc.1 pc.2) <$> preprocess_calls tr.
Proof.
  intros H. destruct (decode_input_flow _ _ _ H) as (I1 & I2 & I3). done.
Qed.

(** X12. With the default hooks, which return their input unchanged, the
    input of the [t]-th call of [decoder.step] is the embedding itself: of
    the initial symbols at time 0 for the first call, and of the symbols
    [helper.next_symbols] returned at the step before for the others. *)
Theorem default_hooks_feed_embeddings (fuel : nat) r tr :
  inputs_prepost_processing_fn decoder = default_inputs_prepost_processing_fn →
  decode fuel encoder_output bridge = Done r tr →
  (step_calls tr).*1
  = take (length (step_calls tr))
      (first_embedding :: (next_embedding <$> next_calls tr)).
Proof.
  intros Hdef H. destruct (decode_input_flow _ _ _ H) as (I1 & I2 & I3).
  rewrite Hdef in I1, I2. unfold default_inputs_prepost_processing_fn in I1, I2.
  cbn [fst snd] in I1, I2.
  rewrite I1, <- I3.
  change (λ pc : Z * Tensor Row, pc.2) with (@snd Z (Tensor Row)).
  rewrite I2. f_equal.
Qed.

Lemma state_run (k : nat) (s : @LoopVars Row F) tr :
  iterate k body s0 = Done s tr →
  let states := (step_calls tr).*2 ++ [decoder_states s] in
  states !! 0%nat = Some (decoder_states s0) ∧
  ∀ (t : nat) c, step_calls tr !! t = Some c →
    if infer then
      ∃ p st', sample_calls tr !! t = Some p ∧
               gather_states (step decoder c.1 c.2 params).2
                 (result_of c p).1.1.2 = Some st' ∧
               states !! Datatypes.S t = Some st'
    else states !! Datatypes.S t = Some (step decoder c.1 c.2 params).2.
Proof.
  revert s tr. induction k as [|k IH]; intros s tr H.
  - cbn in H. unfold ret in H. injection H as <- <-. cbv zeta.
    split; [done|]. intros t c Hc. done.
  - apply iterate_S_Done in H as (s1 & tr1 & tr2 & Hk & Hb & ->).
    destruct (IH _ _ Hk) as (I0 & I1). cbv zeta in I0, I1.
    destruct (run_inv _ _ _ _ _ _ _ _ _ _ Hk) as (_ & _ & Hsc & _).
    destruct (run_helper_calls _ _ _ _ _ _ _ _ _ _ Hk)
      as (_ & _ & _ & _ & _ & _ & _ & P8).
    unfold decode_body in Hb.
    destruct (body_flow _ _ _ _ _ _ _ _ _ _ Hb)
      as (sids & prev & _ & B2 & _ & _ & _ & B6).
    cbv zeta.
    rewrite step_calls_app, sample_calls_app, B2, fmap_app, <- app_assoc.
    cbn [fmap list_fmap snd app].
    assert (Hlen : length (step_calls tr1).*2 = k) by by rewrite length_fmap.
    assert (Hsplit : (step_calls tr1).*2
                     ++ [decoder_states s1; decoder_states s]
                     = ((step_calls tr1).*2 ++ [decoder_states s1])
                       ++ [decoder_states s])
      by (by rewrite <- app_assoc).
    split.
    + rewrite Hsplit, lookup_app_l; [done|].
      rewrite length_app. cbn. lia.
    + intros t c Hc.
      destruct (decide (t < k)%nat) as [Hlt|Hge].
      * rewrite lookup_app_l in Hc by lia. specialize (I1 t c Hc).
        destruct infer.
        -- destruct I1 as (p & st' & Hp & Hg & Hst).
           exists p, st'. split_and!; [|done|].
           ++ by apply lookup_app_l_Some.
           ++ rewrite Hsplit. by apply lookup_app_l_Some.
        -- rewrite Hsplit. by apply lookup_app_l_Some.
      * rewrite lookup_app_r in Hc by lia. rewrite Hsc in Hc.
        destruct (t - k)%nat as [|n] eqn:Hn'; [|done].
        cbn in Hc. injection Hc as <-.
        assert (t = k) as -> by lia.
        assert (Hlast : ((step_calls tr1).*2
                         ++ [decoder_states s1; decoder_states s])
                        !! Datatypes.S k = Some (decoder_states s)).
        { rewrite lookup_app_r by lia. rewrite Hlen.
          by replace (Datatypes.S k - k)%nat with 1%nat by lia. }
        destruct infer.
        -- destruct B6 as (a & Ha & -> & Hg).
           assert (length (sample_calls tr1) = k) as Hls.
           { rewrite <- (length_fmap fst), <- (length_fmap fst),
               <- (length_fmap fst), P8. apply loop_times_length. }
           eexists _, (decoder_states s). split_and!.
           ++ rewrite lookup_app_r by lia. rewrite Hls, Nat.sub_diag.
              reflexivity.
           ++ exact Hg.
           ++ exact Hlast.
        -- rewrite Hlast, B6. reflexivity.
Qed.

(** X13. The decoder state flows from one transition to the next: the first
    call of [decoder.step] gets the state [decoder.prepare] returned, tiled
    by the beam size in inference; a later call gets the new state the call
    before returned, in inference gathered by the [beam_ids] that
    [helper.sample_symbols] returned at that step. *)
Theorem states_flow_through_steps (fuel : nat) r tr :
  decode fuel encoder_output bridge = Done r tr →
  (∀ c, step_calls tr !! 0%nat = Some c →
     c.2 = let st := (prepare decoder encoder_output bridge helper).1 in
           if infer then stack_beam_size st (beam_size helper) else st) ∧
  ∀ (t : nat) c c',
    step_calls tr !! t = Some c → step_calls tr !! Datatypes.S t = Some c' →
    if infer then
      ∃ p, sample_calls tr !! t = Some p ∧
           gather_states (step decoder c.1 c.2 params).2
             (result_of c p).1.1.2 = Some c'.2
    else c'.2 = (step decoder c.1 c.2 params).2.
Proof.
  intros H. apply dynamic_decode_Done in H
    as (k & s & trl & _ & Hit & _ & _ & _ & ->).
  destruct (decode_log _ _ _ _ _ _ _ _ _ _ Hit) as (Hsteps & _).
  destruct (state_run _ _ _ Hit) as (I0 & I1). cbv zeta in I0, I1.
  destruct (helper_calls_stacks (Row:=Row) (F:=F)
              (decode_buffers infer fields)) as (_ & _ & _ & _ & S5 & _).
  assert (Hsamp : sample_calls
                    (setup_calls decoder helper target_modality ++ trl
                     ++ (EvStack <$> decode_buffers infer fields))
                  = sample_calls trl).
  { rewrite !sample_calls_app, S5, app_nil_r. reflexivity. }
  rewrite Hsteps, Hsamp. split.
  - intros c Hc.
    assert ((step_calls trl).*2 !! 0%nat = Some c.2) as Hc2
      by (by rewrite list_lookup_fmap, Hc).
    rewrite (lookup_app_l_Some _ _ _ _ Hc2) in I0.
    injection I0 as ->. reflexivity.
  - intros t c c' Hc Hc'. specialize (I1 t c Hc).
    assert ((step_calls trl).*2 !! Datatypes.S t = Some c'.2) as Hc2
      by (by rewrite list_lookup_fmap, Hc').
    destruct infer.
    + destruct I1 as (p & st' & Hp & Hg & Hst).
      rewrite (lookup_app_l_Some _ _ _ _ Hc2) in Hst. injection Hst as <-.
      by exists p.
    + rewrite (lookup_app_l_Some _ _ _ _ Hc2) in I1. by injection I1 as <-.
Qed.

End DecodeFlow.

(** * The further properties on the concrete decodes *)

(** In the inference decode stopped at time 3, [prepare] and [init_symbols]
    are called once each. *)
Lemma prepare_once_witness :
  ∃ r tr,
    Demo.infer_decode 5 Demo.stop3 = Done r tr ∧
    prepare_calls tr = [tt] ∧ init_symbols_calls tr = [tt].
Proof.
  destruct (Demo.infer_decode 5 Demo.stop3) as [r tr| |] eqn:Hd;
    [|vm_compute in Hd; discriminate..].
  destruct (prepare_once_before_loop 0%Q Demo.dynamic_shapes (Demo.decoder
      INFER)
              (Demo.helper 2 Demo.stop3) Demo.modality 1%nat tt 5 r tr Hd)
    as (Hp & Hi & _).
  exists r, tr. split; [reflexivity|]. split; [exact Hp | exact Hi].
Defined.

(** The same decode makes four steps: four calls of the pre-processing hook,
    of [next_symbols] and of [sample_symbols], five of the post-processing
    hook. *)
Lemma call_counts_witness :
  ∃ r tr,
    Demo.infer_decode 5 Demo.stop3 = Done r tr ∧
    length (step_calls tr) = 4%nat ∧
    length (preprocess_calls tr) = 4%nat ∧
    length (next_calls tr) = 4%nat ∧
    length (sample_calls tr) = 4%nat ∧
    length (postprocess_calls tr) = 5%nat.
Proof.
  destruct (Demo.infer_decode 5 Demo.stop3) as [r tr| |] eqn:Hd;
    [|vm_compute in Hd; discriminate..].
  destruct (hook_and_helper_call_counts 0%Q Demo.dynamic_shapes (Demo.decoder
      INFER)
              (Demo.helper 2 Demo.stop3) Demo.modality 1%nat tt 5 r tr Hd)
    as (H1 & H2 & _ & H4 & rest & H5 & H6 & _).
  assert (Hlen : length (step_calls tr) = 4%nat).
  { vm_compute in Hd. injection Hd as _ <-. reflexivity. }
  exists r, tr. split; [reflexivity|]. split; [exact Hlen|].
  rewrite Hlen in H1, H2, H4, H6.
  split; [exact H1|]. split; [exact H2|]. split; [exact H4|].
  rewrite H5. cbn [length]. rewrite H6. reflexivity.
Defined.

(** In the teacher-forced decode of two sentences of length 3 the helper
    sees the times 0, 1 and 2. *)
Lemma consecutive_times_witness :
  ∃ r tr,
    Demo.train_decode 5 (Demo.stop_len 3) = Done r tr ∧
    (preprocess_calls tr).*1 = [0; 1; 2] ∧ (next_calls tr).*1 = [0; 1; 2].
Proof.
  destruct (Demo.train_decode 5 (Demo.stop_len 3)) as [r tr| |] eqn:Hd;
    [|vm_compute in Hd; discriminate..].
  destruct (helper_sees_consecutive_times 0%Q Demo.dynamic_shapes
      (Demo.decoder TRAIN)
              (Demo.helper 2 (Demo.stop_len 3)) Demo.modality 2%nat tt 5 r tr
              Hd) as (H1 & H2 & _).
  assert (Hlen : length (step_calls tr) = 3%nat).
  { vm_compute in Hd. injection Hd as _ <-. reflexivity. }
  rewrite Hlen in H1, H2.
  exists r, tr. split; [reflexivity|]. split; [exact H1 | exact H2].
Defined.

(** The teacher-forced decode follows the recurrence for three steps and
    returns no status. *)
Lemma teacher_forced_recurrence_witness :
  ∃ r tr,
    Demo.train_decode 5 (Demo.stop_len 3) = Done r tr ∧
    step_calls tr
    = train_call (Demo.decoder TRAIN) (Demo.helper 2 (Demo.stop_len 3))
        Demo.modality 2%nat tt <$> [0; 1; 2]%nat ∧
    sample_calls tr = [] ∧ r.2 = None.
Proof.
  destruct (Demo.train_decode 5 (Demo.stop_len 3)) as [r tr| |] eqn:Hd;
    [|vm_compute in Hd; discriminate..].
  destruct (teacher_forced_decode_recurrence 0%Q Demo.dynamic_shapes
      (Demo.decoder TRAIN)
              (Demo.helper 2 (Demo.stop_len 3)) Demo.modality 2%nat tt
              eq_refl 5 r tr Hd) as (H1 & _ & H3 & H4 & _).
  assert (Hlen : length (step_calls tr) = 3%nat).
  { vm_compute in Hd. injection Hd as _ <-. reflexivity. }
  rewrite Hlen in H1.
  exists r, tr. split; [reflexivity|]. split; [exact H1|].
  split; [exact H3 | exact H4].
Defined.


(** In the inference decode the first entry of every status sequence is
    what the first sampling call returned. *)
Lemma status_results_witness :
  ∃ r tr st c p,
    Demo.infer_decode 5 Demo.stop3 = Done r tr ∧ r.2 = Some st ∧
    step_calls tr !! 0%nat = Some c ∧ sample_calls tr !! 0%nat = Some p ∧
    let res :=
      sample_result (Demo.decoder INFER) (Demo.helper 2 Demo.stop3)
        Demo.modality 1%nat tt c p in
    log_probs st !! 0%nat = Some res.1.2 ∧
    predicted_ids st !! 0%nat = Some res.1.1.1 ∧
    beam_ids st !! 0%nat = Some res.1.1.2 ∧
    lengths st !! 0%nat = Some res.2.
Proof.
  destruct (Demo.infer_decode 5 Demo.stop3) as [r tr| |] eqn:Hd;
    [|vm_compute in Hd; discriminate..].
  destruct (status_records_sampling_results 0%Q Demo.dynamic_shapes
      (Demo.decoder INFER)
              (Demo.helper 2 Demo.stop3) Demo.modality 1%nat tt eq_refl 5 r
              tr Hd) as (st & Hr & _ & Hvals).
  destruct (step_calls tr !! 0%nat) as [c|] eqn:Hc;
    [|vm_compute in Hd; injection Hd as _ <-; discriminate].
  destruct (sample_calls tr !! 0%nat) as [p|] eqn:Hp;
    [|vm_compute in Hd; injection Hd as _ <-; discriminate].
  exists r, tr, st, c, p.
  split; [reflexivity|]. split; [exact Hr|]. split; [exact Hc|].
  split; [exact Hp|]. exact (Hvals 0%nat c p Hc Hp).
Defined.

(** In the inference decode the log-probabilities given to the four sampling
    calls are zeros and then the first three recorded ones. *)
Lemma status_chain_witness :
  ∃ r tr st,
    Demo.infer_decode 5 Demo.stop3 = Done r tr ∧ r.2 = Some st ∧
    (λ p, p.1.1.2) <$> sample_calls tr
    = take 4 ([0%Q; 0%Q] :: log_probs st) ∧
    (next_calls tr).*2 = Some <$> predicted_ids st.
Proof.
  destruct (Demo.infer_decode 5 Demo.stop3) as [r tr| |] eqn:Hd;
    [|vm_compute in Hd; discriminate..].
  destruct (status_chains_sampling_calls 0%Q Demo.dynamic_shapes (Demo.decoder
      INFER)
              (Demo.helper 2 Demo.stop3) Demo.modality 1%nat tt eq_refl 5 r
              tr Hd) as (st & Hr & H1 & _ & H3).
  assert (Hlen : length (step_calls tr) = 4%nat).
  { vm_compute in Hd. injection Hd as _ <-. reflexivity. }
  rewrite Hlen in H1.
  exists r, tr, st. split; [reflexivity|]. split; [exact Hr|].
  split; [exact H1 | exact H3].
Defined.

(** The inference decode without an ignore-list makes the same transition
    calls and returns the same status as the one that ignores a field. *)
Lemma ignore_fields_witness :
  ∃ r tr r' tr',
    Demo.infer_decode 5 Demo.stop3 = Done r tr ∧
    dynamic_decode 0%Q Demo.dynamic_shapes
      (with_ignore_fields (Demo.decoder INFER) None)
      (Demo.helper 2 Demo.stop3) Demo.modality 6 1%nat tt = Done r' tr' ∧
    step_calls tr = step_calls tr' ∧ r.2 = r'.2.
Proof.
  destruct (Demo.infer_decode 5 Demo.stop3) as [r tr| |] eqn:Hd;
    [|vm_compute in Hd; discriminate..].
  destruct (dynamic_decode 0%Q Demo.dynamic_shapes
      (with_ignore_fields (Demo.decoder INFER) None)
              (Demo.helper 2 Demo.stop3) Demo.modality 6 1%nat tt)
    as [r' tr'| |] eqn:Hd'; [|vm_compute in Hd'; discriminate..].
  destruct (ignore_fields_do_not_steer 0%Q Demo.dynamic_shapes (Demo.decoder
      INFER)
              (Demo.helper 2 Demo.stop3) Demo.modality 1%nat tt None 5 6 r r'
              tr tr' Hd Hd') as (H1 & _ & _ & _ & _ & H6).
  exists r, tr, r', tr'.
  split; [reflexivity|]. split; [reflexivity|].
  split; [exact H1 | exact H6].
Defined.

(** The first step of the greedy decode: [beam_ids = [0]], and the state
    the transition returned is carried as it is. *)
Lemma identity_beam_ids_witness :
  ∃ s' tr,
    decode_body (Demo.decoder INFER) (Demo.helper 1 Demo.stop3)
      Demo.modality 1%nat tt Demo.greedy_vars = Done s' tr ∧
    decoder_states s' = Leaf [10] ∧
    (postprocess_calls tr).*1 = [Some [10]].
Proof.
  destruct (decode_body (Demo.decoder INFER) (Demo.helper 1 Demo.stop3)
              Demo.modality 1%nat tt Demo.greedy_vars)
    as [s' tr| |] eqn:Hb; [|vm_compute in Hb; discriminate..].
  destruct (args Demo.greedy_vars) as [a|] eqn:Ha;
    [|vm_compute in Ha; discriminate].
  assert (Ha' : a = mkInferArgs [0%Q] [0]
                      (mkBeamSearchStateSpec (_create_ta false tf_float32)
                         (_create_ta false tf_int32)
                         (_create_ta false tf_int32)
                         (_create_ta false tf_int32))).
  { vm_compute in Ha. injection Ha as <-. reflexivity. }
  destruct (identity_beam_ids_keep_state_and_input (Demo.decoder INFER)
              (Demo.helper 1 Demo.stop3) Demo.modality
              (decode_remover (Demo.decoder INFER))
              (inputs_prepost_processing_fn (Demo.decoder INFER)).1
              (inputs_prepost_processing_fn (Demo.decoder INFER)).2
              (decode_params (Demo.decoder INFER) (Demo.helper 1 Demo.stop3)
                 1%nat tt)
              1%nat Demo.greedy_vars s' tr a eq_refl Ha
              ltac:(rewrite Ha'; reflexivity) eq_refl eq_refl Hb)
    as [H1 H2].
  exists s', tr. split; [reflexivity|]. split; [exact H1 | exact H2].
Defined.

(** The decode of a decoder that returns one of its two declared fields
    fails at the first step. *)
Lemma decode_fault_witness :
  Demo.forgetful_decode 0 = Timeout ∧
  Demo.forgetful_decode 5 = Fault StructureMismatch ∧
  ∀ r tr, Demo.forgetful_decode 5 ≠ Done r tr.
Proof.
  assert (Hbefore : ∀ (j : nat) sj trj, (j ≤ 0)%nat →
    iterate j
      (decode_body Demo.forgetful_decoder (Demo.helper 2 Demo.stop3)
         Demo.modality 2%nat tt)
      (initial_loop_vars 0%Q Demo.dynamic_shapes Demo.forgetful_decoder
         (Demo.helper 2 Demo.stop3) Demo.modality 2%nat tt) = Done sj trj →
    reduce_all (finished sj) = false).
  { intros j sj trj Hj Hsj. destruct j as [|j]; [|lia].
    vm_compute in Hsj. injection Hsj as <- _. reflexivity. }
  assert (Hne :
    (step_output Demo.forgetful_decoder (Demo.helper 2 Demo.stop3) 2%nat tt
       (step_inputs (inputs_prepost_processing_fn Demo.forgetful_decoder).1
          (initial_loop_vars 0%Q Demo.dynamic_shapes Demo.forgetful_decoder
             (Demo.helper 2 Demo.stop3) Demo.modality 2%nat tt),
        decoder_states
          (initial_loop_vars 0%Q Demo.dynamic_shapes Demo.forgetful_decoder
             (Demo.helper 2 Demo.stop3) Demo.modality 2%nat tt))).*1
    ≠ decode_fields Demo.forgetful_decoder).
  { vm_compute. discriminate. }
  assert (H00 : (0 ≤ 0)%nat) by lia.
  assert (H05 : (0 < 5)%nat) by lia.
  destruct (wrong_record_fails_decode 0%Q Demo.dynamic_shapes
              Demo.forgetful_decoder (Demo.helper 2 Demo.stop3) Demo.modality
              2%nat tt 0 _ [] eq_refl Hbefore Hne 0%nat) as (Hcut & _ & _).
  destruct (wrong_record_fails_decode 0%Q Demo.dynamic_shapes
              Demo.forgetful_decoder (Demo.helper 2 Demo.stop3) Demo.modality
              2%nat tt 0 _ [] eq_refl Hbefore Hne 5%nat)
    as (_ & Hfault & Hnever).
  split; [exact (Hcut H00)|]. split; [exact (Hfault H05) | exact Hnever].
Defined.

(** In the teacher-forced decode the inputs of the three transitions are
    the embeddings: the default hooks change nothing. *)
Lemma inputs_flow_witness :
  ∃ r tr,
    Demo.train_decode 5 (Demo.stop_len 3) = Done r tr ∧
    (postprocess_calls tr).*2
    = [[10; 20]; [11; 21]; [12; 22]; [13; 23]] ∧
    (step_calls tr).*1
    = (λ pc, (inputs_prepost_processing_fn (Demo.decoder TRAIN)).1 pc.1 pc.2)
      <$> preprocess_calls tr.
Proof.
  destruct (Demo.train_decode 5 (Demo.stop_len 3)) as [r tr| |] eqn:Hd;
    [|vm_compute in Hd; discriminate..].
  destruct (inputs_flow_through_hooks 0%Q Demo.dynamic_shapes (Demo.decoder
      TRAIN)
              (Demo.helper 2 (Demo.stop_len 3)) Demo.modality 2%nat tt 5 r tr
              Hd) as (H1 & _ & H3).
  exists r, tr. split; [reflexivity|]. split; [|exact H3].
  rewrite H1. vm_compute in Hd. injection Hd as _ <-. reflexivity.
Defined.

Lemma default_hooks_witness :
  ∃ r tr,
    Demo.train_decode 5 (Demo.stop_len 3) = Done r tr ∧
    (step_calls tr).*1 = [[10; 20]; [11; 21]; [12; 22]].
Proof.
  destruct (Demo.train_decode 5 (Demo.stop_len 3)) as [r tr| |] eqn:Hd;
    [|vm_compute in Hd; discriminate..].
  pose proof (default_hooks_feed_embeddings 0%Q Demo.dynamic_shapes
      (Demo.decoder TRAIN)
                (Demo.helper 2 (Demo.stop_len 3)) Demo.modality 2%nat tt 5 r
                tr eq_refl Hd) as H.
  exists r, tr. split; [reflexivity|].
  rewrite H. vm_compute in Hd. injection Hd as _ <-. reflexivity.
Defined.

(** In the inference decode the state of the second transition call is the
    state the first one returned, gathered by the first [beam_ids]. *)
Lemma states_flow_witness :
  ∃ r tr c c' p,
    Demo.infer_decode 5 Demo.stop3 = Done r tr ∧
    step_calls tr !! 0%nat = Some c ∧ step_calls tr !! 1%nat = Some c' ∧
    sample_calls tr !! 0%nat = Some p ∧
    c.2 = Leaf [0; 0] ∧
    gather_states
      (step (Demo.decoder INFER) c.1 c.2
         (decode_params (Demo.decoder INFER) (Demo.helper 2 Demo.stop3)
            1%nat tt)).2
      (sample_result (Demo.decoder INFER) (Demo.helper 2 Demo.stop3)
         Demo.modality 1%nat tt c p).1.1.2
    = Some c'.2.
Proof.
  destruct (Demo.infer_decode 5 Demo.stop3) as [r tr| |] eqn:Hd;
    [|vm_compute in Hd; discriminate..].
  destruct (step_calls tr !! 0%nat) as [c|] eqn:Hc;
    [|vm_compute in Hd; injection Hd as _ <-; discriminate].
  destruct (step_calls tr !! 1%nat) as [c'|] eqn:Hc';
    [|vm_compute in Hd; injection Hd as _ <-; discriminate].
  destruct (states_flow_through_steps 0%Q Demo.dynamic_shapes (Demo.decoder
      INFER)
              (Demo.helper 2 Demo.stop3) Demo.modality 1%nat tt 5 r tr Hd)
    as (H0 & Hnext).
  destruct (Hnext 0%nat c c' Hc Hc') as (p & Hp & Hg).
  exists r, tr, c, c', p.
  split; [reflexivity|]. split; [exact Hc|]. split; [exact Hc'|].
  split; [exact Hp|]. split; [exact (H0 c Hc) | exact Hg].
Defined.

(** The inference decode stopped at time 4 makes five steps; the concrete
    helper adds -1/10 to every lane at every call, the first call gets zeros
    for both lanes, and lane 0 of the last returned log-probabilities holds
    -1/2. *)
Lemma log_probs_witness :
  ∃ r tr st p lp y,
    Demo.infer_decode 6 (Demo.stop_len 5) = Done r tr ∧ r.2 = Some st ∧
    length (step_calls tr) = 5%nat ∧
    sample_calls tr !! 0%nat = Some p ∧
    p.1.1.2 = [0%Q; 0%Q] ∧ p.2 = [0; 0] ∧
    list.last (log_probs st) = Some lp ∧ lp !! 0%nat = Some y ∧
    (y == - (1 # 2))%Q.
Proof.
  assert (Hadd : ∀ (logits : list Z) (lp : list Q) (fin : list bool)
                   (len : list Z) (t : Z) (x : Q),
    lp !! 0%nat = Some x →
    ∃ y, (sample_symbols (Demo.helper 2 (Demo.stop_len 5)) logits lp fin len
            t).1.2 !! 0%nat = Some y ∧ (y == x + - (1 # 10))%Q).
  { intros logits lp fin len t x Hx. exists (x + - (1 # 10))%Q.
    split; [|reflexivity]. cbn. rewrite list_lookup_fmap, Hx. reflexivity. }
  destruct (Demo.infer_decode 6 (Demo.stop_len 5)) as [r tr| |] eqn:Hd;
    [|vm_compute in Hd; discriminate..].
  assert (Hlen : length (step_calls tr) = 5%nat).
  { vm_compute in Hd. injection Hd as _ <-. reflexivity. }
  destruct (sample_calls tr !! 0%nat) as [p|] eqn:Hp;
    [|vm_compute in Hd; injection Hd as _ <-; discriminate].
  destruct (log_probs_accumulate Demo.dynamic_shapes (Demo.decoder INFER)
              (Demo.helper 2 (Demo.stop_len 5)) Demo.modality 1%nat tt 6 r tr
              eq_refl Hd) as (st & Hr & _ & Hfirst & _ & Hacc).
  assert (Hlanes : length (init_symbols (Demo.helper 2 (Demo.stop_len 5))).2
                   ≠ 0%nat) by discriminate.
  destruct (Hacc Hlanes Hadd) as [_ Hfive].
  destruct (Hfive Hlen) as (lp & y & Hlast & Hy & Heq).
  destruct (Hfirst p Hp) as [Hp1 Hp2].
  exists r, tr, st, p, lp, y.
  split; [reflexivity|]. split; [exact Hr|]. split; [exact Hlen|].
  split; [exact Hp|]. split; [exact Hp1|]. split; [exact Hp2|].
  split; [exact Hlast|]. split; [exact Hy | exact Heq].
Defined.
